(* ===== verification/_CoqProject ===== *)
-Q . S2P
Prelude.v
PyStr.v
Url.v
Pool.v
PyStruct.v
Ajp.v
Config.v
Effects.v
Logic.v
Scenario.v
Deploy.v
Brute.v
Cve.v
Threads.v
Orchestrator.v
