(* ===== verification/Prelude.v ===== *)
(** * TomcatScan: a verification development

    The program under study is [src/TomcatScan.py], one Python module that
    scans a list of Tomcat endpoints: for each target it probes two known
    flaws, sweeps a list of credentials over the manager console and, on
    the first accepted pair, packages a JSP page into an archive and deploys
    it.  [main] runs one such scan for each target on a pool of threads; the
    scans share one output file.

    ** The parts of the program and the files that model them

    - [Prelude] (this file): the [result] type that stands for a Python call
      that returns or raises, its monad instances, the shared tactics and
      hint databases, lemmas on the ceiling division.
    - [PyStr]: the [str] methods the source calls ([rstrip], [strip],
      [endswith], [split], [in], ...), executable, with their laws.
    - [Url]: [clean_url] (line 68), the manager-path normalisation of
      [check_weak_password] (255-259), the host of [detect_and_check] (569).
    - [Pool]: [adjust_thread_pool_size] (306-327) and the combination count
      of [main] (604).
    - [PyStruct]: [str.encode], [io.BytesIO.read] and [struct.pack],
      [struct.unpack], [struct.calcsize] for the codes the codec uses.
    - [Ajp]: [pack_string] (358-371), [unpack] (374-387), [unpack_string]
      (390-405), [prepare_ajp_forward_request] (408-463).
    - [Config]: the dictionary [yaml.safe_load] returns, [d[k]], [d.get],
      [k in d], and [validate_config] (330-355).
    - [Effects]: the calls to the outside ([requests], files, [zipfile],
      [time.sleep], [random], the AJP exchange) as the events of a program
      tree [prog]; [Env], the outside as a function of the history; [world],
      the disk and the history; [run].
    - [Logic]: the reasoning rules over [run]: weakest preconditions, the
      exceptions a program can raise ([raises_only]), the calls it can make
      ([emits]), bounds on their number ([at_most]), program equivalence,
      what a normal return tells, the shape of the history.
    - [Scenario]: executable environments (servers, outages, a disk that
      refuses, generators) on which the programs are evaluated.
    - [Deploy]: [generate_random_string] (82-92), [generate_war] (96-126),
      [get_jsessionid_and_csrf_nonce] (130-166), [deploy_godzilla_war]
      (170-235).
    - [Brute]: [check_weak_password] (239-302).
    - [Cve]: [check_cve_2017_12615_and_cnvd_2020_10487] (467-550) with the
      model of [urlparse(url).hostname] and of UTF-8 decoding it needs.
    - [Threads]: the [ThreadPoolExecutor] of [main] (610-617) as a step
      relation [pool_step] over the tasks that wait, run and ended, and an
      executable scheduler [run_pool].
    - [Orchestrator]: [load_file] (50-64), [detect_and_check] (554-577) and
      [main] (581-617).

    ** How state and operations correspond to the code

    A function of the source that only computes is a Rocq function with the
    same name and arguments; where it can raise it returns a [result].  A
    function that talks to the outside is a [prog]: each call it makes is an
    event, and what follows is a function of the answer, a value or an
    exception.  [try]/[except] is [try_except].  The state is the [world]:
    the files, as a map from paths to texts and archives, and the history of
    the calls with their answers.  Nothing else is shared: the source keeps
    no global but the logger.  Each [for] loop over a list is a [Fixpoint]
    on the list; each retry loop is a [Fixpoint] on fuel (see below).

    [main] is a relation: the program [prepare] (validation, the three
    lists, the pool size), then any run of [pool_step] from the submitted
    tasks to a pool with nothing left, then the first exception of a task in
    the order of completion, as [future.result()] raises it again.  One
    step of the pool is one call of one running task: calls of different
    tasks interleave in every order and each call is atomic.

    ** What the theorems show

    - Codec ([Ajp]): [unpack_string] computes a reference decoder on every
      stream; [unpack_string] after [pack_string] returns the string for
      lengths up to 32767 and raises [struct.error] from 32768 to 65534; for
      a string with a character outside ASCII [pack_string] writes a proper
      prefix of the encoding.
    - URLs ([Url]): [clean_url] strips a set of characters, not a suffix:
      where it agrees with the suffix removal and where it eats the host.
    - Pool size ([Pool]): the clamp of the ceiling, its bounds, the division
      by zero.
    - Validation ([Config]): [validate_config] answers [True] exactly on the
      configurations characterised by [section_ok]; what it lets through.
    - Deployment ([Deploy]): whenever [deploy_godzilla_war] returns the
      archive is gone or its removal was refused; when it raises the
      archive stays; what [generate_war] leaves on disk; the exceptions that
      can leave, those of an ill-typed count and of a negative delay
      included; the number of requests and pauses; the retry loop stops.
    - Sweep ([Brute]): a returned pair was accepted by the server and
      recorded; a transport error restarts the sweep from the first pair
      after a pause, and ends it with [ValueError] when the delay is
      negative; the requests of an exhausted and of an unreachable sweep, in
      order; [max_retries = 0]; the exceptions that can leave.
    - Probe ([Cve]): a reported flaw was observed in the history; the
      report of an inclusion; at most six requests and one exchange; no file
      changes; the exceptions that can leave.
    - Scan ([Threads], [Orchestrator]): under every interleaving the output
      file holds exactly the texts appended to it, in order, each a whole
      line; no other file but generated pages and archives changes; the
      workers of the pool [main] opens are what [adjust_thread_pool_size]
      gives for the lists [load_file] read, no more scans than that run at
      once and there is one result for each URL; [main] ends with no other
      exception than those of [fatal].  That every run of the pool is finite
      ([pool_terminates]) is a lemma of [Threads].

    [raises_only P p] is inductive over the tree of [p] and quantifies over
    every answer each call can get, so it holds of a task whatever the other
    tasks do between its calls; [raises_only_run] gives the statement about
    [run] in every environment.

    Theorems with hypotheses have a witness that applies them to an
    executable scenario; the [Example]s evaluate the programs on inputs
    where the behaviour departs from what the comments of the source or the
    specification say.

    ** Fuel

    [upload_loop] and [sweep_loop] are the [while attempt < max_retries]
    loops of [deploy_godzilla_war] and [check_weak_password].  Each turn
    either leaves the loop or adds 1 to [attempt], so [max_retries - attempt]
    turns are enough; the functions start them with
    [Z.to_nat max_retries] at [attempt = 0], once the first comparison
    accepted [max_retries] as an integer.  [upload_loop_fuel] and
    [sweep_loop_fuel] show that more fuel changes nothing, so the definitions
    are the loops of the source and not a truncation of them.  [run_pool]
    takes a list of choices and stops when it ends; [pool_terminates] shows
    that every run of the pool is finite.

    ** Modelling conventions and limits

    - A Python [int] is a [Z]; [//] is [Z.div] (both round towards minus
      infinity).
    - A Python [str] is a Rocq [string] whose characters stand for the code
      points U+0000..U+00FF; the two default contents of the source, which
      are outside that range, and text received over AJP are kept as their
      UTF-8 bytes.  Python [bytes] are [list byte].
    - An exception is a constructor of [exn]; HTTP errors raised by
      [raise_for_status] and transport errors are both [RequestException],
      as the [except] clauses of the source see them.
    - A value of the configuration has the type it has in the file
      ([yaml]: a string, an integer, [None] or a dictionary; numbers with a
      fraction are not modelled).  The two settings of a retry loop are
      passed on as they were read and checked where Python checks them:
      [attempt < max_retries] raises [TypeError] on a value that is no
      integer ([as_int], before the first turn, since the value does not
      change), [time.sleep] raises [TypeError] on such a value and
      [ValueError] on a negative one ([sleep]).  [d.get] on a value that is
      no dictionary raises [AttributeError].  The paths and the pool
      settings of [main] are converted where [main] reads them ([as_str],
      [as_int]): a value of another type raises [TypeError] there, while the
      source raises it at the first use of the value, which for the path of
      the output file is the first line a scan writes.  The body of a PUT
      is a string or [None] ([put_body]).
    - An append to the output file is one atomic call.  The source opens
      the file in append mode and writes one line; no lock protects it.

    ** Not modelled

    - [load_config]: a file read through [yaml.safe_load]; the development
      starts from the value it returns.
    - The AJP exchange itself ([Tomcat.perform_request] of the imported
      package [tomcatscan]): an event answered by the environment.
    - [BeautifulSoup]: a parameter ([Soup]) of the deployment.
    - Logging: the logger calls change nothing the program reads.
    - Time: [time.sleep] and the timeouts of the requests are events and
      fields; no clock is modelled. *)

From Stdlib Require Export ZArith Lia Ascii.
From stdpp Require Export base tactics option list strings.

#[export] Set Warnings "-clear-no-such-hyp".

(** ** Exceptions and results *)

(** The exception classes the source raises, catches or lets escape. *)
Inductive exn : Type :=
  | RequestException   (* requests.exceptions.RequestException and subclasses *)
  | OSError            (* open, os.remove *)
  | StructError        (* struct.error *)
  | ZeroDivisionError
  | UnicodeError       (* str.encode / bytes.decode *)
  | KeyError
  | ValueError         (* time.sleep on a negative number, a pool without workers *)
  | TypeError
  | AttributeError.    (* a method a value does not have *)

#[export] Instance exn_eq_dec : EqDecision exn.
Proof. solve_decision. Defined.

(** A call that returns [a] is [Ok a]; one that raises [e] is [Raise e]. *)
Inductive result (A : Type) : Type :=
  | Ok (a : A)
  | Raise (e : exn).
Arguments Ok {A} a.
Arguments Raise {A} e.

#[export] Instance result_eq_dec `{EqDecision A} : EqDecision (result A).
Proof. solve_decision. Defined.

#[export] Instance result_ret : MRet result := @Ok.
#[export] Instance result_bind : MBind result := λ A B f m,
  match m with Ok a => f a | Raise e => Raise e end.
#[export] Instance result_fmap : FMap result := λ A B f m,
  match m with Ok a => Ok (f a) | Raise e => Raise e end.

Definition is_Ok {A} (r : result A) : bool :=
  match r with Ok _ => true | Raise _ => false end.

(** [try: r except e => h]: the handler runs on exception [e] only. *)
Definition catch {A} (r : result A) (e : exn) (h : result A) : result A :=
  match r with
  | Ok a => Ok a
  | Raise e' => if decide (e' = e) then h else Raise e'
  end.

Declare Scope py_scope.
Delimit Scope py_scope with py.
Open Scope py_scope.
Open Scope Z_scope.

(** ** Tactics *)

(** Case on the scrutinee of the first match or if of the goal. *)
Ltac case_scrut :=
  match goal with
  | |- context [match ?x with _ => _ end] => destruct x eqn:?
  end.

(** Linear arithmetic with [/] and [mod] by constants. *)
Ltac zlia := Z.div_mod_to_equations; lia.

(** Unfold the monad operations of [result]. *)
Ltac unfold_result :=
  unfold mbind, mret, fmap, result_bind, result_ret, result_fmap in *.

Create HintDb py discriminated.
Create Rewrite HintDb py_rw.

(** ** Laws of [result] *)

Section result_laws.
Context {A B C : Type}.
Implicit Types (m : result A) (f : A → result B) (g : B → result C).

Lemma result_bind_Ok a f : Ok a ≫= f = f a.
Proof. done. Qed.

Lemma result_bind_Raise e f : Raise e ≫= f = Raise e.
Proof. done. Qed.

Lemma result_bind_ret m : m ≫= mret = m.
Proof. by destruct m. Qed.

Lemma result_bind_assoc m f g : (m ≫= f) ≫= g = m ≫= (λ a, f a ≫= g).
Proof. by destruct m. Qed.

Lemma result_bind_Ok_inv m f b :
  m ≫= f = Ok b ↔ ∃ a, m = Ok a ∧ f a = Ok b.
Proof.
  destruct m as [a|e]; unfold_result; split; try done; eauto.
  - by intros (? & [= <-] & ?).
  - by intros (? & ? & ?).
Qed.

Lemma catch_Ok a e (h : result A) : catch (Ok a) e h = Ok a.
Proof. done. Qed.

Lemma catch_same e (h : result A) : catch (Raise e) e h = h.
Proof. unfold catch. by rewrite decide_True. Qed.

Lemma catch_other e e' (h : result A) : e' ≠ e → catch (Raise e') e h = Raise e'.
Proof. intros. unfold catch. by rewrite decide_False. Qed.

(** A decision returned as a value is [True] exactly when it holds. *)
Lemma Ok_bool_decide (P : Prop) `{Decision P} :
  (Ok (bool_decide P) : result bool) = Ok true ↔ P.
Proof.
  split; [intros [= ?]; by eapply bool_decide_eq_true_1|].
  intros. by rewrite bool_decide_eq_true_2.
Qed.
End result_laws.

#[export] Hint Rewrite @result_bind_Ok @result_bind_Raise @result_bind_ret
  @catch_Ok @catch_same : py_rw.

(** ** Integers *)

Section integers.
Implicit Types (a b k : Z).

(** The idiom [(a + k - 1) // k] is the ceiling of [a / k] for [k > 0]. *)
Lemma ceil_div_spec a k :
  0 < k → let q := (a + k - 1) / k in (q - 1) * k < a ≤ q * k.
Proof.
  intros Hk q. subst q.
  pose proof (Z.div_mod (a + k - 1) k ltac:(lia)).
  pose proof (Z.mod_pos_bound (a + k - 1) k Hk). nia.
Qed.

Lemma ceil_div_unique a k q :
  0 < k → (q - 1) * k < a ≤ q * k → (a + k - 1) / k = q.
Proof.
  intros Hk Hq. symmetry. apply (Z.div_unique _ _ q (a + k - 1 - k * q)); lia.
Qed.

Lemma ceil_div_pos a k : 0 < k → 0 < a → 0 < (a + k - 1) / k.
Proof. intros. apply Z.div_str_pos. lia. Qed.

Lemma ceil_div_exact a k : 0 < k → (a * k + k - 1) / k = a.
Proof. intros. apply ceil_div_unique; lia. Qed.
End integers.

#[export] Hint Resolve ceil_div_pos : py.
