(* ===== verification/PyStr.v ===== *)
(** * PyStr: the [str] methods the scanner calls

    Executable definitions of [len], [+], [str.rstrip], [str.endswith],
    [str.startswith], [in], [str.split], indexing a list with [0] and [-1],
    each with the lemmas the URL helpers and the probes need.  A [str] is a
    Rocq [string]; a set of characters, as [str.rstrip] takes it, is the
    string of its members. *)

From S2P Require Import Prelude.

(** ** Definitions *)

(** [len(s)] *)
Definition len (s : string) : Z := Z.of_nat (String.length s).

(** [c * n], for a one-character [c]: empty when [n] is not positive. *)
Fixpoint str_repeat (c : ascii) (n : nat) : string :=
  match n with
  | O => ""
  | S n' => String c (str_repeat c n')
  end.

Definition str_mul (c : ascii) (n : Z) : string := str_repeat c (Z.to_nat n).

(** [c in chars], for a one-character [c]. *)
Fixpoint in_chars (c : ascii) (chars : string) : bool :=
  match chars with
  | "" => false
  | String d r => if decide (c = d) then true else in_chars c r
  end.

(** Every character of [t] is a member of [chars]. *)
Fixpoint all_in (chars t : string) : bool :=
  match t with
  | "" => true
  | String c r => in_chars c chars && all_in chars r
  end.

(** The last character, or [None] on the empty string. *)
Fixpoint last_char (s : string) : option ascii :=
  match s with
  | "" => None
  | String c "" => Some c
  | String _ r => last_char r
  end.

(** [s.rstrip(chars)]: [s] without its longest suffix made of members of
    [chars]. *)
Fixpoint rstrip (chars s : string) : string :=
  match s with
  | "" => ""
  | String c r =>
      match rstrip chars r with
      | "" => if in_chars c chars then "" else String c ""
      | r' => String c r'
      end
  end.

(** [s.lstrip(chars)] and [s.strip(chars)]. *)
Fixpoint lstrip (chars s : string) : string :=
  match s with
  | "" => ""
  | String c r => if in_chars c chars then lstrip chars r else s
  end.

Definition strip (chars s : string) : string := rstrip chars (lstrip chars s).

(** The characters [str.strip()] removes, up to U+00FF. *)
Definition whitespace : string :=
  String "009" (String "010" (String "011" (String "012" (String "013"
  (String "028" (String "029" (String "030" (String "031" (String " "
  (String "133" (String "160" ""))))))))))).

(** [s.startswith(p)] *)
Fixpoint startswith (s p : string) : bool :=
  match p, s with
  | "", _ => true
  | String _ _, "" => false
  | String a p', String b s' => if decide (a = b) then startswith s' p' else false
  end.

(** [s.endswith(suf)] *)
Fixpoint endswith (s suf : string) : bool :=
  if decide (s = suf) then true
  else match s with
       | "" => false
       | String _ r => endswith r suf
       end.

(** [s.removesuffix(suf)] *)
Definition removesuffix (s suf : string) : string :=
  if endswith s suf
  then String.substring 0 (String.length s - String.length suf) s
  else s.

(** [sub in s] *)
Fixpoint contains (sub s : string) : bool :=
  if startswith s sub then true
  else match s with
       | "" => false
       | String _ r => contains sub r
       end.

(** The loop of [s.split(sep)] for a non-empty [sep]: [skip] characters of a
    separator just matched remain to be passed, [acc] is the current field
    in reverse. *)
Fixpoint split_go (sep : string) (skip : nat) (acc : string) (s : string)
  : list string :=
  match s with
  | "" => [String.rev acc]
  | String c r =>
      match skip with
      | S k => split_go sep k acc r
      | O =>
          if startswith s sep
          then String.rev acc :: split_go sep (String.length sep - 1) "" r
          else split_go sep 0 (String c acc) r
      end
  end.

(** [s.split(sep)]; an empty separator raises [ValueError], which no caller
    of the source can reach since every separator is a literal. *)
Definition split (sep s : string) : list string := split_go sep 0 "" s.

(** [l[0]] and [l[-1]] on a list of strings that [split] returned (never
    empty, so the default is not reached). *)
Definition first (l : list string) : string := hd "" l.
Definition final (l : list string) : string := List.last l "".

(** [sep.join(l)] *)
Fixpoint join (sep : string) (l : list string) : string :=
  match l with
  | [] => ""
  | [x] => x
  | x :: l' => x +:+ sep +:+ join sep l'
  end.

(** A string is empty or ends outside [chars]: [rstrip] has nothing to do. *)
Definition stripped (chars s : string) : Prop :=
  ∀ c, last_char s = Some c → in_chars c chars = false.

#[export] Instance stripped_dec (chars s : string) : Decision (stripped chars s).
Proof.
  unfold stripped. destruct (last_char s) as [c|].
  - destruct (in_chars c chars) eqn:E.
    + right. intros H. specialize (H c eq_refl). congruence.
    + left. by intros ? [= <-].
  - left. done.
Defined.

(** ** Append and length *)

Section append.
Implicit Types (s t u : string).

Lemma sapp_nil_l s : "" +:+ s = s.
Proof. done. Qed.

Lemma sapp_cons c s t : String c s +:+ t = String c (s +:+ t).
Proof. done. Qed.

Lemma sapp_nil_r s : s +:+ "" = s.
Proof. induction s; rewrite ?sapp_cons; by f_equal. Qed.

Lemma sapp_assoc s t u : (s +:+ t) +:+ u = s +:+ (t +:+ u).
Proof. induction s; rewrite ?sapp_cons; by f_equal. Qed.

Lemma slength_app s t :
  String.length (s +:+ t) = (String.length s + String.length t)%nat.
Proof. induction s; rewrite ?sapp_cons; simpl; by f_equal. Qed.

Lemma len_app s t : len (s +:+ t) = len s + len t.
Proof. unfold len. rewrite slength_app. lia. Qed.

Lemma len_nonneg s : 0 ≤ len s.
Proof. unfold len. lia. Qed.

Lemma len_str_mul c (n : Z) : len (str_mul c n) = Z.max 0 n.
Proof.
  unfold len, str_mul. rewrite <-(Z2Nat.id (Z.max 0 n)) by lia. f_equal.
  replace (Z.to_nat (0 `max` n)) with (Z.to_nat n) by lia.
  induction (Z.to_nat n); simpl; by f_equal.
Qed.

Lemma sapp_eq_nil s t : s +:+ t = "" → s = "" ∧ t = "".
Proof. by destruct s, t. Qed.

(** Two concatenations with heads of one length agree part by part. *)
Lemma sapp_inj_length s t a b :
  String.length s = String.length t → s +:+ a = t +:+ b → s = t ∧ a = b.
Proof.
  revert t. induction s as [|c s IH]; intros [|d t] Hl; try done.
  rewrite !sapp_cons. intros [= -> Hst]. destruct (IH t) as [-> ->]; auto.
Qed.

Lemma sapp_inv_tail s t u : s +:+ u = t +:+ u → s = t.
Proof.
  intros H. assert (Hl : String.length s = String.length t).
  { apply (f_equal String.length) in H. rewrite !slength_app in H. lia. }
  revert t H Hl. induction s as [|c s IH]; intros [|d t] H Hl; try done.
  rewrite !sapp_cons in H. injection H as -> H. f_equal. apply IH; [done|].
  simpl in Hl. lia.
Qed.
End append.

#[export] Hint Rewrite sapp_nil_r sapp_assoc slength_app len_app : py_rw.
#[export] Hint Resolve len_nonneg : py.

(** ** Character sets and the last character *)

Section chars.
Implicit Types (s t r chars : string) (c : ascii).

Lemma in_chars_app c s t : in_chars c (s +:+ t) = in_chars c s || in_chars c t.
Proof. induction s as [|d s IH]; simpl; [done|]. by case_decide. Qed.

Lemma all_in_app chars s t :
  all_in chars (s +:+ t) = all_in chars s && all_in chars t.
Proof.
  induction s as [|c s IH]; [done|].
  rewrite sapp_cons. simpl. rewrite IH. by rewrite andb_assoc.
Qed.

Lemma last_char_cons c s :
  last_char (String c s) = match s with "" => Some c | _ => last_char s end.
Proof. by destruct s. Qed.

Lemma last_char_app s t : t ≠ "" → last_char (s +:+ t) = last_char t.
Proof.
  intros Ht. induction s as [|c s IH]; [done|].
  rewrite sapp_cons, last_char_cons, IH.
  destruct (s +:+ t) eqn:E; [|done]. by apply sapp_eq_nil in E as [_ ?].
Qed.

Lemma last_char_snoc s c : last_char (s +:+ String c "") = Some c.
Proof. by rewrite last_char_app. Qed.

Lemma last_char_None s : last_char s = None ↔ s = "".
Proof.
  split; [|by intros ->]. induction s as [|c [|d s] IH]; try done.
  intros H. by specialize (IH H).
Qed.

End chars.

(** ** [rstrip] *)

Section rstrip.
Implicit Types (s t r chars : string) (c : ascii).

Lemma rstrip_cons chars c s :
  rstrip chars (String c s) =
    match rstrip chars s with
    | "" => if in_chars c chars then "" else String c ""
    | r => String c r
    end.
Proof. done. Qed.

Lemma rstrip_nil_iff chars s : rstrip chars s = "" ↔ all_in chars s = true.
Proof.
  induction s as [|c s IH]; [done|]. rewrite rstrip_cons. simpl.
  rewrite andb_true_iff, <-IH.
  destruct (rstrip chars s), (in_chars c chars); naive_solver.
Qed.

Lemma rstrip_all_in chars s : all_in chars s = true → rstrip chars s = "".
Proof. apply rstrip_nil_iff. Qed.

(** What [rstrip] removes is a suffix made of members of [chars]. *)
Lemma rstrip_decompose chars s :
  ∃ t, s = rstrip chars s +:+ t ∧ all_in chars t = true.
Proof.
  induction s as [|c s (t & Hs & Ht)]; [by exists ""|].
  rewrite rstrip_cons. destruct (rstrip chars s) as [|d r] eqn:E.
  - destruct (in_chars c chars) eqn:Hc.
    + exists (String c s). split; [done|]. simpl. rewrite Hc.
      by apply rstrip_nil_iff.
    + exists t. split; [|done]. rewrite sapp_cons. by f_equal.
  - exists t. split; [|done]. rewrite sapp_cons. by f_equal.
Qed.

(** What [rstrip] returns does not end in a member of [chars]. *)
Lemma rstrip_stripped chars s : stripped chars (rstrip chars s).
Proof.
  unfold stripped. induction s as [|c s IH]; [done|].
  rewrite rstrip_cons. destruct (rstrip chars s) as [|d r] eqn:E.
  - destruct (in_chars c chars) eqn:Hc; [done|]. by intros ? [= <-].
  - intros c'. rewrite last_char_cons. apply IH.
Qed.

(** On a stripped string [rstrip] is the identity. *)
Lemma rstrip_fixed chars s : stripped chars s → rstrip chars s = s.
Proof.
  unfold stripped. induction s as [|c s IH]; [done|].
  rewrite last_char_cons, rstrip_cons. destruct s as [|d s].
  - intros H. simpl. by rewrite (H c).
  - intros H. rewrite (IH H). done.
Qed.

Lemma rstrip_idem chars s : rstrip chars (rstrip chars s) = rstrip chars s.
Proof. apply rstrip_fixed, rstrip_stripped. Qed.

(** A suffix made of members of [chars] does not change the result. *)
Lemma rstrip_app_all_in chars s t :
  all_in chars t = true → rstrip chars (s +:+ t) = rstrip chars s.
Proof.
  intros Ht. induction s as [|c s IH].
  - by rewrite sapp_nil_l, rstrip_all_in.
  - by rewrite sapp_cons, !rstrip_cons, IH.
Qed.

(** [rstrip] is the only function with the two properties above. *)
Lemma rstrip_unique chars s r t :
  s = r +:+ t → all_in chars t = true → stripped chars r → rstrip chars s = r.
Proof. intros -> Ht Hr. by rewrite rstrip_app_all_in, rstrip_fixed. Qed.

Lemma rstrip_length chars s :
  (String.length (rstrip chars s) ≤ String.length s)%nat.
Proof.
  destruct (rstrip_decompose chars s) as (t & Hs & _).
  rewrite Hs at 2. rewrite slength_app. lia.
Qed.
End rstrip.

#[export] Hint Rewrite rstrip_idem : py_rw.
#[export] Hint Resolve rstrip_stripped : py.

(** ** [startswith], [endswith], [in] *)

Section affixes.
Implicit Types (s t p q suf sub : string) (c : ascii).

Lemma startswith_nil s : startswith s "" = true.
Proof. by destruct s. Qed.

Lemma startswith_cons a p b s :
  startswith (String b s) (String a p) =
    if decide (a = b) then startswith s p else false.
Proof. done. Qed.

Lemma startswith_app p r : startswith (p +:+ r) p = true.
Proof.
  induction p as [|c p IH]; [apply startswith_nil|].
  by rewrite sapp_cons, startswith_cons, decide_True.
Qed.

Lemma startswith_spec s p : startswith s p = true ↔ ∃ r, s = p +:+ r.
Proof.
  split; [|intros [r ->]; apply startswith_app].
  revert s. induction p as [|a p IH]; intros s H; [by exists s|].
  destruct s as [|b s]; [done|]. rewrite startswith_cons in H.
  case_decide; [subst|done]. destruct (IH _ H) as [r ->]. by exists r.
Qed.

Lemma endswith_unfold s suf :
  endswith s suf =
    if decide (s = suf) then true
    else match s with "" => false | String _ r => endswith r suf end.
Proof. by destruct s. Qed.

Lemma endswith_refl s : endswith s s = true.
Proof. by rewrite endswith_unfold, decide_True. Qed.

Lemma endswith_cons c s suf : endswith s suf = true → endswith (String c s) suf = true.
Proof. intros H. rewrite endswith_unfold. by case_decide. Qed.

Lemma endswith_app p suf : endswith (p +:+ suf) suf = true.
Proof.
  induction p as [|c p IH]; [apply endswith_refl|].
  rewrite sapp_cons. by apply endswith_cons.
Qed.

Lemma endswith_spec s suf : endswith s suf = true ↔ ∃ p, s = p +:+ suf.
Proof.
  split; [|intros [p ->]; apply endswith_app].
  induction s as [|c s IH]; rewrite endswith_unfold; case_decide; subst; try done.
  - by exists "".
  - by exists "".
  - intros [p ->]%IH. by exists (String c p).
Qed.

Lemma substring_app p suf :
  String.substring 0 (String.length (p +:+ suf) - String.length suf) (p +:+ suf) = p.
Proof.
  rewrite slength_app, Nat.add_sub.
  induction p as [|c p IH]; [by destruct suf|].
  rewrite sapp_cons. simpl. by rewrite IH.
Qed.

Lemma removesuffix_app p suf : removesuffix (p +:+ suf) suf = p.
Proof. unfold removesuffix. by rewrite endswith_app, substring_app. Qed.

(** A string that ends with a non-empty [suf] ends with the last character
    of [suf]. *)
Lemma endswith_last_char s suf :
  suf ≠ "" → endswith s suf = true → last_char s = last_char suf.
Proof. intros ? [p ->]%endswith_spec. by apply last_char_app. Qed.

Lemma contains_unfold sub s :
  contains sub s =
    if startswith s sub then true
    else match s with "" => false | String _ r => contains sub r end.
Proof. by destruct s. Qed.

Lemma contains_app p sub q : contains sub (p +:+ sub +:+ q) = true.
Proof.
  induction p as [|c p IH]; rewrite contains_unfold.
  - by rewrite sapp_nil_l, startswith_app.
  - rewrite sapp_cons, IH. by case_match.
Qed.

Lemma contains_spec sub s : contains sub s = true ↔ ∃ p q, s = p +:+ sub +:+ q.
Proof.
  split; [|intros (p & q & ->); apply contains_app].
  induction s as [|c s IH]; rewrite contains_unfold;
    (destruct (startswith _ sub) eqn:E;
      [apply startswith_spec in E as [r E]; by exists "", r|]); [done|].
  intros (p & q & ->)%IH. by exists (String c p), q.
Qed.
End affixes.

#[export] Hint Rewrite startswith_app endswith_app endswith_refl contains_app : py_rw.

(** ** [split] and [join] *)

Section split.
Implicit Types (s t r h sep acc : string) (c a : ascii).

Lemma rev_app_spec s t : String.rev_app s t = String.rev s +:+ t.
Proof.
  revert t. induction s as [|c s IH]; intros t; [done|].
  unfold String.rev. simpl. by rewrite (IH (String c "")), IH, sapp_assoc.
Qed.

Lemma rev_cons c s : String.rev (String c s) = String.rev s +:+ String c "".
Proof. unfold String.rev at 1. simpl. apply rev_app_spec. Qed.

Lemma split_go_nil sep k acc : split_go sep k acc "" = [String.rev acc].
Proof. done. Qed.

Lemma split_go_cons sep k acc c r :
  split_go sep k acc (String c r) =
    match k with
    | S k' => split_go sep k' acc r
    | O => if startswith (String c r) sep
           then String.rev acc :: split_go sep (String.length sep - 1) "" r
           else split_go sep 0 (String c acc) r
    end.
Proof. done. Qed.

Lemma split_go_nonempty sep k acc s : split_go sep k acc s ≠ [].
Proof.
  revert k acc. induction s as [|c r IH]; intros k acc; [done|].
  rewrite split_go_cons. destruct k; [|done]. by case_match.
Qed.

Lemma join_cons sep x l : l ≠ [] → join sep (x :: l) = x +:+ sep +:+ join sep l.
Proof. by destruct l. Qed.

(** Passing over the rest of a matched separator. *)
Lemma split_go_skip sep acc t s :
  split_go sep (String.length t) acc (t +:+ s) = split_go sep 0 acc s.
Proof. induction t as [|c t IH]; [by destruct s|]. by rewrite sapp_cons. Qed.

(** At a separator the current field is closed. *)
Lemma split_go_match sep acc r :
  sep ≠ "" →
  split_go sep 0 acc (sep +:+ r) = String.rev acc :: split_go sep 0 "" r.
Proof.
  destruct sep as [|a sep']; [done|intros _].
  rewrite sapp_cons, split_go_cons, <-sapp_cons, startswith_app.
  replace (String.length (String a sep') - 1)%nat with (String.length sep')
    by (simpl; lia).
  f_equal. apply split_go_skip.
Qed.

(** Elsewhere the character joins the current field. *)
Lemma split_go_nomatch sep acc c r :
  startswith (String c r) sep = false →
  split_go sep 0 acc (String c r) = split_go sep 0 (String c acc) r.
Proof. intros H. by rewrite split_go_cons, H. Qed.

Lemma split_go_join sep acc s :
  sep ≠ "" → join sep (split_go sep 0 acc s) = String.rev acc +:+ s.
Proof.
  intros Hsep. remember (String.length s) as n eqn:Hn.
  revert acc s Hn. induction (lt_wf n) as [n _ IH]. intros acc s ->.
  destruct s as [|c r]; [by rewrite sapp_nil_r|].
  destruct (startswith (String c r) sep) eqn:E.
  - apply startswith_spec in E as [r' E]. rewrite E, split_go_match by done.
    assert (Hlen : (String.length r' < String.length (String c r))%nat).
    { rewrite E, slength_app. destruct sep; [done|simpl; lia]. }
    rewrite join_cons by apply split_go_nonempty.
    by rewrite (IH _ Hlen "" r' eq_refl).
  - rewrite split_go_nomatch by done.
    rewrite (IH (String.length r)) by (done || simpl; lia).
    by rewrite rev_cons, sapp_assoc.
Qed.

(** Round trip: joining what [split] returned gives the string back. *)
Lemma join_split sep s : sep ≠ "" → join sep (split sep s) = s.
Proof. intros. unfold split. by rewrite split_go_join. Qed.

(** A string without the separator is the only field. *)
Lemma split_go_absent sep acc s :
  contains sep s = false → split_go sep 0 acc s = [String.rev acc +:+ s].
Proof.
  revert acc. induction s as [|c r IH]; intros acc; [by rewrite sapp_nil_r|].
  rewrite contains_unfold. destruct (startswith _ sep) eqn:E; [done|].
  intros H. rewrite split_go_nomatch, IH, rev_cons, sapp_assoc; done.
Qed.

Lemma split_absent sep s : contains sep s = false → split sep s = [s].
Proof. apply split_go_absent. Qed.

(** A prefix free of the separator's first character is the first field. *)
Lemma split_go_prefix a sep' acc h r :
  in_chars a h = false →
  split_go (String a sep') 0 acc (h +:+ String a sep' +:+ r) =
    (String.rev acc +:+ h) :: split_go (String a sep') 0 "" r.
Proof.
  revert acc. induction h as [|c h IH]; intros acc Hh.
  - by rewrite sapp_nil_l, sapp_nil_r, split_go_match.
  - simpl in Hh. case_decide; [done|]. rewrite sapp_cons.
    rewrite split_go_nomatch by (rewrite startswith_cons; by case_decide).
    by rewrite IH, rev_cons, sapp_assoc.
Qed.

Lemma split_prefix a sep' h r :
  in_chars a h = false →
  split (String a sep') (h +:+ String a sep' +:+ r) = h :: split (String a sep') r.
Proof. apply split_go_prefix. Qed.

Lemma split_nonempty sep s : split sep s ≠ [].
Proof. apply split_go_nonempty. Qed.
End split.

(** ** Character sets compared *)

Section charsets.
Implicit Types (s t sub sup : string) (c : ascii).

(** Every member of [sub] is a member of [sup]. *)
Definition subset (sub sup : string) : Prop := all_in sup sub = true.

Lemma in_chars_subset sub sup c :
  subset sub sup → in_chars c sub = true → in_chars c sup = true.
Proof.
  unfold subset. induction sub as [|d sub IH]; [done|]. simpl.
  intros [Hd Hs]%andb_true_iff. case_decide; [by subst|]. by apply IH.
Qed.

Lemma all_in_subset sub sup t :
  subset sub sup → all_in sub t = true → all_in sup t = true.
Proof.
  intros Hs. induction t as [|c t IH]; [done|]. simpl.
  intros [Hc Ht]%andb_true_iff. by rewrite (in_chars_subset sub sup), IH.
Qed.

(** Stripping a larger set absorbs stripping a smaller one. *)
Lemma rstrip_absorb sub sup s :
  subset sub sup → rstrip sup (rstrip sub s) = rstrip sup s.
Proof.
  intros Hs. destruct (rstrip_decompose sub s) as (t & Heq & Ht).
  rewrite Heq at 2. symmetry. apply rstrip_app_all_in. by eapply all_in_subset.
Qed.

Lemma stripped_subset sub sup s : subset sub sup → stripped sup s → stripped sub s.
Proof.
  intros Hs H c Hc. specialize (H c Hc).
  destruct (in_chars c sub) eqn:E; [|done].
  by rewrite (in_chars_subset sub sup) in H.
Qed.

Lemma stripped_app chars s t : t ≠ "" → stripped chars t → stripped chars (s +:+ t).
Proof. intros Ht H c. rewrite last_char_app by done. apply H. Qed.
End charsets.
