(* ===== verification/Url.v ===== *)
(** * Url: the URL helpers of the scanner

    [clean_url] (src/TomcatScan.py, line 68), the manager-path normalisation
    that opens [check_weak_password] (lines 255-259) and the host extraction
    of [detect_and_check] (line 569), with what each guarantees and where it
    departs from the intent its comment states. *)

From S2P Require Import Prelude PyStr.

(** ** Definitions *)

(** The argument of [rstrip] in [clean_url].  Python reads it as a set of
    characters, not as a suffix. *)
Definition manager_path : string := "/manager/html".

(** [def clean_url(url): return url.rstrip('/manager/html')] *)
Definition clean_url (url : string) : string := rstrip manager_path url.

(** The first five lines of [check_weak_password]:
[[
    base_url = url.rstrip('/')
    if not base_url.endswith('/manager/html'):
        url_with_path = f"{base_url}/manager/html"
    else:
        url_with_path = url
]] *)
Definition url_with_path (url : string) : string :=
  let base_url := rstrip "/" url in
  if negb (endswith base_url manager_path)
  then base_url +:+ manager_path
  else url.

(** [target_host = url.split("://")[-1].split("/")[0]] *)
Definition target_host (url : string) : string :=
  first (split "/" (final (split "://" url))).

(** What the name and the comment of [clean_url] announce: the URL without
    a trailing manager path. *)
Definition clean_url_spec (url : string) : string := removesuffix url manager_path.

(** ** [clean_url] *)

Section clean_url.
Implicit Types (url base t : string) (c : ascii).

Lemma manager_path_all_in : all_in manager_path manager_path = true.
Proof. done. Qed.

Lemma slash_subset : subset "/" manager_path.
Proof. done. Qed.

(** Cleaning twice is cleaning once. *)
Theorem clean_url_idem url : clean_url (clean_url url) = clean_url url.
Proof. apply rstrip_idem. Qed.

(** The result is a prefix of the argument, and what was cut is made of the
    ten characters of ["/manager/html"]. *)
Theorem clean_url_prefix url :
  ∃ t, url = clean_url url +:+ t ∧ all_in manager_path t = true.
Proof. apply rstrip_decompose. Qed.

(** The result never ends in one of the ten characters. *)
Theorem clean_url_stripped url : stripped manager_path (clean_url url).
Proof. apply rstrip_stripped. Qed.

(** [clean_url] leaves a URL alone exactly when it does not end in one of
    the ten characters. *)
Theorem clean_url_fixed_iff url : clean_url url = url ↔ stripped manager_path url.
Proof.
  split; [intros <-; apply clean_url_stripped|apply rstrip_fixed].
Qed.

(** On a base that does not end in one of the ten characters, the manager
    path and any slashes after it are removed, as intended. *)
Theorem clean_url_manager base t :
  stripped manager_path base → all_in "/" t = true →
  clean_url (base +:+ manager_path +:+ t) = base.
Proof.
  intros Hb Ht. apply (rstrip_unique _ _ _ (manager_path +:+ t)); [done| |done].
  rewrite all_in_app, manager_path_all_in. simpl.
  by apply (all_in_subset "/").
Qed.

(** C9. A base that ends in one of the ten characters loses it with the
    path, and whatever run of them ends the base: the URL is cleaned to what
    the base alone is cleaned to, never to the base.  The host name of
    [http://example.com/manager/html] comes back as [example.co]. *)
Theorem clean_url_overstrips base c :
  in_chars c manager_path = true →
  clean_url (base +:+ String c "" +:+ manager_path) = clean_url base ∧
  clean_url (base +:+ String c "" +:+ manager_path) ≠ base +:+ String c "".
Proof.
  intros Hc. split.
  - apply rstrip_app_all_in. rewrite all_in_app, manager_path_all_in, andb_true_r.
    cbn [all_in]. by rewrite Hc.
  - intros Heq.
    pose proof (clean_url_stripped (base +:+ String c "" +:+ manager_path)) as H.
    rewrite Heq in H. specialize (H c (last_char_snoc _ _)). congruence.
Qed.

(** C33. [clean_url] computes what it announces on every URL whose announced
    result does not end in one of the ten characters. *)
Theorem clean_url_refines url :
  stripped manager_path (clean_url_spec url) → clean_url url = clean_url_spec url.
Proof.
  unfold clean_url_spec, removesuffix.
  destruct (endswith url manager_path) eqn:E; [|apply rstrip_fixed].
  apply endswith_spec in E as [p ->]. rewrite substring_app. intros Hp.
  rewrite <-(sapp_nil_r manager_path). by apply clean_url_manager.
Qed.

(** The stripped slashes of [check_weak_password] are absorbed. *)
Lemma clean_url_rstrip_slash url : clean_url (rstrip "/" url) = clean_url url.
Proof. apply rstrip_absorb, slash_subset. Qed.
End clean_url.

(** ** [url_with_path] *)

Section url_with_path.
Implicit Types (url base : string).

Lemma manager_path_stripped_slash base : stripped "/" (base +:+ manager_path).
Proof. apply stripped_app; [done|]. by intros c [= <-]. Qed.

Lemma url_with_path_plain url :
  endswith (rstrip "/" url) manager_path = false →
  url_with_path url = rstrip "/" url +:+ manager_path.
Proof. unfold url_with_path. by intros ->. Qed.

Lemma url_with_path_manager url :
  endswith (rstrip "/" url) manager_path = true → url_with_path url = url.
Proof. unfold url_with_path. by intros ->. Qed.

(** Up to trailing slashes the result ends with the manager path. *)
Theorem url_with_path_ends url :
  endswith (rstrip "/" (url_with_path url)) manager_path = true.
Proof.
  destruct (endswith (rstrip "/" url) manager_path) eqn:E.
  - by rewrite url_with_path_manager.
  - rewrite url_with_path_plain by done.
    rewrite rstrip_fixed by apply manager_path_stripped_slash.
    apply endswith_app.
Qed.

(** C38. Normalising twice is normalising once. *)
Theorem url_with_path_idem url :
  url_with_path (url_with_path url) = url_with_path url.
Proof. apply url_with_path_manager, url_with_path_ends. Qed.

(** The manager path is appended at most once. *)
Theorem url_with_path_once base :
  stripped "/" base → endswith base manager_path = false →
  url_with_path base = base +:+ manager_path ∧
  url_with_path (base +:+ manager_path) = base +:+ manager_path.
Proof.
  intros Hb He. split.
  - rewrite url_with_path_plain; rewrite (rstrip_fixed "/" base); done.
  - apply url_with_path_manager.
    rewrite rstrip_fixed by apply manager_path_stripped_slash. apply endswith_app.
Qed.

(** What [deploy_godzilla_war] gets by cleaning the normalised URL is what
    cleaning the original URL gives. *)
Theorem clean_url_with_path url : clean_url (url_with_path url) = clean_url url.
Proof.
  destruct (endswith (rstrip "/" url) manager_path) eqn:E.
  - by rewrite url_with_path_manager.
  - rewrite url_with_path_plain by done. unfold clean_url.
    rewrite rstrip_app_all_in by apply manager_path_all_in.
    apply clean_url_rstrip_slash.
Qed.
End url_with_path.

(** ** [target_host] *)

Section target_host.
Implicit Types (url scheme host path : string).

Lemma first_split_slash host path :
  in_chars "/" host = false → first (split "/" (host +:+ "/" +:+ path)) = host.
Proof. intros H. by rewrite split_prefix. Qed.

Lemma final_cons x (l : list string) : l ≠ [] → final (x :: l) = final l.
Proof. by destruct l. Qed.

Lemma final_split_scheme scheme rest :
  in_chars ":" scheme = false → contains "://" rest = false →
  final (split "://" (scheme +:+ "://" +:+ rest)) = rest.
Proof.
  intros Hs Hr. rewrite split_prefix by done.
  rewrite final_cons by apply split_nonempty. by rewrite split_absent.
Qed.

(** A URL with a path: the host (with its port) is what stands between the
    scheme separator and the first slash after it. *)
Theorem target_host_path scheme host path :
  in_chars ":" scheme = false → in_chars "/" host = false →
  contains "://" (host +:+ "/" +:+ path) = false →
  target_host (scheme +:+ "://" +:+ host +:+ "/" +:+ path) = host.
Proof.
  intros Hs Hh Hp. unfold target_host.
  rewrite final_split_scheme by done. by apply first_split_slash.
Qed.

(** A URL without a path. *)
Theorem target_host_bare scheme host :
  in_chars ":" scheme = false → contains "/" host = false →
  target_host (scheme +:+ "://" +:+ host) = host.
Proof.
  intros Hs Hh. unfold target_host. rewrite final_split_scheme; [|done|].
  - by rewrite split_absent.
  - destruct (contains "://" host) eqn:E; [|done].
    apply contains_spec in E as (p & q & ->).
    enough (contains "/" (p +:+ "://" +:+ q) = true) by congruence.
    replace (p +:+ "://" +:+ q) with ((p +:+ ":") +:+ "/" +:+ ("/" +:+ q))
      by by rewrite !sapp_assoc.
    apply contains_app.
Qed.
End target_host.

(** ** The theorems at concrete URLs *)

Lemma clean_url_manager_witness :
  clean_url ("http://10.0.0.2:8080" +:+ manager_path +:+ "//") = "http://10.0.0.2:8080".
Proof.
  apply (clean_url_manager "http://10.0.0.2:8080" "//"); [|reflexivity].
  intros c [= <-]. reflexivity.
Defined.

Lemma clean_url_overstrips_witness :
  clean_url ("http://example.co" +:+ "m" +:+ manager_path) = clean_url "http://example.co" ∧
  clean_url ("http://example.co" +:+ "m" +:+ manager_path) ≠ "http://example.co" +:+ "m".
Proof. apply (clean_url_overstrips "http://example.co" "m"). reflexivity. Defined.

Lemma clean_url_refines_witness :
  clean_url "http://10.0.0.2:8080/manager/html" =
  clean_url_spec "http://10.0.0.2:8080/manager/html".
Proof.
  apply (clean_url_refines "http://10.0.0.2:8080/manager/html").
  intros c [= <-]. reflexivity.
Defined.

Lemma url_with_path_once_witness :
  url_with_path "http://10.0.0.2:8080" = "http://10.0.0.2:8080" +:+ manager_path ∧
  url_with_path ("http://10.0.0.2:8080" +:+ manager_path) =
    "http://10.0.0.2:8080" +:+ manager_path.
Proof.
  apply (url_with_path_once "http://10.0.0.2:8080"); [|reflexivity].
  intros c [= <-]. reflexivity.
Defined.

Lemma target_host_path_witness :
  target_host ("http" +:+ "://" +:+ "10.0.0.1:8080" +:+ "/" +:+ "manager/html")
    = "10.0.0.1:8080".
Proof. apply (target_host_path "http" "10.0.0.1:8080" "manager/html"); reflexivity. Defined.

Lemma target_host_bare_witness :
  target_host ("http" +:+ "://" +:+ "10.0.0.1:8080") = "10.0.0.1:8080".
Proof. apply (target_host_bare "http" "10.0.0.1:8080"); reflexivity. Defined.

(** The documented example of the defect: the host name loses its last
    letter. *)
Example clean_url_example_com :
  clean_url "http://example.com/manager/html" = "http://example.co".
Proof. reflexivity. Qed.

(** A trailing slash after the manager path survives normalisation, so the
    probe URL of the sweep ends in a slash. *)
Example url_with_path_trailing_slash :
  url_with_path "http://10.0.0.2:8080/manager/html/" = "http://10.0.0.2:8080/manager/html/".
Proof. reflexivity. Qed.

(** The last scheme separator wins: a URL carried in the query becomes the
    reported host. *)
Example target_host_nested :
  target_host "http://10.0.0.1:8080/r?u=http://evil/x" = "evil".
Proof. reflexivity. Qed.
