(* ===== verification/Pool.v ===== *)
(** * Pool: sizing the worker pool

    [adjust_thread_pool_size] (src/TomcatScan.py, lines 306-327) and the
    combination count [main] passes to it (line 604).  The function is pure
    but for one log line; integers are unbounded, as in Python. *)

From S2P Require Import Prelude.

(** ** Definitions *)

(** [len(urls) * len(usernames) * len(passwords)] *)
Definition combination_count {A B C} (urls : list A) (usernames : list B)
    (passwords : list C) : Z :=
  Z.of_nat (length urls) * Z.of_nat (length usernames) * Z.of_nat (length passwords).

(** [[
    if combination_count <= 0:
        return min_workers
    calculated_workers = max((combination_count + combination_per_thread - 1)
                             // combination_per_thread, min_workers)
    workers = min(calculated_workers, max_workers_limit)
    return workers
]]
    [//] raises [ZeroDivisionError] on a zero divisor. *)
Definition adjust_thread_pool_size
    (combination_count max_workers_limit min_workers combination_per_thread : Z)
  : result Z :=
  if decide (combination_count ≤ 0) then Ok min_workers
  else if decide (combination_per_thread = 0) then Raise ZeroDivisionError
  else
    let calculated_workers :=
      Z.max ((combination_count + combination_per_thread - 1) / combination_per_thread)
            min_workers in
    let workers := Z.min calculated_workers max_workers_limit in
    Ok workers.

(** The contract: the number of threads needed at [k] combinations a thread,
    kept between [lo] and [hi]. *)
Definition clamp (lo hi x : Z) : Z := Z.min (Z.max x lo) hi.

Definition pool_size_spec (c hi lo k : Z) (w : Z) : Prop :=
  if decide (c ≤ 0) then w = lo
  else ∃ q, (q - 1) * k < c ≤ q * k ∧ w = clamp lo hi q.

(** ** Theorems *)

Section pool.
Implicit Types (c hi lo k w : Z).

Lemma adjust_nonpositive c hi lo k :
  c ≤ 0 → adjust_thread_pool_size c hi lo k = Ok lo.
Proof. intros. unfold adjust_thread_pool_size. by rewrite decide_True. Qed.

Lemma adjust_positive c hi lo k :
  0 < c → k ≠ 0 →
  adjust_thread_pool_size c hi lo k = Ok (clamp lo hi ((c + k - 1) / k)).
Proof.
  intros. unfold adjust_thread_pool_size.
  rewrite decide_False by lia. by rewrite decide_False.
Qed.

(** C36. A zero [combination_per_thread] with work to do is a division by zero. *)
Theorem adjust_zero_division c hi lo :
  0 < c → adjust_thread_pool_size c hi lo 0 = Raise ZeroDivisionError.
Proof.
  intros. unfold adjust_thread_pool_size.
  rewrite decide_False by lia. by rewrite decide_True.
Qed.

(** With a positive [combination_per_thread] the function returns. *)
Theorem adjust_total c hi lo k :
  0 < k → ∃ w, adjust_thread_pool_size c hi lo k = Ok w.
Proof.
  intros. destruct (decide (c ≤ 0)).
  - rewrite adjust_nonpositive by done. eauto.
  - rewrite adjust_positive by lia. eauto.
Qed.

(** C34. The function implements its contract. *)
Theorem adjust_refines c hi lo k :
  0 < k → ∃ w, adjust_thread_pool_size c hi lo k = Ok w ∧ pool_size_spec c hi lo k w.
Proof.
  intros Hk. unfold pool_size_spec. case_decide.
  - rewrite adjust_nonpositive by done. eauto.
  - rewrite adjust_positive by lia. eexists; split; [done|].
    exists ((c + k - 1) / k). split; [|done]. by apply ceil_div_spec.
Qed.

(** The contract determines the result. *)
Theorem pool_size_spec_unique c hi lo k w w' :
  0 < k → pool_size_spec c hi lo k w → pool_size_spec c hi lo k w' → w = w'.
Proof.
  unfold pool_size_spec. intros Hk. case_decide; [congruence|].
  intros (q & Hq & ->) (q' & Hq' & ->). f_equal. nia.
Qed.

(** C35. With [lo ≤ hi] the result lies in [[lo, hi]], whatever the load. *)
Theorem adjust_bounds c hi lo k w :
  lo ≤ hi → adjust_thread_pool_size c hi lo k = Ok w → lo ≤ w ≤ hi.
Proof.
  intros Hlh. unfold adjust_thread_pool_size, clamp.
  repeat case_decide; intros [= <-]; lia.
Qed.

(** With work to do the limit holds even when the configuration has
    [hi < lo]. *)
Theorem adjust_capped c hi lo k w :
  0 < c → adjust_thread_pool_size c hi lo k = Ok w → w ≤ hi.
Proof.
  intros Hc. unfold adjust_thread_pool_size.
  repeat case_decide; intros [= <-]; lia.
Qed.

(** With no work the limit is not applied: [min_workers] is returned as it
    is, above [max_workers_limit] when the configuration has it so. *)
Theorem adjust_uncapped c hi lo k :
  c ≤ 0 → hi < lo → ∃ w, adjust_thread_pool_size c hi lo k = Ok w ∧ hi < w.
Proof. intros. rewrite adjust_nonpositive by done. eauto. Qed.

(** More combinations never mean fewer workers, in a configuration with
    [lo ≤ hi]. *)
Theorem adjust_monotone c c' hi lo k w w' :
  0 < k → lo ≤ hi → c ≤ c' →
  adjust_thread_pool_size c hi lo k = Ok w →
  adjust_thread_pool_size c' hi lo k = Ok w' → w ≤ w'.
Proof.
  intros Hk Hlh Hcc. destruct (decide (c' ≤ 0)).
  - rewrite !adjust_nonpositive by lia. intros [= <-] [= <-]. lia.
  - rewrite (adjust_positive c') by lia. intros Hw [= <-]. unfold clamp.
    destruct (decide (c ≤ 0)).
    + rewrite adjust_nonpositive in Hw by done. injection Hw as <-. lia.
    + rewrite adjust_positive in Hw by lia. injection Hw as <-. unfold clamp.
      pose proof (Z.div_le_mono (c + k - 1) (c' + k - 1) k). lia.
Qed.

(** One worker per [k] combinations until the limit is reached. *)
Theorem adjust_exact q hi lo k :
  0 < k → 0 < q → lo ≤ q ≤ hi →
  adjust_thread_pool_size (q * k) hi lo k = Ok q.
Proof.
  intros. rewrite adjust_positive by nia. rewrite ceil_div_exact by done.
  unfold clamp. f_equal. lia.
Qed.

(** The count [main] computes is never negative, and zero exactly when one
    of the three lists is empty. *)
(** The only exception of the sizing is the division by zero. *)
Lemma adjust_raises c hi lo k e :
  adjust_thread_pool_size c hi lo k = Raise e → e = ZeroDivisionError.
Proof. unfold adjust_thread_pool_size. repeat case_decide; naive_solver. Qed.

Lemma combination_count_nonneg {A B C} (us : list A) (ns : list B) (ps : list C) :
  0 ≤ combination_count us ns ps.
Proof. unfold combination_count. nia. Qed.

Lemma combination_count_zero {A B C} (us : list A) (ns : list B) (ps : list C) :
  combination_count us ns ps = 0 ↔ us = [] ∨ ns = [] ∨ ps = [].
Proof.
  unfold combination_count. rewrite !Z.mul_eq_0.
  destruct us, ns, ps; simpl; naive_solver lia.
Qed.

(** With an empty list the pool has [min_workers] threads. *)
Theorem adjust_empty_input {A B C} (us : list A) (ns : list B) (ps : list C) hi lo k :
  us = [] ∨ ns = [] ∨ ps = [] →
  adjust_thread_pool_size (combination_count us ns ps) hi lo k = Ok lo.
Proof. intros H%combination_count_zero. apply adjust_nonpositive. lia. Qed.
End pool.

(** ** The theorems at concrete configurations *)

Lemma adjust_zero_division_witness :
  adjust_thread_pool_size 6 10 1 0 = Raise ZeroDivisionError.
Proof. apply (adjust_zero_division 6 10 1). lia. Defined.

Lemma adjust_total_witness : ∃ w, adjust_thread_pool_size 1001 10 1 200 = Ok w.
Proof. apply (adjust_total 1001 10 1 200). lia. Defined.

Lemma adjust_refines_witness :
  ∃ w, adjust_thread_pool_size 1001 10 1 200 = Ok w ∧ pool_size_spec 1001 10 1 200 w.
Proof. apply (adjust_refines 1001 10 1 200). lia. Defined.

Lemma pool_size_spec_unique_witness : 6 = 6.
Proof.
  apply (pool_size_spec_unique 1001 10 1 200 6 6); [lia| |];
    (exists 6; split; [lia|reflexivity]).
Defined.

Lemma adjust_bounds_witness : 1 ≤ 6 ≤ 10.
Proof. apply (adjust_bounds 1001 10 1 200 6); [lia|reflexivity]. Defined.

Lemma adjust_capped_witness : 10 ≤ 10.
Proof. apply (adjust_capped 100000 10 50 200 10); [lia|reflexivity]. Defined.

Lemma adjust_uncapped_witness : ∃ w, adjust_thread_pool_size 0 10 50 200 = Ok w ∧ 10 < w.
Proof. apply (adjust_uncapped 0 10 50 200); lia. Defined.

Lemma adjust_monotone_witness : 2 ≤ 6.
Proof. apply (adjust_monotone 201 1001 10 1 200 2 6); (lia || reflexivity). Defined.

Lemma adjust_exact_witness : adjust_thread_pool_size (3 * 200) 10 1 200 = Ok 3.
Proof. apply (adjust_exact 3 10 1 200); lia. Defined.

Lemma adjust_empty_input_witness :
  adjust_thread_pool_size (combination_count (@nil string) ["tomcat"] ["tomcat"]) 10 1 200
    = Ok 1.
Proof. apply (adjust_empty_input (@nil string) ["tomcat"] ["tomcat"] 10 1 200). by left. Defined.
