(* ===== verification/PyStruct.v ===== *)
(** * PyStruct: bytes, [str.encode], [io.BytesIO] and the [struct] module

    The part of Python's byte-level library the AJP codec of the scanner
    calls: UTF-8 encoding of a [str], reading from an [io.BytesIO], and
    [struct.calcsize], [struct.pack] and [struct.unpack] for the format
    codes [b], [B], [h], [H] and [<n>s] in standard size and big-endian
    order.  A format is a list of codes; the text of a format string is not
    modelled.  Every failure the library signals with [struct.error] is
    [Raise StructError]. *)

From coqutil Require Import Byte.
From S2P Require Import Prelude PyStr.

(** ** Definitions *)

Abbreviation bytes := (list byte).

#[export] Instance byte_eq_dec : EqDecision byte.
Proof. intros x y. destruct (Byte.byte_eq_dec x y); [by left|by right]. Defined.

(** *** [str.encode('utf8')] *)

(** The code point of a character. *)
Definition ord (c : ascii) : Z := Z.of_nat (nat_of_ascii c).

(** UTF-8 of one code point below U+0100: one byte below U+0080, two from
    there on. *)
Definition encode_char (c : ascii) : bytes :=
  let n := ord c in
  if decide (n < 128) then [byte.of_Z n]
  else [byte.of_Z (192 + n / 64); byte.of_Z (128 + n mod 64)].

Fixpoint encode_utf8 (s : string) : bytes :=
  match s with
  | "" => []
  | String c r => encode_char c ++ encode_utf8 r
  end.

(** Every character is below U+0080. *)
Fixpoint is_ascii (s : string) : bool :=
  match s with
  | "" => true
  | String c r => bool_decide (ord c < 128) && is_ascii r
  end.

(** *** [io.BytesIO] *)

(** A stream is what remains to be read. *)
Definition stream : Type := bytes.

(** A computation that reads from the stream and returns or raises. *)
Definition io (A : Type) : Type := stream → result A * stream.

#[export] Instance io_ret : MRet io := λ A a st, (Ok a, st).
#[export] Instance io_bind : MBind io := λ A B f m st,
  match m st with
  | (Ok a, st') => f a st'
  | (Raise e, st') => (Raise e, st')
  end.

(** A pure result as a computation that reads nothing. *)
Definition lift {A} (r : result A) : io A := λ st, (r, st).

(** [stream.read(n)]: at most [n] bytes, fewer at the end of the stream. *)
Definition read (n : nat) : io bytes := λ st, (Ok (take n st), drop n st).

(** *** [struct] *)

Inductive fmt_code : Type :=
  | fmt_b            (* signed char *)
  | fmt_B            (* unsigned char *)
  | fmt_h            (* short, big-endian *)
  | fmt_H            (* unsigned short, big-endian *)
  | fmt_s (n : nat). (* char[n] *)

#[export] Instance fmt_code_eq_dec : EqDecision fmt_code.
Proof. solve_decision. Defined.

(** What [struct_pack] takes and [struct_unpack] returns for one code. *)
Inductive pyval : Type :=
  | VInt (z : Z)
  | VBytes (b : bytes).

#[export] Instance pyval_eq_dec : EqDecision pyval.
Proof. solve_decision. Defined.

Definition code_size (c : fmt_code) : nat :=
  match c with
  | fmt_b | fmt_B => 1
  | fmt_h | fmt_H => 2
  | fmt_s n => n
  end.

(** [struct.calcsize(fmt)] *)
Definition calcsize (fmt : list fmt_code) : nat := sum_list (code_size <$> fmt).

(** Two bytes, most significant first, of the low 16 bits of [z]. *)
Definition be16 (z : Z) : bytes := [byte.of_Z (z / 256); byte.of_Z z].

(** The signed reading of one byte. *)
Definition s8 (x : byte) : Z :=
  let u := byte.unsigned x in if decide (u < 128) then u else u - 256.

(** The unsigned and the signed reading of two bytes. *)
Definition u16 (hi lo : byte) : Z := 256 * byte.unsigned hi + byte.unsigned lo.
Definition s16 (hi lo : byte) : Z :=
  let u := u16 hi lo in if decide (u < 32768) then u else u - 65536.

(** The range check [struct_pack] makes on an integer. *)
Definition in_range (lo hi z : Z) : bool := bool_decide (lo ≤ z ≤ hi).

Definition pack_code (c : fmt_code) (v : pyval) : result bytes :=
  match c, v with
  | fmt_b, VInt z => if in_range (-128) 127 z then Ok [byte.of_Z z] else Raise StructError
  | fmt_B, VInt z => if in_range 0 255 z then Ok [byte.of_Z z] else Raise StructError
  | fmt_h, VInt z => if in_range (-32768) 32767 z then Ok (be16 z) else Raise StructError
  | fmt_H, VInt z => if in_range 0 65535 z then Ok (be16 z) else Raise StructError
  | fmt_s n, VBytes b => Ok (resize n Byte.x00 b)
  | _, _ => Raise StructError
  end.

(** [struct.pack(fmt, *vals)] *)
Fixpoint struct_pack (fmt : list fmt_code) (vals : list pyval) : result bytes :=
  match fmt, vals with
  | [], [] => Ok []
  | c :: fmt', v :: vals' =>
      b ← pack_code c v; bs ← struct_pack fmt' vals'; mret (b ++ bs)
  | _, _ => Raise StructError
  end.

(** One code read from a buffer that is long enough. *)
Definition unpack_code (c : fmt_code) (buf : bytes) : pyval :=
  match c, buf with
  | fmt_b, x :: _ => VInt (s8 x)
  | fmt_B, x :: _ => VInt (byte.unsigned x)
  | fmt_h, hi :: lo :: _ => VInt (s16 hi lo)
  | fmt_H, hi :: lo :: _ => VInt (u16 hi lo)
  | fmt_s n, _ => VBytes (take n buf)
  | _, _ => VInt 0
  end.

Fixpoint unpack_go (fmt : list fmt_code) (buf : bytes) : list pyval :=
  match fmt with
  | [] => []
  | c :: fmt' => unpack_code c buf :: unpack_go fmt' (drop (code_size c) buf)
  end.

(** [struct.unpack(fmt, buf)]: the buffer must have the size of the format. *)
Definition struct_unpack (fmt : list fmt_code) (buf : bytes) : result (list pyval) :=
  if decide (length buf = calcsize fmt) then Ok (unpack_go fmt buf)
  else Raise StructError.

(** What [struct_unpack] returns for a value [struct_pack] accepted: a bytes value comes
    back cut or padded to the width of its code. *)
Definition packed_val (c : fmt_code) (v : pyval) : pyval :=
  match c, v with
  | fmt_s n, VBytes b => VBytes (resize n Byte.x00 b)
  | _, _ => v
  end.

(** ** Bytes and 16-bit integers *)

Section integers16.
Implicit Types (z : Z) (x hi lo : byte).

Lemma unsigned_of_Z_small z : 0 ≤ z < 256 → byte.unsigned (byte.of_Z z) = z.
Proof. intros. rewrite byte.unsigned_of_Z. unfold byte.wrap. by apply Z.mod_small. Qed.

Lemma unsigned_of_Z_mod z : byte.unsigned (byte.of_Z z) = z mod 256.
Proof. apply byte.unsigned_of_Z. Qed.

Lemma u16_range hi lo : 0 ≤ u16 hi lo < 65536.
Proof.
  unfold u16. pose proof (byte.unsigned_range hi). pose proof (byte.unsigned_range lo). lia.
Qed.

Lemma s16_range hi lo : -32768 ≤ s16 hi lo ≤ 32767.
Proof. unfold s16. pose proof (u16_range hi lo). case_decide; lia. Qed.

(** Reading back the two bytes of [be16 z] gives [z] modulo 2^16. *)
Lemma u16_be16 z : u16 (byte.of_Z (z / 256)) (byte.of_Z z) = z mod 65536.
Proof. unfold u16. rewrite !unsigned_of_Z_mod. zlia. Qed.

Lemma u16_be16_small z : 0 ≤ z ≤ 65535 → u16 (byte.of_Z (z / 256)) (byte.of_Z z) = z.
Proof. intros. rewrite u16_be16. apply Z.mod_small. lia. Qed.

Lemma s16_be16 z : -32768 ≤ z ≤ 32767 → s16 (byte.of_Z (z / 256)) (byte.of_Z z) = z.
Proof. intros. unfold s16. rewrite u16_be16. case_decide; zlia. Qed.

(** An unsigned short of 2^15 or more reads back negative as a short. *)
Lemma s16_be16_high z :
  32768 ≤ z ≤ 65535 → s16 (byte.of_Z (z / 256)) (byte.of_Z z) = z - 65536.
Proof. intros. unfold s16. rewrite u16_be16. case_decide; zlia. Qed.

Lemma s8_of_Z z : -128 ≤ z ≤ 127 → s8 (byte.of_Z z) = z.
Proof. intros. unfold s8. rewrite unsigned_of_Z_mod. case_decide; zlia. Qed.

Lemma in_range_true (a b z : Z) : in_range a b z = true ↔ a ≤ z ≤ b.
Proof. unfold in_range. apply bool_decide_eq_true. Qed.

Lemma in_range_false (a b z : Z) : in_range a b z = false ↔ ¬ (a ≤ z ≤ b).
Proof. unfold in_range. apply bool_decide_eq_false. Qed.
End integers16.

(** ** [encode_utf8] *)

Section utf8.
Implicit Types (s t : string) (c : ascii).

Lemma ord_range c : 0 ≤ ord c < 256.
Proof. unfold ord. pose proof (nat_ascii_bounded c). lia. Qed.

Lemma encode_utf8_app s t : encode_utf8 (s +:+ t) = encode_utf8 s ++ encode_utf8 t.
Proof.
  induction s as [|c s IH]; [done|].
  rewrite sapp_cons. simpl. by rewrite IH, (assoc (++)).
Qed.

Lemma length_encode_char c :
  length (encode_char c) = if decide (ord c < 128) then 1%nat else 2%nat.
Proof. unfold encode_char. by case_decide. Qed.

(** An encoding has at least one byte for each character. *)
Lemma length_encode_utf8_ge s : (String.length s ≤ length (encode_utf8 s))%nat.
Proof.
  induction s as [|c s IH]; [done|]. simpl.
  rewrite length_app, length_encode_char. case_decide; lia.
Qed.

(** It has exactly one for each exactly on ASCII strings. *)
Lemma length_encode_utf8_ascii s :
  is_ascii s = true ↔ length (encode_utf8 s) = String.length s.
Proof.
  induction s as [|c s IH]; [done|]. simpl.
  rewrite andb_true_iff, bool_decide_eq_true, IH, length_app, length_encode_char.
  pose proof (length_encode_utf8_ge s). case_decide; lia.
Qed.
End utf8.

(** ** [read] and the monad of streams *)

Section io.
Context {A B : Type}.
Implicit Types (m : io A) (f : A → io B) (st rest : stream) (b : bytes).

Lemma io_bind_Ok m f st a st' : m st = (Ok a, st') → (m ≫= f) st = f a st'.
Proof. unfold mbind, io_bind. by intros ->. Qed.

Lemma io_bind_Raise m f st e st' : m st = (Raise e, st') → (m ≫= f) st = (Raise e, st').
Proof. unfold mbind, io_bind. by intros ->. Qed.

Lemma read_app b rest : read (length b) (b ++ rest) = (Ok b, rest).
Proof. unfold read. by rewrite take_app_length, drop_app_length. Qed.

Lemma read_short n st : (length st ≤ n)%nat → read n st = (Ok st, []).
Proof. intros. unfold read. by rewrite take_ge, drop_ge. Qed.

Lemma read_length n st b st' :
  read n st = (Ok b, st') → length b = (n `min` length st)%nat ∧ st = b ++ st'.
Proof. intros [= <- <-]. by rewrite length_take, take_drop. Qed.
End io.

(** ** [struct_pack] and [struct_unpack] *)

Section struct.
Implicit Types (c : fmt_code) (fmt : list fmt_code) (v : pyval)
  (vals : list pyval) (b bs buf : bytes).

Lemma calcsize_cons c fmt : calcsize (c :: fmt) = (code_size c + calcsize fmt)%nat.
Proof. done. Qed.

Lemma struct_pack_cons c fmt v vals :
  struct_pack (c :: fmt) (v :: vals) =
    b ← pack_code c v; bs ← struct_pack fmt vals; mret (b ++ bs).
Proof. done. Qed.

Lemma struct_pack_cons_Ok c fmt v vals b bs :
  pack_code c v = Ok b → struct_pack fmt vals = Ok bs →
  struct_pack (c :: fmt) (v :: vals) = Ok (b ++ bs).
Proof. intros Hb Hbs. by rewrite struct_pack_cons, Hb, Hbs. Qed.

Lemma struct_pack_cons_inv c fmt v vals r :
  struct_pack (c :: fmt) (v :: vals) = Ok r →
  ∃ b bs, pack_code c v = Ok b ∧ struct_pack fmt vals = Ok bs ∧ r = b ++ bs.
Proof.
  rewrite struct_pack_cons. intros (b & Hb & (bs & Hbs & [= <-])%result_bind_Ok_inv)%result_bind_Ok_inv.
  eauto.
Qed.

(** One packed code has the size of its code. *)
Lemma length_pack_code c v b : pack_code c v = Ok b → length b = code_size c.
Proof.
  destruct c, v; simpl; try done; try (case_match; [|done]); intros [= <-];
    by rewrite ?length_resize.
Qed.

(** A packed buffer has the size [calcsize] computes. *)
Lemma length_struct_pack fmt vals r : struct_pack fmt vals = Ok r → length r = calcsize fmt.
Proof.
  revert vals r. induction fmt as [|c fmt IH]; intros [|v vals] r; try done.
  - by intros [= <-].
  - intros (b & bs & Hb & Hbs & ->)%struct_pack_cons_inv.
    rewrite length_app, calcsize_cons, (length_pack_code c v b), (IH vals bs); done.
Qed.

(** Reading a code back from its packed bytes. *)
Lemma unpack_pack_code c v b rest :
  pack_code c v = Ok b → unpack_code c (b ++ rest) = packed_val c v.
Proof.
  destruct c, v; simpl; try done; try (case_match eqn:E; [|done]);
    try apply in_range_true in E; intros [= <-]; simpl.
  - by rewrite s8_of_Z.
  - by rewrite unsigned_of_Z_small by lia.
  - by rewrite s16_be16.
  - by rewrite u16_be16_small.
  - by rewrite take_app_length' by by rewrite length_resize.
Qed.

Lemma unpack_go_pack fmt vals r :
  struct_pack fmt vals = Ok r → unpack_go fmt r = zip_with packed_val fmt vals.
Proof.
  revert vals r. induction fmt as [|c fmt IH]; intros [|v vals] r; try done.
  intros (b & bs & Hb & Hbs & ->)%struct_pack_cons_inv. simpl.
  rewrite (unpack_pack_code c v b bs Hb). f_equal.
  rewrite drop_app_length' by (symmetry; by eapply length_pack_code). by apply IH.
Qed.

(** Round trip: [struct_unpack] after [struct_pack] returns the packed values. *)
Theorem struct_unpack_pack fmt vals r :
  struct_pack fmt vals = Ok r → struct_unpack fmt r = Ok (zip_with packed_val fmt vals).
Proof.
  intros H. unfold struct_unpack. rewrite decide_True by by eapply length_struct_pack.
  f_equal. by apply unpack_go_pack.
Qed.

(** [struct_unpack] refuses a buffer of another size. *)
Lemma struct_unpack_wrong_size fmt buf :
  length buf ≠ calcsize fmt → struct_unpack fmt buf = Raise StructError.
Proof. intros. unfold struct_unpack. by rewrite decide_False. Qed.

Lemma struct_unpack_Ok_length fmt buf vals :
  struct_unpack fmt buf = Ok vals → length buf = calcsize fmt ∧ length vals = length fmt.
Proof.
  unfold struct_unpack. case_decide; [|done]. intros [= <-]. split; [done|].
  clear. revert buf. induction fmt; intros buf; simpl; by f_equal.
Qed.
End struct.
