(* ===== verification/Ajp.v ===== *)
(** * Ajp: the AJP13 string codec and the forward request

    [pack_string] (src/TomcatScan.py, lines 358-371), [unpack] (374-387),
    [unpack_string] (390-405) and [prepare_ajp_forward_request] (408-463).
    A string on the wire is a two-byte big-endian length, the bytes, and a
    zero byte; the length -1 alone stands for [None].  The encoder writes the
    length with the unsigned code [H] and the decoder reads it with the
    signed code [h]: the theorems say where the two agree. *)

From coqutil Require Import Byte.
From S2P Require Import Prelude PyStr PyStruct.

(** ** Definitions *)

(** [[
    if s is None:
        return struct.pack(">h", -1)
    l = len(s)
    return struct.pack(">H%dsb" % l, l, s.encode('utf8'), 0)
]] *)
Definition pack_string (s : option string) : result bytes :=
  match s with
  | None => struct_pack [fmt_h] [VInt (-1)]
  | Some s =>
      let l := len s in
      struct_pack [fmt_H; fmt_s (Z.to_nat l); fmt_b]
                  [VInt l; VBytes (encode_utf8 s); VInt 0]
  end.

(** The format ["%ds" % size]: a negative count is no format, and
    [struct.calcsize] raises on it. *)
Definition fmt_of_size (size : Z) : result (list fmt_code) :=
  if decide (0 ≤ size) then Ok [fmt_s (Z.to_nat size)] else Raise StructError.

(** [[
    size = struct.calcsize(fmt)
    buf = stream.read(size)
    return struct.unpack(fmt, buf)
]] *)
Definition unpack (fmt : result (list fmt_code)) : io (list pyval) :=
  fmt ← lift fmt;
  let size := calcsize fmt in
  buf ← read size;
  lift (struct_unpack fmt buf).

(** [[
    size, = unpack(stream, ">h")
    if size == -1:  # null string
        return None
    res, = unpack(stream, "%ds" % size)
    stream.read(1)  # \0
    return res
]]
    A target list of one name raises [ValueError] on a tuple of another
    length. *)
Definition unpack_string : io (option bytes) :=
  vals ← unpack (Ok [fmt_h]);
  match vals with
  | [VInt size] =>
      if decide (size = -1) then mret None
      else
        vals ← unpack (fmt_of_size size);
        match vals with
        | [VBytes res] => _ ← read 1; mret (Some res)
        | _ => lift (Raise ValueError)
        end
  | _ => lift (Raise ValueError)
  end.

(** The request methods and directions [AjpForwardRequest] names. *)
Inductive ajp_method : Type :=
  | OPTIONS | GET | HEAD | POST | PUT | DELETE | TRACE.

Inductive ajp_direction : Type :=
  | SERVER_TO_CONTAINER | CONTAINER_TO_SERVER.

(** One entry of [fr.attributes]: [{'name': ..., 'value': [...]}]; a value
    may be [None]. *)
Record attribute : Type := Attribute {
  attr_name : string;
  attr_value : list (option string);
}.

(** The fields [prepare_ajp_forward_request] sets.  [request_headers] is a
    dict literal: its items in insertion order. *)
Record AjpForwardRequest : Type := {
  data_direction : ajp_direction;
  method : ajp_method;
  protocol : string;
  req_uri : string;
  remote_addr : string;
  remote_host : option string;
  server_name : string;
  server_port : Z;
  request_headers : list (string * string);
  is_ssl : bool;
  attributes : list attribute;
}.

Definition prepare_ajp_forward_request (target_host req_uri : string)
    (method : ajp_method) : AjpForwardRequest := {|
  data_direction := SERVER_TO_CONTAINER;
  method := method;
  protocol := "HTTP/1.1";
  req_uri := req_uri;
  remote_addr := target_host;
  remote_host := None;
  server_name := target_host;
  server_port := 80;
  request_headers := [
    ("SC_REQ_ACCEPT", "text/html");
    ("SC_REQ_CONNECTION", "keep-alive");
    ("SC_REQ_CONTENT_LENGTH", "0");
    ("SC_REQ_HOST", target_host);
    ("SC_REQ_USER_AGENT", "Mozilla");
    ("Accept-Encoding", "gzip, deflate, sdch");
    ("Accept-Language", "en-US,en;q=0.5");
    ("Upgrade-Insecure-Requests", "1");
    ("Cache-Control", "max-age=0")
  ];
  is_ssl := false;
  attributes := [];
|}.

(** What the wire format promises for a string: the value the decoder is to
    return, [None] for the null string. *)
Definition wire_value (s : option string) : option bytes := encode_utf8 <$> s.

(** The decoder written directly on the bytes: the reference definition. *)
Definition unpack_string_spec (st : stream) : result (option bytes) * stream :=
  match st with
  | hi :: lo :: body =>
      let size := s16 hi lo in
      if decide (size = -1) then (Ok None, body)
      else if decide (size < 0) then (Raise StructError, body)
      else
        let n := Z.to_nat size in
        if decide (length body < n)%nat then (Raise StructError, [])
        else (Ok (Some (take n body)), drop (S n) body)
  | _ => (Raise StructError, [])
  end.

(** ** [unpack] *)

Section unpack.
Implicit Types (fmt : list fmt_code) (st rest : stream) (b : bytes)
  (vals : list pyval).

(** [unpack] reads the size of the format, whatever the stream holds, and
    hands what it got to [struct.unpack]. *)
Lemma unpack_Ok fmt st :
  unpack (Ok fmt) st =
    (struct_unpack fmt (take (calcsize fmt) st), drop (calcsize fmt) st).
Proof. done. Qed.

(** A bad format raises before the stream is touched. *)
Lemma unpack_Raise e st : unpack (Raise e) st = (Raise e, st).
Proof. done. Qed.

Lemma unpack_app fmt b vals rest :
  struct_unpack fmt b = Ok vals → unpack (Ok fmt) (b ++ rest) = (Ok vals, rest).
Proof.
  intros H. destruct (struct_unpack_Ok_length _ _ _ H) as [Hlen _].
  by rewrite unpack_Ok, <-Hlen, take_app_length, drop_app_length, H.
Qed.

(** A stream that ends early is an error, and is left empty. *)
Lemma unpack_short fmt st :
  (length st < calcsize fmt)%nat → unpack (Ok fmt) st = (Raise StructError, []).
Proof.
  intros H. rewrite unpack_Ok, take_ge, drop_ge by lia.
  by rewrite struct_unpack_wrong_size by lia.
Qed.

Lemma unpack_short_header hi lo body :
  unpack (Ok [fmt_h]) (hi :: lo :: body) = (Ok [VInt (s16 hi lo)], body).
Proof. done. Qed.

Lemma unpack_bytes n st :
  (n ≤ length st)%nat →
  unpack (Ok [fmt_s n]) st = (Ok [VBytes (take n st)], drop n st).
Proof.
  intros H. rewrite unpack_Ok. replace (calcsize [fmt_s n]) with n by (cbn; lia).
  unfold struct_unpack. rewrite decide_True by (rewrite length_take; cbn; lia).
  simpl. by rewrite take_take, Nat.min_id.
Qed.
End unpack.

(** ** [unpack_string] against its reference definition *)

Section unpack_string.
Implicit Types (st rest body : stream) (hi lo : byte).

Lemma unpack_string_short st :
  (length st < 2)%nat → unpack_string st = (Raise StructError, []).
Proof.
  intros H. unfold unpack_string. by erewrite io_bind_Raise by by apply unpack_short.
Qed.

Lemma unpack_string_header hi lo body :
  unpack_string (hi :: lo :: body) =
    if decide (s16 hi lo = -1) then (Ok None, body)
    else ((vals ← unpack (fmt_of_size (s16 hi lo));
           match vals with
           | [VBytes res] => _ ← read 1; mret (Some res)
           | _ => lift (Raise ValueError)
           end) : io (option bytes)) body.
Proof.
  unfold unpack_string. erewrite io_bind_Ok by apply unpack_short_header.
  cbv beta iota. by case_decide.
Qed.

(** The decoder in closed form. *)
Lemma unpack_string_unfold st : unpack_string st = unpack_string_spec st.
Proof.
  destruct st as [|hi [|lo body]]; try by apply unpack_string_short; simpl; lia.
  rewrite unpack_string_header. unfold unpack_string_spec. cbv zeta.
  case_decide; [done|]. unfold fmt_of_size. destruct (decide (s16 hi lo < 0)).
  - rewrite (decide_False (P := 0 ≤ _)) by lia.
    by erewrite io_bind_Raise by apply unpack_Raise.
  - rewrite (decide_True (P := 0 ≤ _)) by lia. case_decide.
    + by erewrite io_bind_Raise by (apply unpack_short; cbn; lia).
    + erewrite io_bind_Ok by (apply unpack_bytes; lia). cbv beta iota.
      erewrite io_bind_Ok by done. by rewrite drop_drop, Nat.add_1_r.
Qed.

(** C8. The decoder computes its reference definition on every stream: the two
    reads, the sign test and the terminator it skips without a look. *)
Theorem unpack_string_correct st : unpack_string st = unpack_string_spec st.
Proof. apply unpack_string_unfold. Qed.
End unpack_string.

(** ** [pack_string] *)

(** The bytes of [s] that reach the wire: as many as [s] has characters. *)
Definition sent_bytes (s : string) : bytes := take (String.length s) (encode_utf8 s).

Section pack_string.
Implicit Types (s : string) (b rest : bytes).

Lemma length_sent_bytes s : length (sent_bytes s) = String.length s.
Proof. unfold sent_bytes. rewrite length_take. pose proof (length_encode_utf8_ge s). lia. Qed.

Lemma sent_bytes_ascii s : is_ascii s = true → sent_bytes s = encode_utf8 s.
Proof. intros H%length_encode_utf8_ascii. unfold sent_bytes. by rewrite <-H, firstn_all. Qed.

Lemma pack_string_None : pack_string None = Ok [Byte.xff; Byte.xff].
Proof. done. Qed.

(** The layout of an encoded string: length, data, terminator. *)
Lemma pack_string_Some s :
  len s ≤ 65535 →
  pack_string (Some s) = Ok (be16 (len s) ++ sent_bytes s ++ [Byte.x00]).
Proof.
  intros H. unfold pack_string. cbv zeta.
  assert (in_range 0 65535 (len s) = true) as Hr
    by (apply in_range_true; pose proof (len_nonneg s); lia).
  cbn [struct_pack pack_code mbind result_bind mret result_ret]. rewrite Hr.
  cbn [in_range]. rewrite resize_le; [|unfold len; rewrite Nat2Z.id; apply length_encode_utf8_ge].
  unfold len. rewrite Nat2Z.id. done.
Qed.

Lemma pack_string_Some_inv s b :
  len s ≤ 65535 → pack_string (Some s) = Ok b →
  b = be16 (len s) ++ sent_bytes s ++ [Byte.x00].
Proof. intros H Hb. rewrite pack_string_Some in Hb by done. congruence. Qed.

(** A string of more than 65535 characters is refused. *)
Theorem pack_string_too_long s :
  65535 < len s → pack_string (Some s) = Raise StructError.
Proof.
  intros H. unfold pack_string. cbv zeta.
  assert (in_range 0 65535 (len s) = false) as Hr by (apply in_range_false; lia).
  cbn [struct_pack pack_code mbind result_bind]. by rewrite Hr.
Qed.

(** An encoded string takes three bytes more than it has characters. *)
Theorem pack_string_length s b :
  pack_string (Some s) = Ok b → Z.of_nat (length b) = len s + 3.
Proof.
  destruct (decide (len s ≤ 65535)).
  - intros ->%pack_string_Some_inv; [|done].
    unfold be16. simpl. rewrite length_app, length_sent_bytes. unfold len. simpl. lia.
  - rewrite pack_string_too_long by lia. done.
Qed.
End pack_string.

(** ** Round trips *)

Section roundtrip.
Implicit Types (s : string) (b rest data : bytes) (n : Z).

(** Decoding a stream that starts with a length [n] below 2^15 and has the
    data and one more byte. *)
Lemma unpack_string_frame n data x rest :
  0 ≤ n ≤ 32767 → Z.of_nat (length data) = n →
  unpack_string (be16 n ++ data ++ [x] ++ rest) = (Ok (Some data), rest).
Proof.
  intros Hn Hd. rewrite unpack_string_unfold. unfold be16. simpl.
  rewrite s16_be16 by lia. rewrite decide_False, decide_False by lia.
  replace (Z.to_nat n) with (length data) by lia.
  rewrite decide_False by (rewrite length_app; simpl; lia).
  by rewrite take_app_length, <-Nat.add_1_r, <-drop_drop, drop_app_length.
Qed.

(** [None] comes back as [None]. *)
Theorem unpack_pack_string_None b rest :
  pack_string None = Ok b → unpack_string (b ++ rest) = (Ok None, rest).
Proof. by intros [= <-]. Qed.

(** A string below 2^15 characters decodes to the bytes that were sent. *)
Lemma unpack_pack_string_Some s b rest :
  len s ≤ 32767 → pack_string (Some s) = Ok b →
  unpack_string (b ++ rest) = (Ok (Some (sent_bytes s)), rest).
Proof.
  intros Hs ->%pack_string_Some_inv; [|lia].
  rewrite <-!(assoc (++)). apply unpack_string_frame; [pose proof (len_nonneg s); lia|].
  by rewrite length_sent_bytes.
Qed.

(** C3. Decoding what was encoded gives back the null string, or the bytes a
    string of at most 32767 characters sent, and leaves the stream right
    after the terminator. *)
Theorem unpack_pack_string (o : option string) b rest :
  (∀ s, o = Some s → len s ≤ 32767) → pack_string o = Ok b →
  unpack_string (b ++ rest) = (Ok (sent_bytes <$> o), rest).
Proof.
  destruct o as [s|]; intros Hs Hb; [by apply unpack_pack_string_Some; auto|].
  by injection Hb as <-.
Qed.

(** For an ASCII string that is the UTF-8 encoding the format promises. *)
Theorem unpack_pack_string_ascii s b rest :
  is_ascii s = true → len s ≤ 32767 → pack_string (Some s) = Ok b →
  unpack_string (b ++ rest) = (Ok (wire_value (Some s)), rest).
Proof.
  intros Ha Hs Hb. rewrite (unpack_pack_string_Some s) by done.
  by rewrite sent_bytes_ascii.
Qed.

(** C37. A string with a character above U+007F is cut short by [pack_string]:
    the data between the length and the terminator has as many bytes as
    the string has characters, and is a proper prefix of its UTF-8
    encoding. *)
Theorem pack_string_truncates s b :
  is_ascii s = false → pack_string (Some s) = Ok b →
  ∃ data, b = be16 (len s) ++ data ++ [Byte.x00] ∧
          Z.of_nat (length data) = len s ∧
          (length data < length (encode_utf8 s))%nat ∧
          data `prefix_of` encode_utf8 s.
Proof.
  intros Ha Hb. destruct (decide (len s ≤ 65535)) as [Hs|Hs];
    [|by rewrite pack_string_too_long in Hb by lia].
  apply pack_string_Some_inv in Hb as ->; [|done]. exists (sent_bytes s).
  rewrite length_sent_bytes. split_and!; [done..| |apply prefix_take].
  pose proof (length_encode_utf8_ge s).
  enough (length (encode_utf8 s) ≠ String.length s) by lia.
  intros Heq%length_encode_utf8_ascii. congruence.
Qed.

(** C18. From 32768 to 65534 characters the encoder accepts the string and the
    decoder raises: it reads the length as a negative number. *)
Theorem unpack_pack_string_high s b rest :
  32768 ≤ len s ≤ 65534 → pack_string (Some s) = Ok b →
  unpack_string (b ++ rest) = (Raise StructError, drop 2 (b ++ rest)).
Proof.
  intros Hs ->%pack_string_Some_inv; [|lia].
  rewrite unpack_string_unfold. unfold be16. simpl.
  rewrite s16_be16_high by lia. rewrite decide_False by lia. by rewrite decide_True by lia.
Qed.

(** At 65535 characters the length reads as -1 and the string comes back as
    [None], with its data left in the stream. *)
Theorem unpack_pack_string_65535 s b rest :
  len s = 65535 → pack_string (Some s) = Ok b →
  unpack_string (b ++ rest) = (Ok None, drop 2 (b ++ rest)).
Proof.
  intros Hs ->%pack_string_Some_inv; [|lia].
  rewrite unpack_string_unfold. unfold be16. simpl.
  rewrite s16_be16_high by lia. by rewrite decide_True by lia.
Qed.
End roundtrip.

(** ** The decoder on arbitrary streams *)

Section decoder.
Implicit Types (st rest data res : bytes) (n : Z).

(** [struct.error] is the only exception the decoder raises: the two
    [ValueError] branches of the tuple assignments are never taken. *)
Theorem unpack_string_raises st e :
  (unpack_string st).1 = Raise e → e = StructError.
Proof.
  rewrite unpack_string_unfold. unfold unpack_string_spec.
  repeat case_match; simpl; congruence.
Qed.

(** What is left of the stream is a suffix of it. *)
Theorem unpack_string_suffix st : (unpack_string st).2 `suffix_of` st.
Proof.
  rewrite unpack_string_unfold. unfold unpack_string_spec.
  repeat case_match; simpl; subst;
    try apply suffix_nil; try (do 2 apply suffix_cons_r); try done.
  apply suffix_drop.
Qed.

(** Every decoded string was framed: its length in the header, its bytes
    next, and one more byte unless the stream ended there. *)
Theorem unpack_string_sound st res st' :
  unpack_string st = (Ok (Some res), st') →
  ∃ hi lo t, st = hi :: lo :: res ++ t ++ st' ∧ s16 hi lo = Z.of_nat (length res)
    ∧ (length t ≤ 1)%nat ∧ (t = [] → st' = []).
Proof.
  rewrite unpack_string_unfold. unfold unpack_string_spec.
  destruct st as [|hi [|lo body]]; try done.
  repeat case_decide; try done. intros [= <- <-].
  set (k := Z.to_nat (s16 hi lo)) in *.
  exists hi, lo, (take 1 (drop k body)).
  replace (S k) with (k + 1)%nat by lia. rewrite <-drop_drop. split_and!.
  - by rewrite !take_drop.
  - rewrite length_take. lia.
  - rewrite length_take. lia.
  - by destruct (drop k body).
Qed.

(** A stream with fewer bytes than the header declares is refused. *)
Theorem unpack_string_truncated n data :
  0 ≤ n ≤ 32767 → Z.of_nat (length data) < n →
  unpack_string (be16 n ++ data) = (Raise StructError, []).
Proof.
  intros Hn Hd. rewrite unpack_string_unfold. unfold be16. simpl.
  rewrite s16_be16 by lia. rewrite decide_False, decide_False by lia.
  by rewrite decide_True by lia.
Qed.

(** A stream that ends before the terminator is accepted all the same. *)
Theorem unpack_string_no_terminator n data :
  0 ≤ n ≤ 32767 → Z.of_nat (length data) = n →
  unpack_string (be16 n ++ data) = (Ok (Some data), []).
Proof.
  intros Hn Hd. rewrite unpack_string_unfold. unfold be16. simpl.
  rewrite s16_be16 by lia. rewrite decide_False, decide_False by lia.
  rewrite decide_False by lia. by rewrite take_ge, drop_ge by lia.
Qed.
End decoder.

(** ** The forward request *)

Section forward_request.
Implicit Types (target_host req_uri : string) (m : ajp_method).

(** The header names of a prepared request are distinct, so the dict
    literal has nine entries. *)
Lemma prepared_request_headers_NoDup target_host req_uri m :
  NoDup (request_headers (prepare_ajp_forward_request target_host req_uri m)).*1.
Proof. simpl. apply (bool_decide_unpack _). by vm_compute. Qed.
End forward_request.

(** ** The theorems at concrete strings *)

Lemma pack_string_too_long_witness :
  pack_string (Some (str_mul "a" 65536)) = Raise StructError.
Proof. apply (pack_string_too_long (str_mul "a" 65536)). rewrite len_str_mul. lia. Defined.

Lemma pack_string_length_witness :
  Z.of_nat (length [Byte.x00; Byte.x02; Byte.x2f; Byte.x61; Byte.x00]) = len "/a" + 3.
Proof. apply (pack_string_length "/a"). reflexivity. Defined.

Lemma unpack_pack_string_None_witness :
  unpack_string ([Byte.xff; Byte.xff] ++ [Byte.x01]) = (Ok None, [Byte.x01]).
Proof. apply (unpack_pack_string_None [Byte.xff; Byte.xff] [Byte.x01]). reflexivity. Defined.

Lemma unpack_pack_string_witness :
  unpack_string ([Byte.x00; Byte.x02; Byte.x2f; Byte.x61; Byte.x00] ++ [Byte.x01])
    = (Ok (Some (sent_bytes "/a")), [Byte.x01]).
Proof.
  apply (unpack_pack_string (Some "/a") [Byte.x00; Byte.x02; Byte.x2f; Byte.x61; Byte.x00]);
    [intros s [= <-]; vm_compute; discriminate|reflexivity].
Defined.

Lemma unpack_pack_string_ascii_witness :
  unpack_string ([Byte.x00; Byte.x02; Byte.x2f; Byte.x61; Byte.x00] ++ [])
    = (Ok (wire_value (Some "/a")), []).
Proof.
  apply (unpack_pack_string_ascii "/a" [Byte.x00; Byte.x02; Byte.x2f; Byte.x61; Byte.x00]);
    [reflexivity|vm_compute; discriminate|reflexivity].
Defined.

(** U+00E9 followed by [x]: two characters, three bytes of UTF-8, two sent. *)
Lemma pack_string_truncates_witness :
  ∃ data, [Byte.x00; Byte.x02; Byte.xc3; Byte.xa9; Byte.x00]
          = be16 (len (String (ascii_of_nat 233) "x")) ++ data ++ [Byte.x00] ∧
          Z.of_nat (length data) = len (String (ascii_of_nat 233) "x") ∧
          (length data < length (encode_utf8 (String (ascii_of_nat 233) "x")))%nat ∧
          data `prefix_of` encode_utf8 (String (ascii_of_nat 233) "x").
Proof. by apply (pack_string_truncates (String (ascii_of_nat 233) "x")). Defined.

Lemma unpack_pack_string_high_witness :
  let s := str_mul "a" 32768 in
  let b := be16 (len s) ++ sent_bytes s ++ [Byte.x00] in
  unpack_string (b ++ []) = (Raise StructError, drop 2 (b ++ [])).
Proof.
  apply (unpack_pack_string_high (str_mul "a" 32768)).
  - rewrite len_str_mul. lia.
  - apply pack_string_Some. rewrite len_str_mul. lia.
Defined.

Lemma unpack_pack_string_65535_witness :
  let s := str_mul "a" 65535 in
  let b := be16 (len s) ++ sent_bytes s ++ [Byte.x00] in
  unpack_string (b ++ []) = (Ok None, drop 2 (b ++ [])).
Proof.
  apply (unpack_pack_string_65535 (str_mul "a" 65535)).
  - rewrite len_str_mul. lia.
  - apply pack_string_Some. rewrite len_str_mul. lia.
Defined.

Lemma unpack_string_raises_witness : StructError = StructError.
Proof. apply (unpack_string_raises [Byte.x00] StructError). reflexivity. Defined.

Lemma unpack_string_sound_witness :
  ∃ hi lo t, [Byte.x00; Byte.x01; Byte.x61; Byte.x00; Byte.x07]
             = hi :: lo :: [Byte.x61] ++ t ++ [Byte.x07]
    ∧ s16 hi lo = Z.of_nat (length [Byte.x61]) ∧ (length t ≤ 1)%nat
    ∧ (t = [] → [Byte.x07] = []).
Proof.
  apply (unpack_string_sound [Byte.x00; Byte.x01; Byte.x61; Byte.x00; Byte.x07]).
  reflexivity.
Defined.

Lemma unpack_string_truncated_witness :
  unpack_string (be16 3 ++ [Byte.x61]) = (Raise StructError, []).
Proof. apply (unpack_string_truncated 3 [Byte.x61]); simpl; lia. Defined.

Lemma unpack_string_no_terminator_witness :
  unpack_string (be16 1 ++ [Byte.x61]) = (Ok (Some [Byte.x61]), []).
Proof. apply (unpack_string_no_terminator 1 [Byte.x61]); simpl; lia. Defined.

