(* ===== verification/Config.v ===== *)
(** * Config: the configuration dictionary and its validation

    The value [yaml.safe_load] returns for [config.yaml], the dictionary
    operations the scanner applies to it ([d[k]], [d.get(k, default)],
    [k in d]) and [validate_config] (src/TomcatScan.py, lines 330-355).
    YAML sequences and floats do not occur in the configuration the source
    reads and are not modelled. *)

From stdpp Require Import gmap.
From S2P Require Import Prelude PyStr.

(** ** Definitions *)

#[local] Set Warnings "-register-all".

Inductive yaml : Type :=
  | YNone
  | YStr (s : string)
  | YInt (z : Z)
  | YMap (m : gmap string yaml).

(** [d[k]]: [KeyError] on a missing key, [TypeError] on what cannot be
    indexed by a string ([None], an integer; a string indexed by a string). *)
Definition getitem (d : yaml) (k : string) : result yaml :=
  match d with
  | YMap m => match m !! k with Some v => Ok v | None => Raise KeyError end
  | _ => Raise TypeError
  end.

(** [d.get(k, default)] on a dictionary; the other values have no [get],
    and the attribute lookup raises [AttributeError]. *)
Definition get (d : yaml) (k : string) (default : yaml) : result yaml :=
  match d with
  | YMap m => Ok (from_option id default (m !! k))
  | _ => Raise AttributeError
  end.

(** [k in d]: key membership on a dictionary, substring on a string,
    [TypeError] on [None] and on an integer. *)
Definition py_in (k : string) (d : yaml) : result bool :=
  match d with
  | YMap m => Ok (bool_decide (is_Some (m !! k)))
  | YStr s => Ok (contains k s)
  | _ => Raise TypeError
  end.

(** An integer where Python needs one to compare with an [int]
    ([attempt < max_retries]) or to compute ([//], [max], [min]): the other
    values raise [TypeError]. *)
Definition as_int (v : yaml) : result Z :=
  match v with YInt z => Ok z | _ => Raise TypeError end.

(** A string where Python needs a path. *)
Definition as_str (v : yaml) : result string :=
  match v with YStr s => Ok s | _ => Raise TypeError end.

(** What [time.sleep(v)] raises: [TypeError] on a value that is no number,
    [ValueError] on a negative one. *)
Definition delay_error (v : yaml) (e : exn) : Prop :=
  match v with YInt z => z < 0 ∧ e = ValueError | _ => e = TypeError end.

(** What [config['files'].get(...)] raises: [AttributeError], when the
    section is no dictionary. *)
Definition attribute_error (config : yaml) (e : exn) : Prop :=
  e = AttributeError ∧ ∀ m, getitem config "files" ≠ Ok (YMap m).

(** The turns a loop [while attempt < v] makes at most from [attempt = 0]:
    none when [v] is no integer, since the first comparison raises. *)
Definition turns (v : yaml) : Z :=
  match v with YInt z => z | _ => 0 end.

(** What [attempt < v] raises. *)
Definition limit_error (v : yaml) (e : exn) : Prop :=
  match v with YInt _ => False | _ => e = TypeError end.

(** The dictionary literal [required_fields], in insertion order. *)
Definition required_fields : list (string * list string) := [
  ("files", ["url_file"; "user_file"; "passwd_file"; "output_file"; "shell_file_content"]);
  ("retry", ["check_weak_password"; "deploy_godzilla_war"]);
  ("thread_pool", ["max_workers_limit"; "min_workers"; "combination_per_thread"])
].

(** The inner loop: [for field in fields: if field not in config[section]:
    return False]. *)
Fixpoint validate_fields (config : yaml) (section : string) (fields : list string)
  : result bool :=
  match fields with
  | [] => Ok true
  | field :: fields' =>
      sec ← getitem config section;
      present ← py_in field sec;
      if negb present then Ok false else validate_fields config section fields'
  end.

(** The outer loop: [for section, fields in required_fields.items()]. *)
Fixpoint validate_sections (config : yaml) (required : list (string * list string))
  : result bool :=
  match required with
  | [] => Ok true
  | (section, fields) :: required' =>
      present ← py_in section config;
      if negb present then Ok false
      else
        valid ← validate_fields config section fields;
        if valid : bool then validate_sections config required' else Ok false
  end.

Definition validate_config (config : yaml) : result bool :=
  validate_sections config required_fields.

(** [config[a][b]] and [config[a][b][c]]. *)
Definition getitem2 (config : yaml) (a b : string) : result yaml :=
  d ← getitem config a; getitem d b.
Definition getitem3 (config : yaml) (a b c : string) : result yaml :=
  d ← getitem2 config a b; getitem d c.

(** What the validation accepts as a section with these fields: a
    dictionary that has each as a key or, as [in] on a string is the
    substring test, a string that contains each. *)
Definition section_ok (config : yaml) (section : string) (fields : list string) : Prop :=
  match getitem config section with
  | Ok (YMap m) => Forall (λ f, is_Some (m !! f)) fields
  | Ok (YStr s) => Forall (λ f, contains f s = true) fields
  | _ => fields = []
  end.

#[export] Instance section_ok_dec config section fields :
  Decision (section_ok config section fields).
Proof. unfold section_ok. repeat case_match; apply _. Defined.

(** The settings [main] and the modules read after the validation. *)
Definition settings : list (list string) := [
  ["retry"; "check_weak_password"; "max_retries"];
  ["retry"; "check_weak_password"; "retry_delay"];
  ["retry"; "deploy_godzilla_war"; "max_retries"];
  ["retry"; "deploy_godzilla_war"; "retry_delay"];
  ["cnvd_2020_10487"; "port"]; ["cnvd_2020_10487"; "file_path"];
  ["cnvd_2020_10487"; "lfi_check"]
].

(** [config[k1][k2]...] *)
Fixpoint getpath (d : yaml) (path : list string) : result yaml :=
  match path with
  | [] => Ok d
  | k :: path' => v ← getitem d k; getpath v path'
  end.

(** A configuration with every key the scanner reads. *)
Definition sample_config : yaml :=
  YMap {[
    "files" := YMap {[ "url_file" := YStr "urls.txt"; "user_file" := YStr "user.txt";
                       "passwd_file" := YStr "passwd.txt";
                       "output_file" := YStr "success.txt";
                       "shell_file_content" := YStr "<% out.print(1); %>" ]};
    "retry" := YMap {[
       "check_weak_password" := YMap {[ "max_retries" := YInt 3; "retry_delay" := YInt 1 ]};
       "deploy_godzilla_war" := YMap {[ "max_retries" := YInt 3; "retry_delay" := YInt 1 ]} ]};
    "thread_pool" := YMap {[ "max_workers_limit" := YInt 10; "min_workers" := YInt 2;
                             "combination_per_thread" := YInt 200 ]};
    "cnvd_2020_10487" := YMap {[ "port" := YInt 8009; "file_path" := YStr "WEB-INF/web.xml";
                                 "lfi_check" := YStr "Welcome" ]}
  ]}.

(** ** Theorems *)

Section validate.
Implicit Types (config sec : yaml) (section field : string) (fields : list string).

Lemma getitem_Ok_map d k v : getitem d k = Ok v → ∃ m, d = YMap m ∧ m !! k = Some v.
Proof. destruct d; try done. simpl. case_match; [|done]. intros [= <-]. eauto. Qed.

Lemma py_in_getitem k m : py_in k (YMap m) = Ok (is_Ok (getitem (YMap m) k)).
Proof. simpl. f_equal. destruct (m !! k); by simpl. Qed.

(** The exceptions of the dictionary operations. *)
Lemma getitem_raises d k e : getitem d k = Raise e → e = KeyError ∨ e = TypeError.
Proof. destruct d; simpl; repeat case_match; naive_solver. Qed.

Lemma get_raises d k v e :
  get d k v = Raise e → e = AttributeError ∧ ∀ m, d ≠ YMap m.
Proof. destruct d; simpl; naive_solver. Qed.

Lemma get_files_raises config files k v e :
  getitem config "files" = Ok files → get files k v = Raise e → attribute_error config e.
Proof.
  intros Hf [-> Hm]%get_raises. split; [done|]. intros m. rewrite Hf. intros [= ->].
  by eapply Hm.
Qed.

Lemma as_int_raises v e : as_int v = Raise e → limit_error v e.
Proof. destruct v; naive_solver. Qed.

Lemma as_str_raises v e : as_str v = Raise e → e = TypeError.
Proof. destruct v; naive_solver. Qed.

Lemma as_int_turns v z : as_int v = Ok z → turns v = z.
Proof. destruct v; naive_solver. Qed.

Lemma limit_error_TypeError v e : limit_error v e → e = TypeError.
Proof. by destruct v. Qed.

Lemma py_in_raises k d e : py_in k d = Raise e → e = TypeError.
Proof. destruct d; naive_solver. Qed.

Lemma getitem2_raises config a b e :
  getitem2 config a b = Raise e → e = KeyError ∨ e = TypeError.
Proof.
  unfold getitem2. destruct (getitem config a) eqn:E; simpl;
    [apply getitem_raises|intros [= <-]; eauto using getitem_raises].
Qed.

Lemma getitem3_raises config a b c e :
  getitem3 config a b c = Raise e → e = KeyError ∨ e = TypeError.
Proof.
  unfold getitem3. destruct (getitem2 config a b) eqn:E; simpl;
    [apply getitem_raises|intros [= <-]; eauto using getitem2_raises].
Qed.

(** The inner loop on a section that is a dictionary, a string, and
    anything else. *)
(** The validation raises on a value that cannot be searched, and on
    nothing else. *)
Lemma validate_fields_raises config section fields e :
  validate_fields config section fields = Raise e → e = KeyError ∨ e = TypeError.
Proof.
  induction fields as [|f fields IH]; simpl; [done|].
  destruct (getitem config section) as [sec|e'] eqn:Hs; simpl;
    [|intros [= <-]; by eapply getitem_raises].
  destruct (py_in f sec) as [[]|e'] eqn:Hp; simpl; [done..|].
  intros [= <-]. right. by eapply py_in_raises.
Qed.

Lemma validate_sections_raises config required e :
  validate_sections config required = Raise e → e = KeyError ∨ e = TypeError.
Proof.
  induction required as [|[section fields] required IH]; simpl; [done|].
  destruct (py_in section config) as [[]|e'] eqn:Hp; simpl;
    [|done|intros [= <-]; right; by eapply py_in_raises].
  destruct (validate_fields config section fields) as [[]|e'] eqn:Hf; simpl; [done..|].
  intros [= <-]. by eapply validate_fields_raises.
Qed.

Lemma validate_config_raises config e :
  validate_config config = Raise e → e = KeyError ∨ e = TypeError.
Proof. apply validate_sections_raises. Qed.

Lemma validate_fields_map config section m fields :
  getitem config section = Ok (YMap m) →
  validate_fields config section fields
    = Ok (bool_decide (Forall (λ f, is_Some (m !! f)) fields)).
Proof.
  intros Hsec. induction fields as [|f fields IH]; simpl; [done|].
  rewrite Hsec. simpl. destruct (decide (is_Some (m !! f))) as [Hf|Hf].
  - rewrite (bool_decide_eq_true_2 _ Hf). simpl. rewrite IH. f_equal.
    apply bool_decide_ext. rewrite Forall_cons. naive_solver.
  - rewrite (bool_decide_eq_false_2 _ Hf). simpl. f_equal. symmetry.
    apply bool_decide_eq_false. by intros [? _]%Forall_cons.
Qed.

Lemma validate_fields_str config section s fields :
  getitem config section = Ok (YStr s) →
  validate_fields config section fields
    = Ok (bool_decide (Forall (λ f, contains f s = true) fields)).
Proof.
  intros Hsec. induction fields as [|f fields IH]; simpl; [done|].
  rewrite Hsec. simpl. destruct (contains f s) eqn:Hf; simpl.
  - rewrite IH. f_equal. apply bool_decide_ext. rewrite Forall_cons. naive_solver.
  - f_equal. symmetry. apply bool_decide_eq_false. intros [? _]%Forall_cons. congruence.
Qed.

Lemma validate_fields_other config section v f fields :
  getitem config section = Ok v → (∀ m, v ≠ YMap m) → (∀ s, v ≠ YStr s) →
  validate_fields config section (f :: fields) = Raise TypeError.
Proof. intros Hsec Hm Hs. simpl. rewrite Hsec. destruct v; naive_solver. Qed.

(** The inner loop answers [True] exactly on the sections it accepts. *)
Lemma validate_fields_true config section fields :
  is_Ok (getitem config section) = true →
  validate_fields config section fields = Ok true ↔ section_ok config section fields.
Proof.
  unfold section_ok. destruct (getitem config section) as [v|] eqn:Hsec; [intros _|done].
  destruct v as [| s | z | m].
  - destruct fields; [done|]. by erewrite validate_fields_other.
  - by rewrite (validate_fields_str _ _ s), Ok_bool_decide.
  - destruct fields; [done|]. by erewrite validate_fields_other.
  - by rewrite (validate_fields_map _ _ m), Ok_bool_decide.
Qed.

Lemma validate_sections_true m required :
  validate_sections (YMap m) required = Ok true ↔
  Forall (λ '(section, fields), is_Some (m !! section) ∧
                                section_ok (YMap m) section fields) required.
Proof.
  induction required as [|[section fields] required IH]; [done|].
  rewrite Forall_cons, <-IH. cbn [validate_sections py_in]. simpl.
  destruct (m !! section) as [v|] eqn:Hv; simpl.
  - rewrite <-validate_fields_true by (simpl; by rewrite Hv).
    destruct (validate_fields _ _ _) as [[]|]; naive_solver.
  - split; [done|]. by intros [[[? ?] _] _].
Qed.

(** C28. On a configuration that is a dictionary [validate_config] answers
    [True] exactly when each of the three sections is present and is a
    dictionary with the required keys, or a string that contains them. *)
Theorem validate_config_true m :
  validate_config (YMap m) = Ok true ↔
  Forall (λ '(section, fields), is_Some (m !! section) ∧
                                section_ok (YMap m) section fields) required_fields.
Proof. apply validate_sections_true. Qed.

(** The sample passes, and has every setting. *)
Example validate_sample : validate_config sample_config = Ok true.
Proof. by vm_compute. Qed.

Example sample_settings :
  forallb (λ path, is_Ok (getpath sample_config path)) settings = true.
Proof. by vm_compute. Qed.

(** The settings of the retry sections and the whole section of the AJP
    probe are not validated: a configuration without them passes, and the
    scan raises [KeyError] when it reads them. *)
Definition bare_config : yaml :=
  YMap {[
    "files" := YMap {[ "url_file" := YStr "urls.txt"; "user_file" := YStr "user.txt";
                       "passwd_file" := YStr "passwd.txt";
                       "output_file" := YStr "success.txt";
                       "shell_file_content" := YStr "" ]};
    "retry" := YMap {[ "check_weak_password" := YNone; "deploy_godzilla_war" := YNone ]};
    "thread_pool" := YMap {[ "max_workers_limit" := YInt 10; "min_workers" := YInt 2;
                             "combination_per_thread" := YInt 0 ]}
  ]}.

Example validate_bare :
  validate_config bare_config = Ok true ∧
  getpath bare_config ["retry"; "check_weak_password"; "max_retries"] = Raise TypeError ∧
  getpath bare_config ["cnvd_2020_10487"; "port"] = Raise KeyError.
Proof. by vm_compute. Qed.

(** A section that is a string passes when it spells the keys. *)
Example validate_string_section :
  validate_config (YMap (<["retry" := YStr "check_weak_password deploy_godzilla_war"]>
    match sample_config with YMap m => m | _ => ∅ end)) = Ok true.
Proof. by vm_compute. Qed.

(** A section that is empty in the file ([None]) makes the validation
    raise instead of answering [False]. *)
Example validate_null_section :
  validate_config (YMap {[ "files" := YNone ]}) = Raise TypeError.
Proof. by vm_compute. Qed.
End validate.
