(* ===== verification/Effects.v ===== *)
(** * Effects: programs that talk to the network and the file system

    Every function of the scanner below the codec calls [requests], opens
    files, sleeps or draws random characters.  Such a function is modelled
    as a [prog]: a tree whose nodes are the calls it makes ([event]) and
    whose branches are the answers it may get, a value or an exception.
    Python's [try]/[except] is [try_except] on such trees.

    An [Env] says what the outside answers: the servers, the operating
    system, the random generator, each as a function of the history.  [run]
    executes a program against an [Env] from a [world] (the files on disk
    and the history of calls) and gives the result and the final world.
    The theorems of the files that follow hold for every [Env]. *)

From stdpp Require Import gmap.
From coqutil Require Import Byte.
From S2P Require Import Prelude PyStr PyStruct Ajp Config.

(** ** Definitions *)

(** What the scanner reads of a [requests.Response]. *)
Record response : Type := Response {
  status_code : Z;
  text : string;
  cookies : list (string * string);
}.

(** What a file holds: text, or an archive as its members in order. *)
Inductive file : Type :=
  | TextFile (content : string)
  | ZipArchive (members : list (string * string)).

Inductive verb : Type := HGET | HPUT | HPOST.

(** The arguments of [requests.get], [requests.put] and [requests.post] the
    scanner passes ([verify=False] always). *)
Record request : Type := Request {
  req_verb : verb;
  req_url : string;
  req_auth : option (string * string);           (* HTTPBasicAuth(u, p) *)
  req_cookies : list (string * string);
  req_headers : list (string * string);
  req_data : option string;
  req_files : option (string * (string * file)); (* {field: (name, content, type)} *)
  req_timeout : Z;
}.

(** A call to the outside. *)
Inductive event : Type :=
  | Http (req : request)
  | AjpPerform (host : option string) (port : string) (req_uri : string)
               (attrs : list attribute)          (* Tomcat(h, p).perform_request *)
  | FileWrite (path content : string)            (* open(path, 'w'); write *)
  | FileAppend (path line : string)              (* open(path, 'a'); write *)
  | FileRead (path : string)                     (* open(path, 'rb') *)
  | ZipCreate (path : string)                    (* zipfile.ZipFile(path, 'w') *)
  | ZipAdd (path member arcname : string)        (* war.write(member, arcname) *)
  | Remove (path : string)                       (* os.remove *)
  | IsFile (path : string)                       (* os.path.isfile *)
  | Sleep (seconds : Z)                          (* time.sleep *)
  | RandomIndex (n : nat).                       (* one draw of random.choices *)

(** What a call returns. *)
Inductive answer : Type :=
  | AUnit
  | ABool (b : bool)
  | ANat (n : nat)
  | AResponse (r : response)
  | AFile (f : file)
  | AChunks (l : list bytes).

#[export] Instance response_eq_dec : EqDecision response.
Proof. solve_decision. Defined.
#[export] Instance file_eq_dec : EqDecision file.
Proof. solve_decision. Defined.
#[export] Instance verb_eq_dec : EqDecision verb.
Proof. solve_decision. Defined.
#[export] Instance request_eq_dec : EqDecision request.
Proof. solve_decision. Defined.
#[export] Instance attribute_eq_dec : EqDecision attribute.
Proof. solve_decision. Defined.
#[export] Instance event_eq_dec : EqDecision event.
Proof. solve_decision. Defined.
#[export] Instance answer_eq_dec : EqDecision answer.
Proof. solve_decision. Defined.

(** One entry of the history: a call and what came back. *)
Definition entry : Type := event * result answer.

(** The outside.  Each answer may depend on everything that happened
    before (the history, latest call first). *)
Class Env : Type := {
  (** the server's answer to a request; [None] is a transport error, which
      [requests] raises as a [RequestException] *)
  env_http : list entry → request → option response;
  (** the body chunks of an AJP exchange, or the exception it ends in *)
  env_ajp : list entry → option string → string → string → list attribute
            → result (list bytes);
  (** whether the operating system refuses this file operation now *)
  env_denied : list entry → event → bool;
  (** the next draw of the random generator *)
  env_random : list entry → nat;
}.

(** The state a program runs in: the files on disk and the history. *)
Record world : Type := World {
  fs : gmap string file;
  trace : list entry;
}.

(** A program: it returns, raises, or makes a call and goes on with the
    answer. *)
Inductive prog (A : Type) : Type :=
  | Ret (a : A)
  | Throw (e : exn)
  | Vis (ev : event) (k : result answer → prog A).
Arguments Ret {A} a.
Arguments Throw {A} e.
Arguments Vis {A} ev k.

Fixpoint prog_bind {A B} (f : A → prog B) (p : prog A) : prog B :=
  match p with
  | Ret a => f a
  | Throw e => Throw e
  | Vis ev k => Vis ev (λ r, prog_bind f (k r))
  end.

#[export] Instance prog_ret : MRet prog := @Ret.
#[export] Instance prog_mbind : MBind prog := @prog_bind.

(** [try: p except <the exceptions handles accepts>: h]. *)
Fixpoint try_except {A} (p : prog A) (handles : exn → bool) (h : exn → prog A)
  : prog A :=
  match p with
  | Ret a => Ret a
  | Throw e => if handles e then h e else Throw e
  | Vis ev k => Vis ev (λ r, try_except (k r) handles h)
  end.

(** [except requests.exceptions.RequestException], [except OSError],
    [except Exception]. *)
Definition is_RequestException (e : exn) : bool := bool_decide (e = RequestException).
Definition is_OSError (e : exn) : bool := bool_decide (e = OSError).
Definition is_Exception (e : exn) : bool := true.

(** A call whose answer of the wrong kind is a [TypeError]; an [Env] never
    gives one. *)
Definition call {A} (ev : event) (get : answer → option A) : prog A :=
  Vis ev (λ r,
    match r with
    | Ok a => match get a with Some x => Ret x | None => Throw TypeError end
    | Raise e => Throw e
    end).

Definition get_unit (a : answer) : option () :=
  match a with AUnit => Some () | _ => None end.
Definition get_bool (a : answer) : option bool :=
  match a with ABool b => Some b | _ => None end.
Definition get_nat (a : answer) : option nat :=
  match a with ANat n => Some n | _ => None end.
Definition get_response (a : answer) : option response :=
  match a with AResponse r => Some r | _ => None end.
Definition get_file (a : answer) : option file :=
  match a with AFile f => Some f | _ => None end.
Definition get_chunks (a : answer) : option (list bytes) :=
  match a with AChunks l => Some l | _ => None end.

Definition http (req : request) : prog response := call (Http req) get_response.
Definition ajp_perform (host : option string) (port req_uri : string)
    (attrs : list attribute) : prog (list bytes) :=
  call (AjpPerform host port req_uri attrs) get_chunks.
Definition file_write (path content : string) : prog () :=
  call (FileWrite path content) get_unit.
Definition file_append (path line : string) : prog () :=
  call (FileAppend path line) get_unit.
Definition file_read (path : string) : prog file := call (FileRead path) get_file.
Definition zip_create (path : string) : prog () := call (ZipCreate path) get_unit.
Definition zip_add (path member arcname : string) : prog () :=
  call (ZipAdd path member arcname) get_unit.
Definition remove (path : string) : prog () := call (Remove path) get_unit.
Definition isfile (path : string) : prog bool := call (IsFile path) get_bool.
(** [time.sleep(seconds)] on a value of the configuration: a value that is
    no number raises [TypeError] before the call. *)
Definition sleep (seconds : yaml) : prog () :=
  match seconds with
  | YInt z => call (Sleep z) get_unit
  | _ => Throw TypeError
  end.
Definition random_index (n : nat) : prog nat := call (RandomIndex n) get_nat.

(** A pure computation as a program. *)
Definition lift_result {A} (r : result A) : prog A :=
  match r with Ok a => Ret a | Raise e => Throw e end.

(** [response.raise_for_status()]: [HTTPError], a [RequestException], on a
    status from 400 to 599. *)
Definition raise_for_status (r : response) : prog () :=
  if decide (400 ≤ status_code r < 600) then Throw RequestException else Ret ().

(** *** Running a program *)

(** The text a file holds when it is opened for appending. *)
Definition text_of (f : option file) : string :=
  match f with Some (TextFile s) => s | _ => "" end.

(** What a call does to the disk and what it returns, the operating system
    willing. *)
Definition perform `{Env} (w : world) (ev : event) : result answer * gmap string file :=
  let disk := fs w in
  match ev with
  | Http req =>
      (match env_http (trace w) req with
       | Some r => Ok (AResponse r)
       | None => Raise RequestException
       end, disk)
  | AjpPerform host port uri attrs =>
      (AChunks <$> env_ajp (trace w) host port uri attrs, disk)
  | FileWrite path content => (Ok AUnit, <[path := TextFile content]> disk)
  | FileAppend path line =>
      (Ok AUnit, <[path := TextFile (text_of (disk !! path) +:+ line)]> disk)
  | FileRead path =>
      (match disk !! path with Some f => Ok (AFile f) | None => Raise OSError end, disk)
  | ZipCreate path => (Ok AUnit, <[path := ZipArchive []]> disk)
  | ZipAdd path member arcname =>
      match disk !! member, disk !! path with
      | Some (TextFile s), Some (ZipArchive ms) =>
          (Ok AUnit, <[path := ZipArchive (ms ++ [(arcname, s)])]> disk)
      | _, _ => (Raise OSError, disk)
      end
  | Remove path =>
      match disk !! path with
      | Some _ => (Ok AUnit, delete path disk)
      | None => (Raise OSError, disk)
      end
  | IsFile path => (Ok (ABool (bool_decide (is_Some (disk !! path)))), disk)
  | Sleep z => (if decide (z < 0) then Raise ValueError else Ok AUnit, disk)
  | RandomIndex n => (Ok (ANat (env_random (trace w) `mod` n)%nat), disk)
  end.

(** The calls the operating system can refuse. *)
Definition is_file_op (ev : event) : bool :=
  match ev with
  | FileWrite _ _ | FileAppend _ _ | FileRead _ | ZipCreate _ | ZipAdd _ _ _
  | Remove _ => true
  | _ => false
  end.

(** One call: refused with [OSError] and no effect, or performed; either
    way it enters the history. *)
Definition exec `{Env} (w : world) (ev : event) : result answer * world :=
  let '(r, disk) :=
    if is_file_op ev && env_denied (trace w) ev then (Raise OSError, fs w)
    else perform w ev in
  (r, {| fs := disk; trace := (ev, r) :: trace w |}).

Fixpoint run `{Env} {A} (p : prog A) (w : world) : result A * world :=
  match p with
  | Ret a => (Ok a, w)
  | Throw e => (Raise e, w)
  | Vis ev k => let '(r, w') := exec w ev in run (k r) w'
  end.

(** The calls of a history, first call first. *)
Definition calls (w : world) : list event := reverse (trace w).*1.

(** The empty disk with no history. *)
Definition initial : world := {| fs := ∅; trace := [] |}.

(** The events a program may emit all satisfy [P], whatever it is
    answered. *)
Inductive emits (P : event → Prop) {A} : prog A → Prop :=
  | emits_Ret a : emits P (Ret a)
  | emits_Throw e : emits P (Throw e)
  | emits_Vis ev k : P ev → (∀ r, emits P (k r)) → emits P (Vis ev k).

(** ** The laws of [run] *)

Section run.
Context `{Env} {A B : Type}.
Implicit Types (p : prog A) (f : A → prog B) (w : world) (ev : event).

Lemma run_Ret (a : A) w : run (Ret a) w = (Ok a, w).
Proof. done. Qed.

Lemma run_Throw e w : run (Throw e : prog A) w = (Raise e, w).
Proof. done. Qed.

Lemma run_Vis ev (k : result answer → prog A) w :
  run (Vis ev k) w = run (k (exec w ev).1) (exec w ev).2.
Proof. simpl. by destruct (exec w ev). Qed.

Lemma run_lift_result (r : result A) w : run (lift_result r) w = (r, w).
Proof. by destruct r. Qed.

(** Sequencing: the second program runs from where the first stopped, and
    not at all when the first raised. *)
Lemma run_bind p f w :
  run (p ≫= f) w =
    match run p w with
    | (Ok a, w') => run (f a) w'
    | (Raise e, w') => (Raise e, w')
    end.
Proof.
  revert w. induction p as [a|e|ev k IH]; intros w; try done.
  simpl. destruct (exec w ev) as [r w']. apply IH.
Qed.

Lemma run_bind_Ok p f w a w' : run p w = (Ok a, w') → run (p ≫= f) w = run (f a) w'.
Proof. intros Hp. by rewrite run_bind, Hp. Qed.

Lemma run_bind_Raise p f w e w' :
  run p w = (Raise e, w') → run (p ≫= f) w = (Raise e, w').
Proof. intros Hp. by rewrite run_bind, Hp. Qed.

(** A pure step: the program goes on with its value from the same world. *)
Lemma run_lift_bind (r : result A) f w :
  run (x ← lift_result r; f x) w =
    match r with Ok a => run (f a) w | Raise e => (Raise e, w) end.
Proof. by destruct r. Qed.

(** [try]/[except]: the handler runs from where the body raised. *)
Lemma run_try_except p handles (h : exn → prog A) w :
  run (try_except p handles h) w =
    match run p w with
    | (Ok a, w') => (Ok a, w')
    | (Raise e, w') => if handles e then run (h e) w' else (Raise e, w')
    end.
Proof.
  revert w. induction p as [a|e|ev k IH]; intros w; try done.
  - simpl. by destruct (handles e).
  - simpl. destruct (exec w ev) as [r w']. apply IH.
Qed.
End run.

(** ** One call *)

Section exec.
Context `{Env}.
Implicit Types (w : world) (ev : event).

Lemma exec_trace w ev : trace (exec w ev).2 = (ev, (exec w ev).1) :: trace w.
Proof. unfold exec. by destruct (is_file_op ev && _), (perform w ev). Qed.

(** A call that is no file operation leaves the disk alone. *)
Lemma exec_fs_other w ev : is_file_op ev = false → fs (exec w ev).2 = fs w.
Proof.
  intros Hf. unfold exec. rewrite Hf. simpl.
  destruct ev; try discriminate; simpl; by repeat case_match.
Qed.

(** A refused call has no effect on the disk. *)
Lemma exec_denied w ev :
  is_file_op ev = true → env_denied (trace w) ev = true →
  exec w ev = (Raise OSError, {| fs := fs w; trace := (ev, Raise OSError) :: trace w |}).
Proof. unfold exec. by intros -> ->. Qed.

Lemma exec_allowed w ev :
  env_denied (trace w) ev = false →
  exec w ev = ((perform w ev).1,
               {| fs := (perform w ev).2; trace := (ev, (perform w ev).1) :: trace w |}).
Proof. unfold exec. intros ->. rewrite andb_false_r. by destruct (perform w ev). Qed.

(** A typed call: its result is the answer, and the world that of [exec]. *)
Lemma run_call {A} ev (get : answer → option A) w :
  run (call ev get) w =
    (match (exec w ev).1 with
     | Ok a => match get a with Some x => Ok x | None => Raise TypeError end
     | Raise e => Raise e
     end, (exec w ev).2).
Proof. unfold call. rewrite run_Vis. by repeat case_match. Qed.
End exec.

(** ** Invariants of the world *)

Section invariants.
Context `{Env}.
Implicit Types (w : world) (ev : event) (P : event → Prop) (I : world → Prop).

Lemma emits_bind {A B} P (p : prog A) (f : A → prog B) :
  emits P p → (∀ a, emits P (f a)) → emits P (p ≫= f).
Proof.
  intros Hp Hf. induction Hp as [a|e|ev k Hev _ IH]; [apply Hf|constructor|].
  change (Vis ev k ≫= f) with (Vis ev (λ r, k r ≫= f)). by constructor.
Qed.

Lemma emits_try_except {A} P (p : prog A) handles h :
  emits P p → (∀ e, emits P (h e)) → emits P (try_except p handles h).
Proof.
  intros Hp Hh. induction Hp as [a|e|ev k Hev _ IH]; [constructor| |by constructor].
  simpl. destruct (handles e); [apply Hh|constructor].
Qed.

Lemma emits_call {A} P ev (get : answer → option A) : P ev → emits P (call ev get).
Proof. intros. constructor; [done|]. intros [a|e]; [destruct (get a)|]; constructor. Qed.

Lemma emits_weaken {A} (P Q : event → Prop) (p : prog A) :
  (∀ ev, P ev → Q ev) → emits P p → emits Q p.
Proof. intros HPQ Hp. induction Hp; constructor; auto. Qed.

(** A property of the world that every call a program may make preserves
    holds when the program stops, however it stops. *)
Theorem run_invariant {A} P I (p : prog A) w :
  (∀ w ev, I w → P ev → I (exec w ev).2) →
  emits P p → I w → I (run p w).2.
Proof.
  intros Hstep Hp. revert w. induction Hp as [a|e|ev k Hev _ IH]; intros w Hw; try done.
  rewrite run_Vis. apply IH. by apply Hstep.
Qed.

(** The history only grows. *)
Lemma run_trace_suffix {A} (p : prog A) w : trace w `suffix_of` trace (run p w).2.
Proof.
  revert w. induction p as [a|e|ev k IH]; intros w; try done.
  rewrite run_Vis. etrans; [|apply IH]. rewrite exec_trace. by apply suffix_cons_r.
Qed.
End invariants.

#[export] Hint Constructors emits : py.
#[export] Hint Resolve emits_bind emits_try_except emits_call : py.
