(* ===== verification/Logic.v ===== *)
(** * Logic: reasoning about the programs of [Effects]

    A weakest-precondition predicate over [run] with one rule for each way
    of building a program (return, raise, call, sequence, [try]/[except]),
    the case analysis of what one call can answer, and the invariants every
    program has: the history grows, and only file operations change the
    disk.  Then, each with its rules and a tactic that applies them along
    the structure of a program: the exceptions a program can raise
    ([raises_only], [solve_raises]), the calls it can make ([emits],
    [solve_emits]) and how many ([at_most], [count_calls]); the values it
    can return ([returns]); programs that no environment tells apart ([≡]);
    what a run that returned tells about its steps; the history of a run.
    Everything holds for every [Env]. *)

From stdpp Require Import gmap.
From S2P Require Import Prelude PyStr Config Effects.

(** ** Definitions *)

(** [wp p w Q]: running [p] from [w] ends in a result and a world that
    satisfy [Q]. *)
Definition wp `{Env} {A} (p : prog A) (w : world) (Q : result A → world → Prop) : Prop :=
  Q (run p w).1 (run p w).2.

(** The answer of a call has the kind the call expects. *)
Definition answers (ev : event) (a : answer) : Prop :=
  match ev, a with
  | Http _, AResponse _ | AjpPerform _ _ _ _, AChunks _ | FileRead _, AFile _
  | IsFile _, ABool _ | RandomIndex _, ANat _ => True
  | (FileWrite _ _ | FileAppend _ _ | ZipCreate _ | ZipAdd _ _ _ | Remove _ | Sleep _),
    AUnit => True
  | _, _ => False
  end.

(** The exceptions a call can raise: a transport error from [requests], an
    [OSError] from a file operation, anything from the AJP library. *)
Definition may_raise (ev : event) (e : exn) : Prop :=
  match ev with
  | Http _ => e = RequestException
  | AjpPerform _ _ _ _ => True
  | Sleep z => z < 0 ∧ e = ValueError
  | IsFile _ | RandomIndex _ => False
  | _ => e = OSError
  end.

(** The entries a run added to the history, first call first. *)
Definition added (w w' : world) : list entry :=
  reverse (take (length (trace w') - length (trace w)) (trace w')).

(** The world after a call that left the disk alone, and after one that
    changed it. *)
Definition logged (w : world) (ev : event) (r : result answer) : world :=
  {| fs := fs w; trace := (ev, r) :: trace w |}.
Definition stored (w : world) (disk : gmap string file) (ev : event) : world :=
  {| fs := disk; trace := (ev, Ok AUnit) :: trace w |}.

(** The calls that write to [path]. *)
Definition touches (path : string) (ev : event) : Prop :=
  match ev with
  | FileWrite p _ | FileAppend p _ | ZipCreate p | ZipAdd p _ _ | Remove p => p = path
  | _ => False
  end.

#[export] Instance touches_dec path ev : Decision (touches path ev).
Proof. destruct ev; simpl; apply _. Defined.

(** What a call can be answered: a value of its kind, or an exception it
    can raise. *)
Definition reply (ev : event) (r : result answer) : Prop :=
  match r with Ok a => answers ev a | Raise e => may_raise ev e end.

(** Whatever its calls are answered, [p] raises only exceptions of [P].
    The answers are any the calls can get, one by one: the predicate does
    not depend on what happens between two calls of [p]. *)
Inductive raises_only (P : exn → Prop) {A} : prog A → Prop :=
  | raises_only_Ret a : raises_only P (Ret a)
  | raises_only_Throw e : P e → raises_only P (Throw e)
  | raises_only_Vis ev k : (∀ r, reply ev r → raises_only P (k r)) → raises_only P (Vis ev k).

(** Two programs no environment tells apart: from every world they end in
    the same result and the same world. *)
#[export] Instance prog_equiv `{Env} {A} : Equiv (prog A) := λ p q, ∀ w, run p w = run q w.

(** The calls of a history that satisfy [P]. *)
Definition count (P : event → bool) (w : world) : nat :=
  length (List.filter P (trace w).*1).

(** On every path [p] makes at most [n] calls that satisfy [P]. *)
Inductive at_most (P : event → bool) {A} : nat → prog A → Prop :=
  | at_most_Ret n a : at_most P n (Ret a)
  | at_most_Throw n e : at_most P n (Throw e)
  | at_most_count n ev k :
      P ev = true → (∀ r, at_most P n (k r)) → at_most P (S n) (Vis ev k)
  | at_most_skip n ev k :
      P ev = false → (∀ r, at_most P n (k r)) → at_most P n (Vis ev k).

(** The values a program can return, for some answers to its calls. *)
Inductive returns {A} : prog A → A → Prop :=
  | returns_Ret a : returns (Ret a) a
  | returns_Vis ev k r a : returns (k r) a → returns (Vis ev k) a.

(** The call a program starts with. *)
Definition first_call {A} (p : prog A) : option event :=
  match p with Vis ev _ => Some ev | _ => None end.

(** The requests, the AJP exchanges and the pauses of a history. *)
Definition is_http (ev : event) : bool := match ev with Http _ => true | _ => false end.
Definition is_ajp (ev : event) : bool :=
  match ev with AjpPerform _ _ _ _ => true | _ => false end.
Definition is_sleep (ev : event) : bool := match ev with Sleep _ => true | _ => false end.

(** ** The rules *)

Section rules.
Context `{Env}.
Implicit Types (w : world) (ev : event).

Lemma wp_Ret {A} (a : A) w Q : Q (Ok a) w → wp (Ret a) w Q.
Proof. done. Qed.

Lemma wp_mret {A} (a : A) w Q : Q (Ok a) w → wp (mret a) w Q.
Proof. done. Qed.

Lemma wp_Throw {A} e w (Q : result A → world → Prop) : Q (Raise e) w → wp (Throw e) w Q.
Proof. done. Qed.

Lemma wp_bind {A B} (p : prog A) (f : A → prog B) w (Q : result B → world → Prop) :
  wp p w (λ (r : result A) w',
            match r with Ok a => wp (f a) w' Q | Raise e => Q (Raise e) w' end) →
  wp (p ≫= f) w Q.
Proof. unfold wp. rewrite run_bind. by destruct (run p w) as [[a|e] w']. Qed.

Lemma wp_try_except {A} (p : prog A) (handles : exn → bool) (h : exn → prog A) w
    (Q : result A → world → Prop) :
  wp p w (λ (r : result A) w', match r with
                  | Ok a => Q (Ok a) w'
                  | Raise e => if handles e then wp (h e) w' Q else Q (Raise e) w'
                  end) →
  wp (try_except p handles h) w Q.
Proof.
  unfold wp. rewrite run_try_except.
  destruct (run p w) as [[a|e] w']; [done|]. simpl. by destruct (handles e).
Qed.

Lemma wp_weaken {A} (p : prog A) w (Q Q' : result A → world → Prop) :
  (∀ r w', Q r w' → Q' r w') → wp p w Q → wp p w Q'.
Proof. unfold wp. auto. Qed.

Lemma wp_run {A} (p : prog A) w Q r w' : run p w = (r, w') → wp p w Q → Q r w'.
Proof. unfold wp. by intros ->. Qed.

Lemma wp_intro {A} (p : prog A) w (Q : result A → world → Prop) :
  (∀ r w', run p w = (r, w') → Q r w') → wp p w Q.
Proof. unfold wp. intros HQ. apply HQ. by destruct (run p w). Qed.

Lemma wp_lift_result {A} (r : result A) w Q :
  Q r w → wp (match r with Ok a => Ret a | Raise e => Throw e end) w Q.
Proof. by destruct r. Qed.
End rules.

(** ** What one call can answer *)

Section calls.
Context `{Env}.
Implicit Types (w : world) (ev : event).

Lemma perform_answers w ev a : (perform w ev).1 = Ok a → answers ev a.
Proof.
  destruct ev; simpl; unfold fmap, result_fmap;
    repeat case_match; simpl; try done; by intros [= <-].
Qed.

(** An answer that is a value has the kind of its call. *)
Lemma exec_answers w ev a : (exec w ev).1 = Ok a → answers ev a.
Proof.
  unfold exec. destruct (is_file_op ev && _); [done|].
  destruct (perform w ev) eqn:E. simpl. intros ->.
  apply (perform_answers w). by rewrite E.
Qed.

Lemma perform_may_raise w ev e : (perform w ev).1 = Raise e → may_raise ev e.
Proof.
  destruct ev; simpl; unfold fmap, result_fmap;
    repeat case_match; simpl; try done; by intros [= <-].
Qed.

(** An answer that is an exception is one the call can raise. *)
Lemma exec_may_raise w ev e : (exec w ev).1 = Raise e → may_raise ev e.
Proof.
  unfold exec. destruct (is_file_op ev && _) eqn:E.
  - apply andb_true_iff in E as [E _]. simpl. intros [= <-]. by destruct ev.
  - destruct (perform w ev) eqn:E'. simpl. intros ->.
    apply (perform_may_raise w). by rewrite E'.
Qed.

(** The rule of a typed call: the postcondition for every answer of the
    right kind and every exception the call can raise. *)
Lemma wp_call {A} ev (get : answer → option A) w (Q : result A → world → Prop) :
  (∀ a x, (exec w ev).1 = Ok a → get a = Some x → Q (Ok x) (exec w ev).2) →
  (∀ a, answers ev a → is_Some (get a)) →
  (∀ e, (exec w ev).1 = Raise e → may_raise ev e → Q (Raise e) (exec w ev).2) →
  wp (call ev get) w Q.
Proof.
  intros HOk Hget HRaise. unfold wp. rewrite run_call. simpl.
  destruct (exec w ev).1 as [a|e] eqn:E.
  - destruct (Hget a (exec_answers _ _ _ E)) as [x Hx]. rewrite Hx. by eapply HOk.
  - apply HRaise; [done|]. by eapply exec_may_raise.
Qed.
End calls.

(** ** The calls one by one *)

Section equations.
Context `{Env}.
Implicit Types (w : world) (path : string).

Lemma run_http req w :
  run (http req) w =
    match env_http (trace w) req with
    | Some r => (Ok r, logged w (Http req) (Ok (AResponse r)))
    | None => (Raise RequestException, logged w (Http req) (Raise RequestException))
    end.
Proof.
  unfold http. rewrite run_call. unfold exec. simpl.
  by destruct (env_http (trace w) req).
Qed.

Lemma run_sleep z w :
  0 ≤ z → run (sleep (YInt z)) w = (Ok (), logged w (Sleep z) (Ok AUnit)).
Proof. intros. unfold sleep. rewrite run_call. unfold exec. simpl. by rewrite decide_False by lia. Qed.

(** A negative pause is refused, and its call is in the history. *)
Lemma run_sleep_negative z w :
  z < 0 → run (sleep (YInt z)) w = (Raise ValueError, logged w (Sleep z) (Raise ValueError)).
Proof. intros. unfold sleep. rewrite run_call. unfold exec. simpl. by rewrite decide_True by lia. Qed.

Lemma run_isfile path w :
  run (isfile path) w =
    let b := bool_decide (is_Some (fs w !! path)) in
    (Ok b, logged w (IsFile path) (Ok (ABool b))).
Proof. done. Qed.

Lemma run_random_index n w :
  run (random_index n) w =
    let i := (env_random (trace w) `mod` n)%nat in
    (Ok i, logged w (RandomIndex n) (Ok (ANat i))).
Proof. done. Qed.

(** A file operation the operating system refuses. *)
Lemma run_ajp_perform host port uri attrs w :
  run (ajp_perform host port uri attrs) w =
    (env_ajp (trace w) host port uri attrs,
     logged w (AjpPerform host port uri attrs)
       (AChunks <$> env_ajp (trace w) host port uri attrs)).
Proof.
  unfold ajp_perform. rewrite run_call. unfold exec. simpl.
  by destruct (env_ajp _ _ _ _ _).
Qed.

Lemma run_denied {A} ev (get : answer → option A) w :
  is_file_op ev = true → env_denied (trace w) ev = true →
  run (call ev get) w = (Raise OSError, logged w ev (Raise OSError)).
Proof. intros Hf Hd. by rewrite run_call, exec_denied. Qed.

Lemma run_remove path w :
  env_denied (trace w) (Remove path) = false →
  run (remove path) w =
    match fs w !! path with
    | Some _ => (Ok (), stored w (delete path (fs w)) (Remove path))
    | None => (Raise OSError, logged w (Remove path) (Raise OSError))
    end.
Proof.
  intros Hd. unfold remove. rewrite run_call, exec_allowed by done. simpl.
  by destruct (fs w !! path).
Qed.

Lemma run_file_write path content w :
  env_denied (trace w) (FileWrite path content) = false →
  run (file_write path content) w =
    (Ok (), stored w (<[path := TextFile content]> (fs w)) (FileWrite path content)).
Proof. intros Hd. unfold file_write. by rewrite run_call, exec_allowed. Qed.

Lemma run_file_append path line w :
  env_denied (trace w) (FileAppend path line) = false →
  run (file_append path line) w =
    (Ok (), stored w (<[path := TextFile (text_of (fs w !! path) +:+ line)]> (fs w))
                   (FileAppend path line)).
Proof. intros Hd. unfold file_append. by rewrite run_call, exec_allowed. Qed.

Lemma run_file_read path w :
  env_denied (trace w) (FileRead path) = false →
  run (file_read path) w =
    match fs w !! path with
    | Some f => (Ok f, logged w (FileRead path) (Ok (AFile f)))
    | None => (Raise OSError, logged w (FileRead path) (Raise OSError))
    end.
Proof.
  intros Hd. unfold file_read. rewrite run_call, exec_allowed by done. simpl.
  by destruct (fs w !! path).
Qed.

Lemma run_zip_create path w :
  env_denied (trace w) (ZipCreate path) = false →
  run (zip_create path) w =
    (Ok (), stored w (<[path := ZipArchive []]> (fs w)) (ZipCreate path)).
Proof. intros Hd. unfold zip_create. by rewrite run_call, exec_allowed. Qed.

Lemma run_zip_add path member arcname w s ms :
  env_denied (trace w) (ZipAdd path member arcname) = false →
  fs w !! member = Some (TextFile s) → fs w !! path = Some (ZipArchive ms) →
  run (zip_add path member arcname) w =
    (Ok (), stored w (<[path := ZipArchive (ms ++ [(arcname, s)])]> (fs w))
                   (ZipAdd path member arcname)).
Proof.
  intros Hd Hm Hp. unfold zip_add. rewrite run_call, exec_allowed by done.
  simpl. by rewrite Hm, Hp.
Qed.
End equations.

(** ** Facts about every program *)

Section frame.
Context `{Env}.
Implicit Types (w : world) (ev : event).

(** Programs that make no file operation leave the disk as it was. *)
Lemma run_fs_unchanged {A} (p : prog A) w :
  emits (λ ev, is_file_op ev = false) p → fs (run p w).2 = fs w.
Proof.
  intros Hp. eapply (run_invariant _ (λ w', fs w' = fs w) p w); [|done..].
  intros w' ev Hw Hev. by rewrite exec_fs_other.
Qed.

(** A file keeps its content through a call that names other paths. *)
Lemma exec_fs_lookup w ev path : ¬ touches path ev → fs (exec w ev).2 !! path = fs w !! path.
Proof.
  intros Ht. unfold exec. destruct (is_file_op ev && _); [done|].
  destruct ev; simpl in *; repeat case_match; simplify_eq/=;
    rewrite ?lookup_insert_ne, ?lookup_delete_ne by done; done.
Qed.

Lemma run_fs_lookup {A} (p : prog A) w path :
  emits (λ ev, ¬ touches path ev) p → fs (run p w).2 !! path = fs w !! path.
Proof.
  intros Hp. eapply (run_invariant _ (λ w', fs w' !! path = fs w !! path) p w); [|done..].
  intros w' ev Hw Hev. by rewrite exec_fs_lookup.
Qed.
End frame.

(** ** The exceptions a program can raise *)

Section raises.
Implicit Types (P : exn → Prop) (ev : event).

(** Every answer of [exec] is one the call can get. *)
Lemma exec_reply `{Env} w ev : reply ev (exec w ev).1.
Proof.
  destruct (exec w ev).1 eqn:E; simpl; [by eapply exec_answers|by eapply exec_may_raise].
Qed.

(** In every environment, a run of [p] from every world ends in a value or
    in an exception of [P]. *)
Theorem raises_only_run `{Env} {A} P (p : prog A) w e :
  raises_only P p → (run p w).1 = Raise e → P e.
Proof.
  intros Hp. revert w. induction Hp as [a|e' He'|ev k _ IH]; intros w.
  - done.
  - by intros [= <-].
  - rewrite run_Vis. apply IH, exec_reply.
Qed.

Lemma raises_only_mret {A} P (a : A) : raises_only P (mret a).
Proof. constructor. Qed.

Lemma raises_only_bind {A B} P (p : prog A) (f : A → prog B) :
  raises_only P p → (∀ a, raises_only P (f a)) → raises_only P (p ≫= f).
Proof. intros Hp Hf. induction Hp; simpl; [apply Hf|by constructor..]. Qed.

Lemma raises_only_try_except {A} P (p : prog A) (handles : exn → bool) h :
  raises_only (λ e, if handles e then True else P e) p →
  (∀ e, raises_only P (h e)) → raises_only P (try_except p handles h).
Proof.
  intros Hp Hh. induction Hp as [a|e He|ev k _ IH]; simpl; [constructor| |by constructor].
  destruct (handles e); [apply Hh|by constructor].
Qed.

Lemma raises_only_call {A} P ev (get : answer → option A) :
  (∀ a, answers ev a → is_Some (get a)) → (∀ e, may_raise ev e → P e) →
  raises_only P (call ev get).
Proof.
  intros Hget HP. constructor. intros [a|e] Hr; simpl in Hr.
  - destruct (Hget a Hr) as [x ->]. constructor.
  - constructor. by apply HP.
Qed.

Lemma raises_only_weaken {A} (P Q : exn → Prop) (p : prog A) :
  (∀ e, P e → Q e) → raises_only P p → raises_only Q p.
Proof. intros HPQ Hp. induction Hp; constructor; auto. Qed.

Lemma raises_only_if {A} P (b : bool) (p q : prog A) :
  raises_only P p → raises_only P q → raises_only P (if b then p else q).
Proof. by destruct b. Qed.

Lemma raises_only_decide {A} P `{Decision φ} (p q : prog A) :
  raises_only P p → raises_only P q → raises_only P (if decide φ then p else q).
Proof. by case_decide. Qed.

(** A pure step that fails is the only way past it to raise; what follows
    knows what it returned. *)
Lemma raises_only_lift_bind {A B} P (r : result A) (f : A → prog B) :
  (∀ e, r = Raise e → P e) → (∀ a, r = Ok a → raises_only P (f a)) →
  raises_only P (lift_result r ≫= f).
Proof. intros HP Hf. destruct r; simpl; [by apply Hf|constructor; by apply HP]. Qed.

Lemma raises_only_lift_result {A} P (r : result A) :
  (∀ e, r = Raise e → P e) → raises_only P (lift_result r).
Proof. intros HP. destruct r; constructor. by apply HP. Qed.

(** [except Exception] lets nothing through. *)
Lemma raises_only_catch_all {A} P (p : prog A) (h : exn → prog A) :
  (∀ e, raises_only P (h e)) → raises_only P (try_except p is_Exception h).
Proof.
  intros Hh. induction p as [a|e|ev k IH]; simpl; [constructor|apply Hh|].
  constructor. intros r _. apply IH.
Qed.

(** The typed calls. *)
Lemma raises_only_http P req : P RequestException → raises_only P (http req).
Proof. intros. apply raises_only_call; [by intros []|]. by intros e ->. Qed.

Lemma raises_only_sleep P v : (∀ e, delay_error v e → P e) → raises_only P (sleep v).
Proof.
  intros HP. destruct v as [|s|z|m]; simpl; [by constructor; apply HP..| |by constructor; apply HP].
  apply raises_only_call; [by intros []|]. intros e He. by apply HP.
Qed.

Lemma raises_only_isfile P path : raises_only P (isfile path).
Proof. apply raises_only_call; [by intros []|done]. Qed.

Lemma raises_only_random_index P n : raises_only P (random_index n).
Proof. apply raises_only_call; [by intros []|done]. Qed.

Lemma raises_only_remove P path : P OSError → raises_only P (remove path).
Proof. intros. apply raises_only_call; [by intros []|]. by intros e ->. Qed.

Lemma raises_only_file_write P path s : P OSError → raises_only P (file_write path s).
Proof. intros. apply raises_only_call; [by intros []|]. by intros e ->. Qed.

Lemma raises_only_file_append P path s : P OSError → raises_only P (file_append path s).
Proof. intros. apply raises_only_call; [by intros []|]. by intros e ->. Qed.

Lemma raises_only_file_read P path : P OSError → raises_only P (file_read path).
Proof. intros. apply raises_only_call; [by intros []|]. by intros e ->. Qed.

Lemma raises_only_zip_create P path : P OSError → raises_only P (zip_create path).
Proof. intros. apply raises_only_call; [by intros []|]. by intros e ->. Qed.

Lemma raises_only_zip_add P path m a : P OSError → raises_only P (zip_add path m a).
Proof. intros. apply raises_only_call; [by intros []|]. by intros e ->. Qed.

Lemma raises_only_raise_for_status P r :
  P RequestException → raises_only P (raise_for_status r).
Proof.
  intros. unfold raise_for_status.
  case_decide; [by apply raises_only_Throw|apply raises_only_Ret].
Qed.
End raises.

#[export] Hint Resolve raises_only_Ret raises_only_mret raises_only_Throw
  raises_only_bind raises_only_try_except raises_only_if raises_only_decide
  raises_only_http raises_only_sleep raises_only_isfile raises_only_random_index
  raises_only_remove raises_only_file_write raises_only_file_append
  raises_only_file_read raises_only_zip_create raises_only_zip_add
  raises_only_raise_for_status : py.

(** One step of a proof that a program raises only what it may: split the
    program at its head and settle the side condition of a call. *)
Ltac raises_step :=
  lazymatch goal with
  | |- raises_only _ (lift_result _ ≫= _) =>
      apply raises_only_lift_bind; [intros ?|intros ? ?]
  | |- raises_only _ (_ ≫= _) => apply raises_only_bind; [|intros ?]
  | |- raises_only _ (try_except _ is_Exception _) => apply raises_only_catch_all; intros ?
  | |- raises_only _ (try_except _ _ _) => apply raises_only_try_except; [|intros ?]
  | |- raises_only _ (if decide _ then _ else _) => apply raises_only_decide
  | |- raises_only _ (if _ then _ else _) => apply raises_only_if
  | |- raises_only _ (lift_result _) => apply raises_only_lift_result; intros ?
  | |- raises_only _ (match ?x with _ => _ end) => destruct x
  | |- raises_only _ (Ret _) => apply raises_only_Ret
  | |- raises_only _ (mret _) => apply raises_only_mret
  | |- raises_only _ (Throw _) => apply raises_only_Throw; by (cbv; auto)
  | |- raises_only _ (http _) => apply raises_only_http; by (cbv; auto)
  | |- raises_only _ (ajp_perform _ _ _ _) => apply raises_only_call; [by intros []|auto]
  | |- raises_only _ (raise_for_status _) =>
      apply raises_only_raise_for_status; by (cbv; auto)
  | |- raises_only _ (sleep _) => apply raises_only_sleep; intros ? ?
  | |- raises_only _ (isfile _) => apply raises_only_isfile
  | |- raises_only _ (random_index _) => apply raises_only_random_index
  | |- raises_only _ (remove _) => apply raises_only_remove; by (cbv; auto)
  | |- raises_only _ (file_write _ _) => apply raises_only_file_write; by (cbv; auto)
  | |- raises_only _ (file_append _ _) => apply raises_only_file_append; by (cbv; auto)
  | |- raises_only _ (file_read _) => apply raises_only_file_read; by (cbv; auto)
  | |- raises_only _ (zip_create _) => apply raises_only_zip_create; by (cbv; auto)
  | |- raises_only _ (zip_add _ _ _) => apply raises_only_zip_add; by (cbv; auto)
  end.
Ltac solve_raises := repeat raises_step.

(** ** The calls a program can make *)

Lemma emits_raise_for_status P r : emits P (raise_for_status r).
Proof. unfold raise_for_status. case_decide; constructor. Qed.

Lemma emits_sleep P v : (∀ z, P (Sleep z)) → emits P (sleep v).
Proof.
  intros HP. destruct v as [|s|z|m]; simpl; [constructor..|by apply emits_call|constructor].
Qed.

(** One step of a proof that a program makes only calls of one kind; the
    side condition on the call is left when it is not immediate. *)
Ltac emits_step :=
  lazymatch goal with
  | |- emits _ (_ ≫= _) => apply emits_bind; [|intros ?]
  | |- emits _ (try_except _ _ _) => apply emits_try_except; [|intros ?]
  | |- emits _ (raise_for_status _) => apply emits_raise_for_status
  | |- emits _ (lift_result ?r) => destruct r; constructor
  | |- emits _ (if ?b then _ else _) => destruct b
  | |- emits _ (match ?x with _ => _ end) => destruct x
  | |- emits _ (Ret _) => constructor
  | |- emits _ (mret _) => constructor
  | |- emits _ (Throw _) => constructor
  | |- emits _ (call _ _) => apply emits_call; simpl; try tauto
  | |- emits _ (http _) => apply emits_call; simpl; try tauto
  | |- emits _ (ajp_perform _ _ _ _) => apply emits_call; simpl; try tauto
  | |- emits _ (sleep _) => apply emits_sleep; intros ?; simpl; try tauto
  | |- emits _ (isfile _) => apply emits_call; simpl; try tauto
  | |- emits _ (random_index _) => apply emits_call; simpl; try tauto
  | |- emits _ (remove _) => apply emits_call; simpl; try tauto
  | |- emits _ (file_write _ _) => apply emits_call; simpl; try tauto
  | |- emits _ (file_append _ _) => apply emits_call; simpl; try tauto
  | |- emits _ (file_read _) => apply emits_call; simpl; try tauto
  | |- emits _ (zip_create _) => apply emits_call; simpl; try tauto
  | |- emits _ (zip_add _ _ _) => apply emits_call; simpl; try tauto
  end.
Ltac solve_emits := repeat emits_step.

(** ** What a program can return *)

Lemma returns_mret_inv {A} (a b : A) : returns (mret a) b → b = a.
Proof. by inversion 1. Qed.

Lemma returns_bind_inv {A B} (p : prog A) (f : A → prog B) b :
  returns (p ≫= f) b → ∃ a, returns p a ∧ returns (f a) b.
Proof.
  induction p as [a|e|ev k IH]; [by exists a; split; [constructor|]|by inversion 1|].
  change (Vis ev k ≫= f) with (Vis ev (λ r, k r ≫= f)).
  intros Hr. inversion Hr as [|ev' k' r b' Hk]; simplify_eq.
  destruct (IH r Hk) as (a & ? & ?). exists a. split; [by econstructor|done].
Qed.

Lemma returns_try_except_inv {A} (p : prog A) handles h a :
  returns (try_except p handles h) a → returns p a ∨ ∃ e, returns (h e) a.
Proof.
  induction p as [a'|e|ev k IH]; simpl; [by left|destruct (handles e); eauto|].
  intros Hr. inversion Hr as [|ev' k' r b' Hk]; simplify_eq.
  destruct (IH r Hk) as [?|?]; [left; by econstructor|by right].
Qed.

(** Sequencing, with the continuation run on the values that can reach
    it. *)
Lemma emits_bind_returns {A B} (P : event → Prop) (p : prog A) (f : A → prog B) :
  emits P p → (∀ a, returns p a → emits P (f a)) → emits P (p ≫= f).
Proof.
  intros Hp. induction Hp as [a|e|ev k Hev _ IH]; intros Hf; [apply Hf; constructor|constructor|].
  change (Vis ev k ≫= f) with (Vis ev (λ r, k r ≫= f)). constructor; [done|].
  intros r. apply IH. intros a Ha. apply Hf. by econstructor.
Qed.

(** ** Programs up to what they do *)

Section equiv.
Context `{Env}.

#[export] Instance prog_equivalence {A} : Equivalence (≡@{prog A}).
Proof.
  split; [by intros p w|by intros p q Hpq w|].
  intros p q r Hpq Hqr w. by rewrite Hpq.
Qed.

#[export] Instance run_proper {A} : Proper ((≡) ==> (=) ==> (=)) (run (A:=A)).
Proof. by intros p q Hpq w ? <-. Qed.

#[export] Instance mbind_proper {A B} :
  Proper (pointwise_relation A (≡) ==> (≡) ==> (≡)) (mbind (M:=prog) (A:=A) (B:=B)).
Proof.
  intros f g Hfg p q Hpq w. rewrite !run_bind, Hpq.
  destruct (run q w) as [[a|e] w']; [apply Hfg|done].
Qed.

#[export] Instance try_except_proper {A} :
  Proper ((≡) ==> (=) ==> pointwise_relation exn (≡) ==> (≡)) (try_except (A:=A)).
Proof.
  intros p q Hpq handles ? <- h h' Hh w. rewrite !run_try_except, Hpq.
  destruct (run q w) as [[a|e] w']; [done|]. destruct (handles e); [apply Hh|done].
Qed.

(** Sequencing with continuations that agree on every value. *)
Lemma bind_ext {A B} (p : prog A) (f g : A → prog B) :
  (∀ a, f a ≡ g a) → p ≫= f ≡ p ≫= g.
Proof. intros Hfg. by apply mbind_proper. Qed.

(** The laws of sequencing. *)
Lemma bind_ret_r {A} (p : prog A) : p ≫= mret ≡ p.
Proof. intros w. rewrite run_bind. by destruct (run p w) as [[a|e] w']. Qed.

Lemma bind_assoc {A B C} (p : prog A) (f : A → prog B) (g : B → prog C) :
  (p ≫= f) ≫= g ≡ p ≫= (λ a, f a ≫= g).
Proof.
  intros w. rewrite !run_bind. destruct (run p w) as [[a|e] w']; [|done].
  by rewrite run_bind.
Qed.

(** A handler that is never entered. *)
Lemma try_except_unhandled {A} (p : prog A) (h : exn → prog A) :
  try_except p (λ _, false) h ≡ p.
Proof. intros w. rewrite run_try_except. by destruct (run p w) as [[a|e] w']. Qed.
End equiv.

(** ** Counting calls *)

Section counting.
Context `{Env}.
Implicit Types (P : event → bool) (w : world) (n m : nat).

Lemma at_most_weaken {A} P n m (p : prog A) : (n ≤ m)%nat → at_most P n p → at_most P m p.
Proof.
  intros Hnm Hp. revert m Hnm.
  induction Hp as [n a|n e|n ev k HP _ IH|n ev k HP _ IH]; intros m Hnm;
    [constructor|constructor| |apply at_most_skip; auto].
  destruct m as [|m]; [lia|]. apply at_most_count; [done|]. intros r. apply IH. lia.
Qed.

Lemma at_most_bind {A B} P n m (p : prog A) (f : A → prog B) :
  at_most P n p → (∀ a, at_most P m (f a)) → at_most P (n + m) (p ≫= f).
Proof.
  intros Hp Hf. induction Hp as [n a|n e|n ev k HP _ IH|n ev k HP _ IH].
  - eapply at_most_weaken; [|apply Hf]. lia.
  - constructor.
  - change (Vis ev k ≫= f) with (Vis ev (λ r, k r ≫= f)). by apply at_most_count.
  - change (Vis ev k ≫= f) with (Vis ev (λ r, k r ≫= f)). by apply at_most_skip.
Qed.

Lemma at_most_try_except {A} P n m (p : prog A) handles (h : exn → prog A) :
  at_most P n p → (∀ e, at_most P m (h e)) → at_most P (n + m) (try_except p handles h).
Proof.
  intros Hp Hh. induction Hp as [n a|n e|n ev k HP _ IH|n ev k HP _ IH].
  - constructor.
  - simpl. destruct (handles e); [|constructor].
    eapply at_most_weaken; [|apply Hh]. lia.
  - simpl. by apply at_most_count.
  - simpl. by apply at_most_skip.
Qed.

Lemma at_most_call {A} P ev (get : answer → option A) :
  at_most P (if P ev then 1 else 0) (call ev get).
Proof.
  destruct (P ev) eqn:HP; [apply at_most_count|apply at_most_skip]; try done;
    (intros [a|e]; [destruct (get a)|]; constructor).
Qed.

Lemma at_most_call0 {A} P ev (get : answer → option A) :
  P ev = false → at_most P 0 (call ev get).
Proof. intros HP. generalize (at_most_call P ev get). by rewrite HP. Qed.

Lemma at_most_call1 {A} P ev (get : answer → option A) : at_most P 1 (call ev get).
Proof. eapply at_most_weaken; [|apply at_most_call]. by destruct (P ev); lia. Qed.

(** The leaves cost nothing, and a branch costs what its dearer side
    costs. *)
Lemma at_most_Ret0 {A} P (a : A) : at_most P 0 (Ret a).
Proof. constructor. Qed.

Lemma at_most_Throw0 {A} P e : at_most P 0 (Throw e : prog A).
Proof. constructor. Qed.

Lemma at_most_if {A} P n m (b : bool) (p q : prog A) :
  at_most P n p → at_most P m q → at_most P (n `max` m) (if b then p else q).
Proof. intros Hp Hq. destruct b; [apply (at_most_weaken P n)|apply (at_most_weaken P m)]; done || lia. Qed.

Lemma at_most_decide {A} P n m `{Decision φ} (p q : prog A) :
  at_most P n p → at_most P m q → at_most P (n `max` m) (if decide φ then p else q).
Proof. intros Hp Hq. case_decide; [apply (at_most_weaken P n)|apply (at_most_weaken P m)]; done || lia. Qed.

Lemma at_most_match_option {A B} P n m (o : option A) (f : A → prog B) (q : prog B) :
  (∀ a, at_most P n (f a)) → at_most P m q →
  at_most P (n `max` m) (match o with Some a => f a | None => q end).
Proof.
  intros Hf Hq. destruct o; [apply (at_most_weaken P n)|apply (at_most_weaken P m)];
    done || lia.
Qed.

Lemma at_most_lift_bind {A B} P n (r : result A) (f : A → prog B) :
  (∀ a, r = Ok a → at_most P n (f a)) → at_most P n (lift_result r ≫= f).
Proof. intros Hf. destruct r; simpl; [by apply Hf|constructor]. Qed.

Lemma at_most_lift_result {A} P (r : result A) : at_most P 0 (lift_result r).
Proof. destruct r; constructor. Qed.

Lemma at_most_raise_for_status P r : at_most P 0 (raise_for_status r).
Proof. unfold raise_for_status. case_decide; constructor. Qed.

(** A program whose calls are all outside [P] makes none of [P]. *)
Lemma emits_at_most {A} P (p : prog A) : emits (λ ev, P ev = false) p → at_most P 0 p.
Proof. induction 1; [constructor..|by apply at_most_skip]. Qed.

Lemma count_exec P w ev :
  count P (exec w ev).2 = ((if P ev then 1 else 0) + count P w)%nat.
Proof. unfold count. rewrite exec_trace. simpl. by destruct (P ev). Qed.

(** The bound holds of every run. *)
Theorem at_most_run {A} P n (p : prog A) w :
  at_most P n p → (count P (run p w).2 ≤ count P w + n)%nat.
Proof.
  intros Hp. revert w.
  induction Hp as [n a|n e|n ev k HP _ IH|n ev k HP _ IH]; intros w;
    [simpl; lia..| |]; rewrite run_Vis; (etrans; [apply IH|]); rewrite count_exec, HP; lia.
Qed.
End counting.

Lemma at_most_sleep0 P v : (∀ z, P (Sleep z) = false) → at_most P 0 (sleep v).
Proof.
  intros HP. destruct v as [|s|z|m]; simpl;
    [apply at_most_Throw0..|by apply at_most_call0|apply at_most_Throw0].
Qed.

Lemma at_most_sleep1 P v : at_most P 1 (sleep v).
Proof.
  destruct v as [|s|z|m]; simpl; [apply at_most_Throw..|apply at_most_call1|apply at_most_Throw].
Qed.

#[export] Hint Constructors at_most : py.

(** One step of a proof that bounds the calls of a program: split it at its
    head, leaving the sum of the parts as the bound. *)
Ltac count_step :=
  lazymatch goal with
  | |- at_most _ _ (_ ≫= _) => eapply at_most_bind; [|intros ?]
  | |- at_most _ _ (try_except _ _ _) => eapply at_most_try_except; [|intros ?]
  | |- at_most _ _ (if decide _ then _ else _) => eapply at_most_decide
  | |- at_most _ _ (if _ then _ else _) => eapply at_most_if
  | |- at_most _ _ (match _ with Some _ => _ | None => _ end) =>
      eapply at_most_match_option; [intros ?|]
  | |- at_most _ _ (match ?x with _ => _ end) => destruct x
  | |- at_most _ _ (raise_for_status _) => apply at_most_raise_for_status
  | |- at_most _ _ (lift_result _) => apply at_most_lift_result
  | |- at_most _ _ (Ret _) => first [apply at_most_Ret0|apply at_most_Ret]
  | |- at_most _ _ (mret _) => first [apply at_most_Ret0|apply at_most_Ret]
  | |- at_most _ _ (Throw _) => first [apply at_most_Throw0|apply at_most_Throw]
  | |- at_most _ _ (call _ _) => first [by apply at_most_call0|apply at_most_call1]
  | |- at_most _ _ (http _) => first [by apply at_most_call0|apply at_most_call1]
  | |- at_most _ _ (ajp_perform _ _ _ _) => first [by apply at_most_call0|apply at_most_call1]
  | |- at_most _ _ (sleep _) => first [by apply at_most_sleep0|apply at_most_sleep1]
  | |- at_most _ _ (isfile _) => first [by apply at_most_call0|apply at_most_call1]
  | |- at_most _ _ (random_index _) => first [by apply at_most_call0|apply at_most_call1]
  | |- at_most _ _ (remove _) => first [by apply at_most_call0|apply at_most_call1]
  | |- at_most _ _ (file_write _ _) => first [by apply at_most_call0|apply at_most_call1]
  | |- at_most _ _ (file_append _ _) => first [by apply at_most_call0|apply at_most_call1]
  | |- at_most _ _ (file_read _) => first [by apply at_most_call0|apply at_most_call1]
  | |- at_most _ _ (zip_create _) => first [by apply at_most_call0|apply at_most_call1]
  | |- at_most _ _ (zip_add _ _ _) => first [by apply at_most_call0|apply at_most_call1]
  end.
Ltac count_calls := repeat count_step.

(** ** What a normal return tells *)

Section inversion.
Context `{Env}.
Implicit Types (w : world) (path : string).

Lemma run_bind_Ok_inv {A B} (p : prog A) (f : A → prog B) w b w' :
  run (p ≫= f) w = (Ok b, w') →
  ∃ a w1, run p w = (Ok a, w1) ∧ run (f a) w1 = (Ok b, w').
Proof. rewrite run_bind. destruct (run p w) as [[a|e] w1]; [eauto|done]. Qed.

(** A file operation that returned was not refused and did what [perform]
    says. *)
Lemma run_unit_Ok ev w w' :
  run (call ev get_unit) w = (Ok (), w') →
  (perform w ev).1 = Ok AUnit ∧ w' = stored w (perform w ev).2 ev.
Proof.
  rewrite run_call. unfold exec. destruct (is_file_op ev && _); [done|].
  destruct (perform w ev) as [[[]|e] disk]; simpl; try done. by intros [= <-].
Qed.

Lemma file_write_Ok path content w w' :
  run (file_write path content) w = (Ok (), w') →
  w' = stored w (<[path := TextFile content]> (fs w)) (FileWrite path content).
Proof. by intros [_ ->]%run_unit_Ok. Qed.

Lemma file_append_Ok path line w w' :
  run (file_append path line) w = (Ok (), w') →
  w' = stored w (<[path := TextFile (text_of (fs w !! path) +:+ line)]> (fs w))
         (FileAppend path line).
Proof. by intros [_ ->]%run_unit_Ok. Qed.

Lemma zip_create_Ok path w w' :
  run (zip_create path) w = (Ok (), w') →
  w' = stored w (<[path := ZipArchive []]> (fs w)) (ZipCreate path).
Proof. by intros [_ ->]%run_unit_Ok. Qed.

Lemma zip_add_Ok path member arcname w w' :
  run (zip_add path member arcname) w = (Ok (), w') →
  ∃ s ms, fs w !! member = Some (TextFile s) ∧ fs w !! path = Some (ZipArchive ms) ∧
    w' = stored w (<[path := ZipArchive (ms ++ [(arcname, s)])]> (fs w))
           (ZipAdd path member arcname).
Proof.
  intros [Hp ->]%run_unit_Ok. simpl in *.
  destruct (fs w !! member) as [[s|]|], (fs w !! path) as [[|ms]|]; try done. eauto.
Qed.

Lemma remove_Ok path w w' :
  run (remove path) w = (Ok (), w') →
  is_Some (fs w !! path) ∧ w' = stored w (delete path (fs w)) (Remove path).
Proof.
  intros [Hp ->]%run_unit_Ok. simpl in *. destruct (fs w !! path); [eauto|done].
Qed.

(** A handler that returns [b] was not entered when the result is not [b]. *)
Lemma try_except_Ok_inv {A} (p : prog A) handles (b a : A) w w' :
  run (try_except p handles (λ _, mret b)) w = (Ok a, w') → a ≠ b →
  run p w = (Ok a, w').
Proof.
  rewrite run_try_except. destruct (run p w) as [[a'|e] w1]; [done|].
  destruct (handles e); [|done]. by intros [= <- <-].
Qed.
End inversion.

(** ** The history of a run *)

Section history.
Context `{Env}.
Implicit Types (w : world) (ev : event).

Lemma calls_logged w ev r : calls (logged w ev r) = calls w ++ [ev].
Proof. unfold calls. simpl. by rewrite reverse_cons. Qed.

Lemma calls_exec w ev : calls (exec w ev).2 = calls w ++ [ev].
Proof. unfold calls. rewrite exec_trace. simpl. by rewrite reverse_cons. Qed.

(** An entry of the history stays in it. *)
Lemma run_trace_elem {A} (p : prog A) w en : en ∈ trace w → en ∈ trace (run p w).2.
Proof.
  intros Hen. destruct (run_trace_suffix p w) as [t ->]. apply elem_of_app. by right.
Qed.

Lemma run_trace_elem_of {A} (p : prog A) w r w' en :
  run p w = (r, w') → en ∈ trace w → en ∈ trace w'.
Proof. intros Hp Hen. change w' with (r, w').2. rewrite <-Hp. by apply run_trace_elem. Qed.

(** The calls of a run extend those made before it, and begin with the
    first call of the program. *)
Lemma run_calls_prefix {A} (p : prog A) w : calls w `prefix_of` calls (run p w).2.
Proof.
  destruct (run_trace_suffix p w) as [t Ht]. unfold calls.
  rewrite Ht, fmap_app, reverse_app. by apply prefix_app_r.
Qed.

Lemma run_first_call {A} (p : prog A) w ev :
  first_call p = Some ev → calls w ++ [ev] `prefix_of` calls (run p w).2.
Proof.
  destruct p as [| |ev' k]; intros [= <-]. rewrite run_Vis, <-calls_exec.
  apply run_calls_prefix.
Qed.

Lemma first_call_bind {A B} (p : prog A) (f : A → prog B) ev :
  first_call p = Some ev → first_call (p ≫= f) = Some ev.
Proof. by destruct p. Qed.

Lemma first_call_try_except {A} (p : prog A) handles h ev :
  first_call p = Some ev → first_call (try_except p handles h) = Some ev.
Proof. by destruct p. Qed.

(** What a run adds to the history are calls the program can make. *)
Lemma run_emits_trace {A} (P : event → Prop) (p : prog A) w :
  emits P p → ∃ t, trace (run p w).2 = t ++ trace w ∧ Forall (λ en, P en.1) t.
Proof.
  intros Hp. revert w. induction Hp as [a|e|ev k Hev _ IH]; intros w;
    [by exists []..|].
  rewrite run_Vis. destruct (IH (exec w ev).1 (exec w ev).2) as (t & -> & Ht).
  exists (t ++ [(ev, (exec w ev).1)]). rewrite exec_trace, <-app_assoc. split; [done|].
  apply Forall_app. split; [done|]. by apply Forall_singleton.
Qed.
End history.
