(* ===== verification/Scenario.v ===== *)
(** * Scenario: concrete environments

    Executable instances of [Env]: a server given by a function of the
    request, with transport errors at chosen requests, an operating system
    that refuses a fixed set of calls, and a random generator that counts
    the history.  The programs of the files that follow are evaluated
    against them on concrete inputs. *)

From stdpp Require Import gmap.
From S2P Require Import Prelude PyStr PyStruct Effects Logic.

(** ** Definitions *)

(** The requests of a history. *)
Definition requests (h : list entry) : nat := length (List.filter is_http h.*1).

(** The outside in which the request number [n] (from 0) ends in a
    transport error when [outage n] and is answered by [server] otherwise,
    the operating system refuses the calls of [denied], and the n-th draw of
    the generator is n. *)
Definition scenario (outage : nat → bool) (server : request → response)
    (denied : event → bool) : Env :=
  {| env_http h req := if outage (requests h) then None else Some (server req);
     env_ajp _ _ _ _ _ := Ok [];
     env_denied _ ev := denied ev;
     env_random h := length h |}.

(** The same outside with a container that answers every AJP exchange with
    [answer]. *)
Definition with_ajp (answer : result (list bytes)) (E : Env) : Env :=
  {| env_http := @env_http E; env_ajp _ _ _ _ _ := answer;
     env_denied := @env_denied E; env_random := @env_random E |}.

(** The same outside with a generator that draws [draw] every time. *)
Definition with_random (draw : nat) (E : Env) : Env :=
  {| env_http := @env_http E; env_ajp := @env_ajp E;
     env_denied := @env_denied E; env_random _ := draw |}.

(** No outage, an outage of the first [n] requests, of request [n] alone,
    and of every request. *)
Definition up (i : nat) : bool := false.
Definition down_until (n i : nat) : bool := (i <? n)%nat.
Definition down_at (n i : nat) : bool := (i =? n)%nat.
Definition down (i : nat) : bool := true.

(** The page a manager application serves. *)
Definition manager_page : string :=
  "<form action='/manager/html/upload?org.apache.catalina.filters.CSRF_NONCE=0A1B2C3D'>".

(** A server that accepts one pair of credentials on every path. *)
Definition tomcat (user pass : string) (req : request) : response :=
  if decide (req_auth req = Some (user, pass))
  then {| status_code := 200; text := manager_page; cookies := [("JSESSIONID", "5E55104")] |}
  else {| status_code := 401; text := ""; cookies := [] |}.

(** The same server with an upload endpoint that answers 500. *)
Definition rejecting (user pass : string) (req : request) : response :=
  match req_verb req with
  | HPOST => {| status_code := 500; text := ""; cookies := [] |}
  | _ => tomcat user pass req
  end.

(** A server that answers every request with one status. *)
Definition always (status : Z) (req : request) : response :=
  {| status_code := status; text := ""; cookies := [] |}.

(** An operating system that refuses nothing, and one that refuses to
    append to [path]. *)
Definition permissive (ev : event) : bool := false.
Definition read_only (path : string) (ev : event) : bool :=
  match ev with FileAppend p _ => bool_decide (p = path) | _ => false end.

(** A server that accepts every PUT and serves what was put. *)
Definition writable (req : request) : response :=
  {| status_code := match req_verb req with HPUT => 201 | _ => 200 end;
     text := ""; cookies := [] |}.

(** The uploads and the removals of a history. *)
Definition is_post (ev : event) : bool :=
  match ev with Http req => bool_decide (req_verb req = HPOST) | _ => false end.
Definition is_put (ev : event) : bool :=
  match ev with Http req => bool_decide (req_verb req = HPUT) | _ => false end.
Definition is_remove (ev : event) : bool :=
  match ev with Remove _ => true | _ => false end.

(** A disk that holds one empty archive. *)
Definition disk_with (war : string) : world :=
  {| fs := {[ war := ZipArchive [] ]}; trace := [] |}.

(** ** Theorems *)

(** With no outage the server answers, and in an outage nothing does. *)
Lemma scenario_up server denied h req :
  @env_http (scenario up server denied) h req = Some (server req).
Proof. done. Qed.

Lemma scenario_down server denied h req :
  @env_http (scenario down server denied) h req = None.
Proof. done. Qed.
