(* ===== verification/Deploy.v ===== *)
(** * Deploy: building and deploying the archive

    [generate_random_string] (src/TomcatScan.py, lines 82-92), [generate_war]
    (96-126), [get_jsessionid_and_csrf_nonce] (130-166) and
    [deploy_godzilla_war] (170-235) as programs over the events of
    [Effects].  Log lines are not modelled.  [BeautifulSoup] is a parameter
    of the development ([Soup]): the theorems hold for every parser. *)

From stdpp Require Import gmap.
From S2P Require Import Prelude PyStr Url Config Effects Logic Scenario.

(** ** Definitions *)

(** What [soup.find('input', {'type': 'file'})] finds in a page: no such
    element, an element without a [name] attribute, or one with it. *)
Class Soup : Type := {
  find_file_input : string → option (option string);
}.

(** A newline. *)
Definition nl : string := String "010"%char "".

(** [str(x)] for an optional string: [None] prints as ["None"]. *)
Definition str_opt (o : option string) : string := default "None" o.

(** [not x] for an optional string: [None] and [""] are false. *)
Definition truthy (o : option string) : bool :=
  match o with Some (String _ _) => true | _ => false end.

(** [string.ascii_letters + string.digits] *)
Definition alphabet : string :=
  "abcdefghijklmnopqrstuvwxyzABCDEFGHIJKLMNOPQRSTUVWXYZ0123456789".

(** [random.choices(population, k=k)] joined: [k] independent draws. *)
Fixpoint random_choices (population : string) (k : nat) : prog string :=
  match k with
  | O => mret ""
  | S k' =>
      i ← random_index (String.length population);
      rest ← random_choices population k';
      mret (String (default "000"%char (String.get i population)) rest)
  end.

(** [generate_random_string(length=6)] *)
Definition generate_random_string (length : nat) : prog string :=
  random_choices alphabet length.

(** The default of [shell_file_content], as the UTF-8 bytes the file gets. *)
Definition default_shell_content : string := "<%-- 默认的 shell.jsp 内容 --%>".

(** [generate_war(config)]: the names of the archive, of the deployed
    context and of the page, or three [None]. *)
Definition generate_war (config : yaml) : prog (option (string * string * string)) :=
  files ← lift_result (getitem config "files");
  shell_content ← lift_result (get files "shell_file_content" (YStr default_shell_content));
  random_string ← generate_random_string 6;
  let war_file_name := random_string +:+ ".war" in
  s ← generate_random_string 6;
  let shell_file_name := s +:+ ".jsp" in
  try_except
    (match shell_content with
     | YStr content => file_write shell_file_name content
     | _ => file_write shell_file_name "";; Throw TypeError
     end;;
     zip_create war_file_name;;
     zip_add war_file_name shell_file_name shell_file_name;;
     remove shell_file_name;;
     mret (Some (war_file_name, random_string, shell_file_name)))
    is_Exception
    (λ _, mret None).

(** [cookies.get(name)] *)
Fixpoint cookie_get (name : string) (jar : list (string * string)) : option string :=
  match jar with
  | [] => None
  | (k, v) :: jar' => if decide (k = name) then Some v else cookie_get name jar'
  end.

(** The character class [[A-F0-9]]. *)
Definition is_upper_hex (c : ascii) : bool := in_chars c "ABCDEF0123456789".

(** The longest prefix made of characters of the class. *)
Fixpoint take_class (cls : ascii → bool) (s : string) : string :=
  match s with
  | String c r => if cls c then String c (take_class cls r) else ""
  | "" => ""
  end.

(** [s[n:]] *)
Fixpoint str_drop (n : nat) (s : string) : string :=
  match n, s with
  | S n', String _ r => str_drop n' r
  | _, _ => s
  end.

(** [re.search(prefix + '([A-F0-9]+)', s)]: group 1 of the leftmost match,
    for a literal [prefix]. *)
Fixpoint search_hex_after (prefix s : string) : option string :=
  let here :=
    if startswith s prefix
    then take_class is_upper_hex (str_drop (String.length prefix) s)
    else "" in
  match here with
  | String _ _ => Some here
  | "" => match s with
          | "" => None
          | String _ r => search_hex_after prefix r
          end
  end.

Definition csrf_prefix : string := "org.apache.catalina.filters.CSRF_NONCE=".

(** A [requests.get] with the arguments the deployment passes. *)
Definition get_request (url : string) (auth : option (string * string))
    (cookies : list (string * string)) (timeout : Z) : request :=
  {| req_verb := HGET; req_url := url; req_auth := auth; req_cookies := cookies;
     req_headers := []; req_data := None; req_files := None; req_timeout := timeout |}.

Section deploy.
Context `{Soup}.

(** [get_jsessionid_and_csrf_nonce(url, username, password)]: the session
    cookie, the nonce, the name of the upload field, and the success flag. *)
Definition get_jsessionid_and_csrf_nonce (url username password : string)
  : prog (option string * option string * option string * bool) :=
  try_except
    (let login_url := url +:+ "/manager/html" in
     response ← http (get_request login_url (Some (username, password)) [] 3);
     raise_for_status response;;
     let jsessionid := cookie_get "JSESSIONID" (cookies response) in
     if negb (truthy jsessionid) then mret (None, None, None, false)
     else
       let csrf_nonce := search_hex_after csrf_prefix (text response) in
       file_field_name ←
         match find_file_input (text response) with
         | Some (Some name) => mret name
         | Some None => Throw KeyError
         | None => mret "file"
         end;
       mret (jsessionid, csrf_nonce, Some file_field_name, true))
    is_RequestException
    (λ _, mret (None, None, None, false)).

(** The cleanup that closes both exits of [deploy_godzilla_war]:
[[
    if os.path.isfile(war_file_path):
        try:
            os.remove(war_file_path)
        except OSError as e:
            logger.error(...)
]] *)
Definition remove_war (war_file_path : string) : prog () :=
  present ← isfile war_file_path;
  if present : bool
  then try_except (remove war_file_path) is_OSError (λ _, mret ())
  else mret ().

(** [os.path.basename] *)
Definition basename (path : string) : string := final (split "/" path).

(** The line a verified deployment adds to the output file. *)
Definition webshell_line (url username password shell_url : string) : string :=
  url +:+ " " +:+ username +:+ ":" +:+ password +:+ " - Webshell: " +:+ shell_url +:+ nl.

Section upload.
Context (url username password war_file_path random_string shell_file_name
         output_file : string)
        (jsessionid csrf_nonce : option string) (file_field_name : string)
        (max_retries : Z) (retry_delay : yaml).

(** The body of the [try] in the loop of [deploy_godzilla_war]: upload,
    check the status, fetch the page, record it. *)
Definition upload_once : prog () :=
  let deploy_url :=
    url +:+ "/manager/html/upload?org.apache.catalina.filters.CSRF_NONCE="
        +:+ str_opt csrf_nonce in
  let cookies := [("JSESSIONID", str_opt jsessionid)] in
  let auth := Some (username, password) in
  war_file ← file_read war_file_path;
  response ← http {|
    req_verb := HPOST; req_url := deploy_url; req_auth := auth;
    req_cookies := cookies; req_headers := []; req_data := None;
    req_files := Some (file_field_name, (basename war_file_path, war_file));
    req_timeout := 3 |};
  raise_for_status response;;
  let shell_url := url +:+ "/" +:+ random_string +:+ "/" +:+ shell_file_name in
  shell_response ← http (get_request shell_url auth cookies 3);
  if decide (status_code shell_response = 200)
  then file_append output_file (webshell_line url username password shell_url)
  else mret ().

(** [while attempt < max_retries: ...]: [fuel] bounds the iterations; with
    [fuel = max_retries - attempt] the bound is never met (see
    [upload_loop_fuel]). *)
Fixpoint upload_loop (fuel : nat) (attempt : Z) : prog () :=
  match fuel with
  | O => mret ()
  | S fuel' =>
      if decide (attempt < max_retries) then
        finished ← try_except (upload_once;; mret true) is_RequestException (λ _, mret false);
        if finished : bool then mret ()
        else
          let attempt := attempt + 1 in
          (if decide (attempt < max_retries) then sleep retry_delay else mret ());;
          upload_loop fuel' attempt
      else mret ()
  end.
End upload.

(** [deploy_godzilla_war(url, username, password, war_file_path,
    random_string, shell_file_name, output_file, max_retries, retry_delay)].
    The two settings are the values of the configuration as they are:
    [attempt < max_retries] raises [TypeError] the first time it is
    evaluated when [max_retries] is no integer, and [retry_delay] is looked
    at by [time.sleep] only. *)
Definition deploy_godzilla_war (url username password war_file_path random_string
    shell_file_name output_file : string) (max_retries retry_delay : yaml) : prog () :=
  let url := clean_url url in
  '(jsessionid, csrf_nonce, file_field_name, success) ←
    get_jsessionid_and_csrf_nonce url username password;
  if negb success then remove_war war_file_path
  else
    limit ← lift_result (as_int max_retries);
    upload_loop url username password war_file_path random_string shell_file_name
      output_file jsessionid csrf_nonce (str_opt file_field_name)
      limit retry_delay (Z.to_nat limit) 0;;
    remove_war war_file_path.
End deploy.

(** A path the scanner generated: a name and one of its two suffixes. *)
Definition generated (suffix path : string) : Prop := ∃ s, path = s +:+ suffix.

(** A whole line: a text that ends with a newline. *)
Definition whole_line (line : string) : Prop := endswith line nl = true.
Arguments whole_line : simpl never.

(** The calls the scan of a target can make: requests, pauses, draws, the
    append of a whole line to the output file, and file operations on pages
    and archives of generated names. *)
Definition footprint (out : string) (ev : event) : Prop :=
  match ev with
  | Http _ | AjpPerform _ _ _ _ | Sleep _ | RandomIndex _ => True
  | FileAppend path line => path = out ∧ whole_line line
  | FileWrite path _ => generated ".jsp" path
  | ZipCreate path => generated ".war" path
  | ZipAdd path member _ => generated ".war" path ∧ generated ".jsp" member
  | Remove path => generated ".jsp" path ∨ generated ".war" path
  | FileRead path | IsFile path => generated ".war" path
  end.

(** ** Whole lines *)

Lemma whole_line_app s t : whole_line t → whole_line (s +:+ t).
Proof.
  unfold whole_line. intros [p ->]%endswith_spec. rewrite <-sapp_assoc.
  apply endswith_app.
Qed.

Lemma whole_line_nl s : whole_line (s +:+ nl).
Proof. apply endswith_app. Qed.

Lemma webshell_line_whole url username password shell_url :
  whole_line (webshell_line url username password shell_url).
Proof. unfold webshell_line. do 6 apply whole_line_app. apply whole_line_nl. Qed.

(** ** Random names *)

Section random.
Context `{Env}.
Implicit Types (w : world) (s population : string).

Lemma get_in_chars i population :
  (i < String.length population)%nat →
  ∃ c, String.get i population = Some c ∧ in_chars c population = true.
Proof.
  revert i. induction population as [|d r IH]; intros i Hi; simpl in *; [lia|].
  destruct i as [|i].
  - exists d. by rewrite decide_True.
  - destruct (IH i ltac:(lia)) as (c & -> & Hc). exists c. split; [done|].
    case_decide; done.
Qed.

Lemma random_choices_S population k :
  random_choices population (S k) =
    i ← random_index (String.length population);
    rest ← random_choices population k;
    mret (String (default "000"%char (String.get i population)) rest).
Proof. done. Qed.

(** [k] draws give [k] characters of the population, and touch no file. *)
Lemma random_choices_spec population k w :
  population ≠ "" →
  ∃ s, (run (random_choices population k) w).1 = Ok s ∧ String.length s = k
       ∧ all_in population s = true ∧ fs (run (random_choices population k) w).2 = fs w.
Proof.
  intros Hp. revert w. induction k as [|k IH]; intros w; [by exists ""|].
  rewrite random_choices_S, run_bind, run_random_index. cbv beta iota zeta.
  rewrite run_bind.
  destruct (IH (logged w (RandomIndex (String.length population))
                  (Ok (ANat (env_random (trace w) `mod` String.length population)%nat))))
    as (s & Hs & Hlen & Hin & Hfs).
  destruct (run (random_choices population k) _) as [r w']. simpl in *. subst r.
  destruct (get_in_chars (env_random (trace w) `mod` String.length population) population)
    as (c & -> & Hc).
  { apply Nat.mod_upper_bound. by destruct population. }
  exists (String c s). simpl. by rewrite Hc, Hin, Hlen.
Qed.

(** The draws are the only calls. *)
Lemma generate_random_string_emits (P : event → Prop) n :
  (∀ k, P (RandomIndex k)) → emits P (generate_random_string n).
Proof.
  intros HP. unfold generate_random_string.
  induction n as [|n IH]; cbn [random_choices]; solve_emits; auto.
Qed.

Lemma generate_random_string_quiet P n :
  (∀ k, P (RandomIndex k) = false) → at_most P 0 (generate_random_string n).
Proof.
  intros HP. unfold generate_random_string. induction n as [|n IH]; [constructor|].
  cbn [random_choices]. apply (at_most_bind P 0 0); [by apply at_most_call0|intros i].
  apply (at_most_bind P 0 0); [apply IH|intros; constructor].
Qed.

Lemma raises_only_generate_random_string P n : raises_only P (generate_random_string n).
Proof.
  unfold generate_random_string.
  induction n as [|n IH]; cbn [random_choices]; solve_raises; apply IH.
Qed.

(** C39. A generated name has the requested length and is alphanumeric. *)
Theorem generate_random_string_spec n w :
  ∃ s, (run (generate_random_string n) w).1 = Ok s ∧ String.length s = n
       ∧ all_in alphabet s = true.
Proof.
  destruct (random_choices_spec alphabet n w) as (s & ? & ? & ? & _); [done|]. eauto.
Qed.
End random.

(** ** Building the archive *)

Section archive.
Context `{Env}.
Implicit Types (w : world) (config : yaml).

(** The two names differ: one ends in [.war], the other in [.jsp]. *)
Lemma war_name_fresh rs s :
  String.length rs = String.length s → rs +:+ ".war" ≠ s +:+ ".jsp".
Proof. by intros Hl [_ [=]]%sapp_inj_length. Qed.

(** What the body of the [try] of [generate_war] leaves when it returns:
    the archive with the page as its only member, and no page. *)
Lemma war_body_Ok {A} war shell content (x y : A) w w' :
  war ≠ shell →
  run (file_write shell content;; zip_create war;; zip_add war shell shell;;
       remove shell;; mret x) w = (Ok y, w') →
  y = x ∧ fs w' !! war = Some (ZipArchive [(shell, content)]) ∧ fs w' !! shell = None.
Proof.
  intros Hne ([] & w1 & ->%file_write_Ok & Hrun)%run_bind_Ok_inv.
  apply run_bind_Ok_inv in Hrun as ([] & w2 & ->%zip_create_Ok & Hrun).
  apply run_bind_Ok_inv in Hrun as ([] & w3 & (s & ms & Hs & Hms & ->)%zip_add_Ok & Hrun).
  apply run_bind_Ok_inv in Hrun as ([] & w4 & [_ ->]%remove_Ok & [= <- <-]).
  simpl in *. rewrite lookup_insert_eq in Hms. injection Hms as <-.
  rewrite lookup_insert_ne, lookup_insert_eq in Hs by done. injection Hs as <-.
  split_and!; [done| |apply lookup_delete_eq].
  by rewrite lookup_delete_ne, lookup_insert_eq.
Qed.

(** A shell content that is no string fails the write: no names come back. *)
Lemma war_body_untyped {A} shell (p : prog A) (x : A) w w' :
  run ((file_write shell "";; (Throw TypeError : prog ()));; p) w ≠ (Ok x, w').
Proof.
  intros (? & ? & (? & ? & _ & [=])%run_bind_Ok_inv & _)%run_bind_Ok_inv.
Qed.

(** Only the lookup of the shell content can make [generate_war] raise. *)
Lemma raises_only_generate_war config :
  raises_only (λ e, e = KeyError ∨ e = TypeError ∨ attribute_error config e)
    (generate_war config).
Proof.
  unfold generate_war. solve_raises;
    first [apply raises_only_generate_random_string
          |intros ?%getitem_raises; tauto
          |eauto using get_files_raises].
Qed.

(** C10. When [generate_war] returns names, the archive is on disk under the
    first, holds the page under the third as its only member, the temporary
    page is gone, and the second is six letters or digits. *)
Theorem generate_war_Some config w war rs shell w' :
  run (generate_war config) w = (Ok (Some (war, rs, shell)), w') →
  war = rs +:+ ".war" ∧ String.length rs = 6%nat ∧ all_in alphabet rs = true ∧
  (∃ content, fs w' !! war = Some (ZipArchive [(shell, content)])) ∧
  fs w' !! shell = None.
Proof.
  unfold generate_war. intros (files & w0 & _ & Hrun)%run_bind_Ok_inv.
  apply run_bind_Ok_inv in Hrun as (sc & w1 & _ & Hrun).
  apply run_bind_Ok_inv in Hrun as (rs' & w2 & Hrs & Hrun).
  apply run_bind_Ok_inv in Hrun as (s & w3 & Hs & Hrun).
  apply try_except_Ok_inv in Hrun; [|done].
  destruct (random_choices_spec alphabet 6 w1) as (? & Hrs' & Hlen & Hin & _); [done|].
  destruct (random_choices_spec alphabet 6 w2) as (? & Hs' & Hlen' & _); [done|].
  unfold generate_random_string in *. rewrite Hrs in Hrs'. rewrite Hs in Hs'.
  simpl in Hrs', Hs'. simplify_eq.
  destruct sc; try by apply war_body_untyped in Hrun.
  apply war_body_Ok in Hrun as ([= -> -> ->] & Hwar & Hshell);
    [eauto 10|apply war_name_fresh; congruence].
Qed.
End archive.

(** ** The life of the archive *)

(** The archive is gone, or the operating system refused to remove it (the
    case the source logs). *)
Definition war_gone (war_file_path : string) (w : world) : Prop :=
  fs w !! war_file_path = None ∨ (Remove war_file_path, Raise OSError) ∈ trace w.

Section lifecycle.
Context `{Env} `{Soup}.
Implicit Types (w : world) (url username password war : string).

(** The cleanup returns, and the archive is gone when it does. *)
Lemma remove_war_spec war w :
  (run (remove_war war) w).1 = Ok () ∧ war_gone war (run (remove_war war) w).2.
Proof.
  unfold remove_war, war_gone. rewrite run_bind, run_isfile. cbv beta iota zeta.
  case_bool_decide as Hp; [|split; [done|left; by apply eq_None_not_Some]].
  rewrite run_try_except.
  destruct (env_denied (trace (logged w (IsFile war) (Ok (ABool true)))) (Remove war)) eqn:Hd.
  - unfold remove. rewrite run_denied by done. split; [done|right; simpl; left].
  - rewrite run_remove by done. destruct Hp as [f Hf]. simpl. rewrite Hf.
    split; [done|left; apply lookup_delete_eq].
Qed.

Lemma raises_only_remove_war P war : raises_only P (remove_war war).
Proof. unfold remove_war. solve_raises. Qed.

(** The session request raises nothing but the [KeyError] of an upload
    field without a name. *)
Lemma raises_only_get_jsessionid url username password :
  raises_only (λ e, e = KeyError) (get_jsessionid_and_csrf_nonce url username password).
Proof. unfold get_jsessionid_and_csrf_nonce. solve_raises. Qed.

Lemma raises_only_upload_once url username password war rs shell out js csrf ffn :
  raises_only (λ e, if is_RequestException e then True else e = OSError)
    (upload_once url username password war rs shell out js csrf ffn).
Proof. unfold upload_once. solve_raises. Qed.

(** The upload loop raises nothing but [OSError] and what the pause
    raises. *)
Lemma raises_only_upload_loop url username password war rs shell out js csrf ffn
    max_retries retry_delay fuel attempt :
  raises_only (λ e, e = OSError ∨ delay_error retry_delay e)
    (upload_loop url username password war rs shell out js csrf ffn
       max_retries retry_delay fuel attempt).
Proof.
  revert attempt. induction fuel as [|fuel IH]; intros attempt;
    cbn [upload_loop]; solve_raises; first [by right|apply IH|idtac].
  all: eapply raises_only_weaken; [|apply raises_only_upload_once].
  all: intros e; simpl; destruct (is_RequestException e); auto.
Qed.

Lemma raises_only_deploy url username password war rs shell out max_retries retry_delay :
  raises_only (λ e, e = KeyError ∨ e = OSError ∨
                    limit_error max_retries e ∨ delay_error retry_delay e)
    (deploy_godzilla_war url username password war rs shell out max_retries retry_delay).
Proof.
  unfold deploy_godzilla_war. apply raises_only_bind.
  - eapply raises_only_weaken; [|apply raises_only_get_jsessionid]. auto.
  - intros [[[js csrf] ffn] success]. apply raises_only_if; [apply raises_only_remove_war|].
    apply raises_only_lift_bind; [intros e ?%as_int_raises; auto|intros limit _].
    apply raises_only_bind; [|intros; apply raises_only_remove_war].
    eapply raises_only_weaken; [|apply raises_only_upload_loop]. intros e. simpl. tauto.
Qed.

(** C19. Whatever the servers and the disk do, the deployment returns or raises
    [KeyError] (an upload field without a name), [OSError] (the archive
    cannot be read, the output file cannot be appended), or what its two
    settings make Python raise: [TypeError] for a [max_retries] or a
    [retry_delay] that is no integer, [ValueError] for a negative
    [retry_delay].  With a count and a delay that is not negative, [KeyError]
    and [OSError] are all there is. *)
Theorem deploy_raises url username password war rs shell out max_retries retry_delay :
  raises_only (λ e, e = KeyError ∨ e = OSError ∨
                    limit_error max_retries e ∨ delay_error retry_delay e)
    (deploy_godzilla_war url username password war rs shell out max_retries retry_delay).
Proof. apply raises_only_deploy. Qed.

(** C1. When the deployment returns, the archive is gone: on the failure of the
    session request, after the upload, and after the last retry. *)
Theorem deploy_removes_war url username password war rs shell out max_retries
    retry_delay w :
  let rw := run (deploy_godzilla_war url username password war rs shell out
                   max_retries retry_delay) w in
  rw.1 = Ok () → war_gone war rw.2.
Proof.
  unfold deploy_godzilla_war. rewrite run_bind.
  destruct (run (get_jsessionid_and_csrf_nonce _ _ _) w)
    as [[[[[js csrf] ffn] success]|e] w1]; [|done].
  destruct success; cbv beta iota zeta; simpl negb; cbv iota.
  - rewrite run_lift_bind. destruct (as_int max_retries) as [limit|e]; [|done].
    rewrite run_bind. destruct (run (upload_loop _ _ _ _ _ _ _ _ _ _ _ _ _ _) w1)
      as [[[]|e] w2]; [|done].
    intros _. apply remove_war_spec.
  - intros _. apply remove_war_spec.
Qed.
End lifecycle.

(** ** The retry loop *)

Section loop.
Context `{Env}.
Context (url username password war rs shell out : string) (js csrf : option string)
        (ffn : string) (max_retries : Z) (retry_delay : yaml).
#[local] Abbreviation loop :=
  (upload_loop url username password war rs shell out js csrf ffn max_retries retry_delay).
#[local] Abbreviation once := (upload_once url username password war rs shell out js csrf ffn).

(** Past the last attempt the loop does nothing. *)
Lemma upload_loop_done fuel attempt : max_retries ≤ attempt → loop fuel attempt = mret ().
Proof. intros. destruct fuel; [done|]. cbn [upload_loop]. by rewrite decide_False by lia. Qed.

(** Before it the loop makes an attempt, and goes on when it failed. *)
Lemma upload_loop_S fuel attempt :
  attempt < max_retries →
  loop (S fuel) attempt =
    finished ← try_except (once;; mret true) is_RequestException (λ _, mret false);
    if finished : bool then mret ()
    else (if decide (attempt + 1 < max_retries) then sleep retry_delay else mret ());;
         loop fuel (attempt + 1).
Proof. intros. cbn [upload_loop]. by rewrite decide_True. Qed.

(** C27. The loop needs no more fuel than the attempts that are left: the fuel
    [deploy_godzilla_war] gives it is never the reason it stops. *)
Theorem upload_loop_fuel fuel attempt :
  max_retries - attempt ≤ Z.of_nat fuel →
  upload_loop url username password war rs shell out js csrf ffn max_retries retry_delay
    fuel attempt
  ≡ upload_loop url username password war rs shell out js csrf ffn max_retries retry_delay
      (Z.to_nat (max_retries - attempt)) attempt.
Proof.
  revert attempt. induction fuel as [|fuel IH]; intros attempt Hf.
  { by rewrite !upload_loop_done by lia. }
  destruct (decide (attempt < max_retries)); [|by rewrite !upload_loop_done by lia].
  replace (Z.to_nat (max_retries - attempt))
    with (S (Z.to_nat (max_retries - (attempt + 1)))) by lia.
  rewrite !upload_loop_S by done. apply bind_ext. intros [|]; [done|]. cbv zeta. apply bind_ext. intros _. apply IH. lia.
Qed.

(** One attempt makes two requests at most. *)
Lemma upload_once_requests : at_most is_http 2 once.
Proof. eapply at_most_weaken; [|unfold upload_once; count_calls]. simpl. lia. Qed.

Lemma upload_loop_requests fuel attempt : at_most is_http (2 * fuel) (loop fuel attempt).
Proof.
  revert attempt. induction fuel as [|fuel IH]; intros attempt; [constructor|].
  eapply at_most_weaken;
    [|cbn [upload_loop]; count_calls; [apply upload_once_requests|apply IH]].
  simpl. lia.
Qed.

(** The loop pauses between attempts, not after the last. *)
Lemma upload_loop_sleeps fuel attempt :
  at_most is_sleep (Z.to_nat (max_retries - attempt - 1)) (loop fuel attempt).
Proof.
  revert attempt. induction fuel as [|fuel IH]; intros attempt; [constructor|].
  cbn [upload_loop]. case_decide; [|constructor].
  destruct (decide (attempt + 1 < max_retries)); cbv beta iota;
    (eapply at_most_weaken; [|count_calls; [unfold upload_once; count_calls|apply IH]]);
    simpl; lia.
Qed.
End loop.

(** ** The calls of a deployment *)

Section bounds.
Context `{Env} `{Soup}.
Implicit Types (w : world) (url username password war out : string).

Lemma get_jsessionid_requests url username password :
  at_most is_http 1 (get_jsessionid_and_csrf_nonce url username password).
Proof.
  eapply at_most_weaken; [|unfold get_jsessionid_and_csrf_nonce; count_calls]. simpl. lia.
Qed.

Lemma remove_war_quiet P war :
  P (IsFile war) = false → P (Remove war) = false → at_most P 0 (remove_war war).
Proof.
  intros. eapply at_most_weaken; [|unfold remove_war; count_calls]. simpl. lia.
Qed.

(** The calls of the loop and of the cleanup that follows it. *)
Lemma upload_requests url username password war rs shell out js csrf ffn max_retries
    retry_delay :
  at_most is_http (2 * Z.to_nat (turns max_retries))
    (limit ← lift_result (as_int max_retries);
     upload_loop url username password war rs shell out js csrf ffn limit retry_delay
       (Z.to_nat limit) 0;;
     remove_war war).
Proof.
  apply at_most_lift_bind. intros limit ->%as_int_turns.
  eapply at_most_weaken; [|count_calls; [apply upload_loop_requests|by apply remove_war_quiet]].
  lia.
Qed.

Lemma upload_sleeps url username password war rs shell out js csrf ffn max_retries
    retry_delay :
  at_most is_sleep (Z.to_nat (turns max_retries - 1))
    (limit ← lift_result (as_int max_retries);
     upload_loop url username password war rs shell out js csrf ffn limit retry_delay
       (Z.to_nat limit) 0;;
     remove_war war).
Proof.
  apply at_most_lift_bind. intros limit ->%as_int_turns.
  eapply at_most_weaken; [|count_calls; [apply upload_loop_sleeps|by apply remove_war_quiet]].
  lia.
Qed.

(** C24. A deployment makes at most one request for the session and two for
    each attempt, and pauses between attempts only; with a count that is no
    integer it makes the request for the session and stops. *)
Theorem deploy_requests url username password war rs shell out max_retries retry_delay w :
  let w' := (run (deploy_godzilla_war url username password war rs shell out
                    max_retries retry_delay) w).2 in
  (count is_http w' ≤ count is_http w + (1 + 2 * Z.to_nat (turns max_retries)))%nat ∧
  (count is_sleep w' ≤ count is_sleep w + Z.to_nat (turns max_retries - 1))%nat.
Proof.
  split; apply at_most_run; unfold deploy_godzilla_war.
  - apply at_most_bind; [apply get_jsessionid_requests|intros [[[js csrf] ffn] success]].
    destruct success; simpl negb; cbv iota; [apply upload_requests|].
    eapply at_most_weaken; [|by apply remove_war_quiet]. lia.
  - apply (at_most_bind _ 0).
    { eapply at_most_weaken; [|unfold get_jsessionid_and_csrf_nonce; count_calls]. simpl. lia. }
    intros [[[js csrf] ffn] success].
    destruct success; simpl negb; cbv iota; [apply upload_sleeps|].
    eapply at_most_weaken; [|by apply remove_war_quiet]. lia.
Qed.

(** The calls before the cleanup leave the archive alone. *)
Lemma get_jsessionid_keeps url username password war :
  emits (λ ev, ¬ touches war ev) (get_jsessionid_and_csrf_nonce url username password).
Proof. unfold get_jsessionid_and_csrf_nonce. solve_emits. Qed.

Lemma upload_loop_keeps url username password war rs shell out js csrf ffn max_retries
    retry_delay fuel attempt :
  out ≠ war →
  emits (λ ev, ¬ touches war ev)
    (upload_loop url username password war rs shell out js csrf ffn max_retries
       retry_delay fuel attempt).
Proof.
  intros Hne. revert attempt. induction fuel as [|fuel IH]; intros attempt;
    cbn [upload_loop]; [constructor|]. unfold upload_once. solve_emits. apply IH.
Qed.

(** C7. A deployment that raises leaves the archive on disk: the cleanup is
    the last statement of the function, not the [finally] of a [try]. *)
Theorem deploy_raise_keeps_war url username password war rs shell out max_retries
    retry_delay w e :
  let rw := run (deploy_godzilla_war url username password war rs shell out
                   max_retries retry_delay) w in
  out ≠ war → rw.1 = Raise e → fs rw.2 !! war = fs w !! war.
Proof.
  intros rw Hne. subst rw. unfold deploy_godzilla_war. rewrite run_bind.
  pose proof (run_fs_lookup (get_jsessionid_and_csrf_nonce (clean_url url) username
    password) w war (get_jsessionid_keeps _ _ _ _)) as Hget.
  destruct (run (get_jsessionid_and_csrf_nonce _ _ _) w)
    as [[[[[js csrf] ffn] success]|e'] w1]; [|done].
  destruct success; cbv beta iota zeta; simpl negb; cbv iota;
    [|by rewrite (proj1 (remove_war_spec war w1))].
  rewrite run_lift_bind. destruct (as_int max_retries) as [limit|e']; [|intros _; exact Hget].
  rewrite run_bind.
  pose proof (run_fs_lookup (upload_loop (clean_url url) username password war rs shell
    out js csrf (str_opt ffn) limit retry_delay (Z.to_nat limit) 0) w1 war
    (upload_loop_keeps _ _ _ _ _ _ _ _ _ _ _ _ _ _ Hne)) as Hloop.
  destruct (run (upload_loop _ _ _ _ _ _ _ _ _ _ _ _ _ _) w1) as [[[]|e'] w2];
    [by rewrite (proj1 (remove_war_spec war w2))|]. simpl in *. congruence.
Qed.
End bounds.

(** ** The footprint *)

Section footprint.
Context `{Soup}.
Implicit Types (out war : string) (config : yaml).

(** The names of a build that succeeded. *)
Lemma generate_war_returns config war rs shell :
  returns (generate_war config) (Some (war, rs, shell)) → war = rs +:+ ".war".
Proof.
  unfold generate_war. intros (files & _ & Hr)%returns_bind_inv.
  apply returns_bind_inv in Hr as (content & _ & Hr).
  apply returns_bind_inv in Hr as (rs' & _ & Hr).
  apply returns_bind_inv in Hr as (s & _ & Hr).
  apply returns_try_except_inv in Hr as [Hr|[e Hr%returns_mret_inv]]; [|done].
  apply returns_bind_inv in Hr as (? & _ & Hr).
  apply returns_bind_inv in Hr as (? & _ & Hr).
  apply returns_bind_inv in Hr as (? & _ & Hr).
  apply returns_bind_inv in Hr as (? & _ & Hr%returns_mret_inv). by injection Hr as -> -> ->.
Qed.

Lemma generate_war_footprint out config : emits (footprint out) (generate_war config).
Proof.
  unfold generate_war. solve_emits;
    first [by apply generate_random_string_emits|by eexists|by split; eexists
          |by left; eexists].
Qed.

Lemma deploy_footprint out url username password war rs shell max_retries retry_delay :
  generated ".war" war →
  emits (footprint out)
    (deploy_godzilla_war url username password war rs shell out max_retries retry_delay).
Proof.
  intros Hwar. assert (emits (footprint out) (remove_war war)) as Hremove.
  { unfold remove_war. solve_emits. }
  assert (∀ js csrf ffn limit fuel attempt, emits (footprint out)
    (upload_loop (clean_url url) username password war rs shell out js csrf ffn
       limit retry_delay fuel attempt)) as Hloop.
  { intros js csrf ffn limit fuel. induction fuel as [|fuel IH]; intros attempt;
      cbn [upload_loop]; [constructor|]. unfold upload_once.
    solve_emits; first [apply IH|by split; [|apply webshell_line_whole]]. }
  unfold deploy_godzilla_war, get_jsessionid_and_csrf_nonce. solve_emits; auto.
Qed.
End footprint.

(** ** The deployment on concrete inputs *)

(** A page whose upload field is named, one without such a field, and one
    whose field has no name. *)
Definition soup_named : Soup := {| find_file_input _ := Some (Some "deployWar") |}.
Definition soup_absent : Soup := {| find_file_input _ := None |}.
Definition soup_nameless : Soup := {| find_file_input _ := Some None |}.

(** The deployment of [abc.war] on a server that accepts [tomcat:s3cret]. *)
Definition sample_deploy_with (soup : Soup) (max_retries retry_delay : yaml) : prog () :=
  @deploy_godzilla_war soup "http://10.0.0.5:8080" "tomcat" "s3cret" "abc.war" "abc"
    "xyz.jsp" "out.txt" max_retries retry_delay.
Definition sample_deploy (soup : Soup) : prog () := sample_deploy_with soup (YInt 3) (YInt 1).

Lemma deploy_removes_war_witness :
  war_gone "abc.war"
    (@run (scenario up (tomcat "tomcat" "s3cret") permissive) _
       (sample_deploy soup_named) (disk_with "abc.war")).2.
Proof.
  apply (@deploy_removes_war (scenario up (tomcat "tomcat" "s3cret") permissive) soup_named
           "http://10.0.0.5:8080" "tomcat" "s3cret" "abc.war" "abc" "xyz.jsp" "out.txt"
           (YInt 3) (YInt 1) (disk_with "abc.war")).
  by vm_compute.
Defined.

(** On that server the deployment records the shell and leaves no archive. *)
Example deploy_accepted :
  let rw := @run (scenario up (tomcat "tomcat" "s3cret") permissive) _
              (sample_deploy soup_named) (disk_with "abc.war") in
  rw.1 = Ok () ∧ fs rw.2 !! "abc.war" = None ∧
  fs rw.2 !! "out.txt" = Some (TextFile (webshell_line "http://10.0.0.5:8080" "tomcat"
    "s3cret" "http://10.0.0.5:8080/abc/xyz.jsp")) ∧ count is_post rw.2 = 1%nat.
Proof. by vm_compute. Qed.

(** With the default generator and a permissive disk the archive is built. *)
Lemma generate_war_Some_witness :
  "abcdef.war" = "abcdef" +:+ ".war" ∧ String.length "abcdef" = 6%nat ∧
  all_in alphabet "abcdef" = true ∧
  (∃ content,
     fs (@run (scenario up (always 200) permissive) _ (generate_war sample_config) initial).2
       !! "abcdef.war" = Some (ZipArchive [("ghijkl.jsp", content)])) ∧
  fs (@run (scenario up (always 200) permissive) _ (generate_war sample_config) initial).2
    !! "ghijkl.jsp" = None.
Proof.
  apply (@generate_war_Some (scenario up (always 200) permissive) sample_config initial).
  by vm_compute.
Defined.

Lemma upload_loop_fuel_witness :
  @equiv _ (@prog_equiv (scenario up (always 200) permissive) ())
    (upload_loop "http://h" "u" "p" "a.war" "a" "x.jsp" "out.txt" None None "file" 3 (YInt 1)
       5 0)
    (upload_loop "http://h" "u" "p" "a.war" "a" "x.jsp" "out.txt" None None "file" 3 (YInt 1)
       (Z.to_nat (3 - 0)) 0).
Proof.
  apply (@upload_loop_fuel (scenario up (always 200) permissive)). simpl. lia.
Defined.

(** A disk that refuses the output line: the deployment raises after the
    upload, and the archive stays. *)
Lemma deploy_raise_keeps_war_witness :
  fs (@run (scenario up (tomcat "tomcat" "s3cret") (read_only "out.txt")) _
        (sample_deploy soup_named) (disk_with "abc.war")).2 !! "abc.war"
  = fs (disk_with "abc.war") !! "abc.war".
Proof.
  apply (@deploy_raise_keeps_war (scenario up (tomcat "tomcat" "s3cret") (read_only "out.txt"))
           soup_named "http://10.0.0.5:8080" "tomcat" "s3cret" "abc.war" "abc" "xyz.jsp"
           "out.txt" (YInt 3) (YInt 1) (disk_with "abc.war") OSError); [done|by vm_compute].
Defined.

Example deploy_leaks_on_OSError :
  let rw := @run (scenario up (tomcat "tomcat" "s3cret") (read_only "out.txt")) _
              (sample_deploy soup_named) (disk_with "abc.war") in
  rw.1 = Raise OSError ∧ fs rw.2 !! "abc.war" = Some (ZipArchive []) ∧
  count is_remove rw.2 = 0%nat.
Proof. by vm_compute. Qed.

(** An upload field without a name: [KeyError] leaves the function before
    the upload, and the archive stays. *)
Example deploy_leaks_on_KeyError :
  let rw := @run (scenario up (tomcat "tomcat" "s3cret") permissive) _
              (sample_deploy soup_nameless) (disk_with "abc.war") in
  rw.1 = Raise KeyError ∧ fs rw.2 !! "abc.war" = Some (ZipArchive []) ∧
  count is_post rw.2 = 0%nat.
Proof. by vm_compute. Qed.

(** A status of 500 on the upload is retried like a transport error: three
    uploads and two pauses for [max_retries = 3]. *)
Example deploy_retries_on_status :
  let rw := @run (scenario up (rejecting "tomcat" "s3cret") permissive) _
              (sample_deploy soup_named) (disk_with "abc.war") in
  rw.1 = Ok () ∧ count is_post rw.2 = 3%nat ∧ count is_sleep rw.2 = 2%nat ∧
  fs rw.2 !! "abc.war" = None.
Proof. by vm_compute. Qed.

(** A disk that refuses the archive: no names come back and the page
    stays. *)
Example generate_war_leaves_page :
  let rw := @run (scenario up (always 200)
                    (λ ev, match ev with ZipCreate _ => true | _ => false end)) _
              (generate_war sample_config) initial in
  rw.1 = Ok None ∧ fs rw.2 !! "ghijkl.jsp" = Some (TextFile "<% out.print(1); %>").
Proof. by vm_compute. Qed.

(** A negative [retry_delay]: [time.sleep] raises [ValueError] in the pause
    after the first failed upload, outside the [try]; the deployment ends
    there and the archive stays. *)
Example deploy_negative_delay :
  let rw := @run (scenario up (rejecting "tomcat" "s3cret") permissive) _
              (sample_deploy_with soup_named (YInt 3) (YInt (-1))) (disk_with "abc.war") in
  rw.1 = Raise ValueError ∧ fs rw.2 !! "abc.war" = Some (ZipArchive []) ∧
  count is_post rw.2 = 1%nat.
Proof. by vm_compute. Qed.

(** A [max_retries] that is a string: the first comparison raises
    [TypeError] after the session request; nothing is uploaded and the
    archive stays.  When the session request fails the setting is never
    looked at, and the deployment returns. *)
Example deploy_untyped_count :
  let rw := @run (scenario up (tomcat "tomcat" "s3cret") permissive) _
              (sample_deploy_with soup_named (YStr "3") (YInt 1)) (disk_with "abc.war") in
  let rw' := @run (scenario up (always 401) permissive) _
               (sample_deploy_with soup_named (YStr "3") (YInt 1)) (disk_with "abc.war") in
  (rw.1 = Raise TypeError ∧ fs rw.2 !! "abc.war" = Some (ZipArchive []) ∧
   count is_http rw.2 = 1%nat) ∧
  (rw'.1 = Ok () ∧ fs rw'.2 !! "abc.war" = None).
Proof. by vm_compute. Qed.
