(* ===== verification/Threads.v ===== *)
(** * Threads: tasks on a pool of workers

    [ThreadPoolExecutor(max_workers=workers)] with the tasks [main] submits
    to it (src/TomcatScan.py, lines 610-617).  A task is a program; the pool
    holds the tasks that wait, the tasks a worker is running, and the
    results of those that ended.  One step starts a waiting task on a free
    worker, lets a running task make its next call, or collects a task that
    returned or raised: the calls of the running tasks interleave in every
    order, and each call is atomic.

    [pool_step] is the relation of these steps; [run_pool] is a scheduler
    that follows a list of choices and computes one of its runs.  The
    theorems are the invariants of every run (the tasks, the workers, the
    history, what the tasks' calls preserve, the exceptions they end with)
    and its termination. *)

From stdpp Require Import gmap.
From S2P Require Import Prelude PyStr Effects Logic.

(** ** Definitions *)

Record pool : Type := Pool {
  queued : list (prog ());       (* submitted, not yet started, first first *)
  running : list (prog ());      (* what is left of the tasks on a worker *)
  finished : list (result ());   (* the results, in the order of completion *)
}.

(** The pool after [executor.submit] of every task. *)
Definition submitted (tasks : list (prog ())) : pool :=
  {| queued := tasks; running := []; finished := [] |}.

(** Every task ended. *)
Definition drained (s : pool) : bool :=
  bool_decide (length (queued s) = 0%nat) && bool_decide (length (running s) = 0%nat).

(** The tasks of a pool, ended or not. *)
Definition population (s : pool) : nat :=
  (length (queued s) + length (running s) + length (finished s))%nat.

(** What [future.result()] in the loop of [main] does to [main]: the first
    exception in the order of completion is raised again. *)
Fixpoint first_exception (results : list (result ())) : result () :=
  match results with
  | [] => Ok ()
  | Ok _ :: rest => first_exception rest
  | Raise e :: _ => Raise e
  end.

(** A task that ended. *)
Definition ended (p : prog ()) : Prop :=
  match p with Vis _ _ => False | _ => True end.

(** [shrink r' r]: one task of [r] went on, whatever it was answered, or
    ended and left. *)
Inductive shrink : list (prog ()) → list (prog ()) → Prop :=
  | shrink_call i ev k a r : r !! i = Some (Vis ev k) → shrink (<[i := k a]> r) r
  | shrink_end i p r : r !! i = Some p → ended p → shrink (delete i r) r.

Section pool.
Context `{Env}.
Variable workers : nat.

Inductive pool_step : pool * world → pool * world → Prop :=
  | step_start t q r d w :
      (length r < workers)%nat →
      pool_step (Pool (t :: q) r d, w) (Pool q (r ++ [t]) d, w)
  | step_call i ev k q r d w :
      r !! i = Some (Vis ev k) →
      pool_step (Pool q r d, w) (Pool q (<[i := k (exec w ev).1]> r) d, (exec w ev).2)
  | step_return i a q r d w :
      r !! i = Some (Ret a) →
      pool_step (Pool q r d, w) (Pool q (delete i r) (d ++ [Ok a]), w)
  | step_raise i e q r d w :
      r !! i = Some (Throw e) →
      pool_step (Pool q r d, w) (Pool q (delete i r) (d ++ [Raise e]), w).

(** The step of the running task number [i]. *)
Definition step_running (i : nat) (s : pool) (w : world) : option (pool * world) :=
  match running s !! i with
  | Some (Vis ev k) =>
      Some (Pool (queued s) (<[i := k (exec w ev).1]> (running s)) (finished s),
            (exec w ev).2)
  | Some (Ret a) =>
      Some (Pool (queued s) (delete i (running s)) (finished s ++ [Ok a]), w)
  | Some (Throw e) =>
      Some (Pool (queued s) (delete i (running s)) (finished s ++ [Raise e]), w)
  | None => None
  end.

(** One step of a scheduler that starts a waiting task as soon as a worker
    is free, and otherwise lets the running task number
    [choice mod length running] go on. *)
Definition schedule_step (choice : nat) (s : pool) (w : world) : option (pool * world) :=
  match queued s with
  | t :: q =>
      if decide (length (running s) < workers)%nat
      then Some (Pool q (running s ++ [t]) (finished s), w)
      else step_running (choice `mod` length (running s)) s w
  | [] => step_running (choice `mod` length (running s)) s w
  end.

(** The run that follows [choices], as far as they go. *)
Fixpoint run_pool (choices : list nat) (s : pool) (w : world) : pool * world :=
  match choices with
  | [] => (s, w)
  | c :: choices' =>
      match schedule_step c s w with
      | Some (s', w') => run_pool choices' s' w'
      | None => (s, w)
      end
  end.

(** Every task of the pool makes calls of [P] only. *)
Definition tasks_emit (P : event → Prop) (s : pool) : Prop :=
  Forall (emits P) (queued s) ∧ Forall (emits P) (running s).

(** Every task of the pool raises only exceptions of [P], and so did the
    tasks that ended. *)
Definition tasks_raise (P : exn → Prop) (s : pool) : Prop :=
  Forall (raises_only P) (queued s) ∧ Forall (raises_only P) (running s) ∧
  Forall (λ r, ∀ e, r = Raise e → P e) (finished s).

(** The tasks one after the other: the run of a pool of one worker. *)
Fixpoint run_all (tasks : list (prog ())) (w : world) : list (result ()) * world :=
  match tasks with
  | [] => ([], w)
  | t :: tasks' =>
      let '(r, w1) := run t w in
      let '(rs, w2) := run_all tasks' w1 in
      (r :: rs, w2)
  end.

(** ** The scheduler follows the relation *)

Lemma step_running_sound i s w s' w' :
  step_running i s w = Some (s', w') → pool_step (s, w) (s', w').
Proof.
  unfold step_running. destruct s as [q r d]. simpl.
  destruct (r !! i) as [[a|e|ev k]|] eqn:Hi; intros [= <- <-];
    [by eapply step_return|by eapply step_raise|by eapply step_call].
Qed.

Lemma schedule_step_sound c s w s' w' :
  schedule_step c s w = Some (s', w') → pool_step (s, w) (s', w').
Proof.
  unfold schedule_step. destruct s as [[|t q] r d]; simpl;
    [apply step_running_sound|].
  case_decide; [|apply (step_running_sound _ (Pool (t :: q) r d))].
  intros [= <- <-]. by constructor.
Qed.

(** What the scheduler computes is a run of the pool. *)
Lemma run_pool_steps choices s w : rtc pool_step (s, w) (run_pool choices s w).
Proof.
  revert s w. induction choices as [|c choices IH]; intros s w; simpl; [done|].
  destruct (schedule_step c s w) as [[s' w']|] eqn:Hc; [|done].
  eapply rtc_l; [by eapply schedule_step_sound|apply IH].
Qed.


(** ** Invariants of every run *)

(** No task is lost and none is made up. *)
Lemma pool_step_population s w s' w' :
  pool_step (s, w) (s', w') → population s' = population s.
Proof.
  unfold population. inversion 1; subst; simpl;
    rewrite ?length_app, ?length_insert, ?length_delete by eauto; simpl; try lia.
  all: assert (i < length r)%nat by (by eapply lookup_lt_Some); lia.
Qed.

(** No more tasks run than there are workers. *)
Lemma pool_step_bound s w s' w' :
  pool_step (s, w) (s', w') →
  (length (running s) ≤ workers)%nat → (length (running s') ≤ workers)%nat.
Proof.
  inversion 1; subst; simpl; rewrite ?length_app, ?length_insert; simpl; try lia.
  all: rewrite length_delete by eauto; lia.
Qed.

(** The history only grows. *)
Lemma pool_step_trace s w s' w' :
  pool_step (s, w) (s', w') → trace w `suffix_of` trace w'.
Proof.
  inversion 1; subst; try done. rewrite exec_trace. by apply suffix_cons_r.
Qed.

(** What is left of a task makes only the calls the task could make. *)
Lemma pool_step_emits P s w s' w' :
  pool_step (s, w) (s', w') → tasks_emit P s → tasks_emit P s'.
Proof.
  unfold tasks_emit. inversion 1; subst; simpl; intros [Hq Hr].
  - apply Forall_cons in Hq as [Ht Hq]. split; [done|].
    apply Forall_app. split; [done|]. by apply Forall_singleton.
  - split; [done|]. apply Forall_insert; [done|].
    eapply Forall_lookup_1 in Hr; [|done]. by inversion Hr; simplify_eq.
  - split; [done|]. by apply Forall_delete.
  - split; [done|]. by apply Forall_delete.
Qed.

(** A step changes the world by a call of a task, or not at all. *)
Lemma pool_step_world P s w s' w' :
  pool_step (s, w) (s', w') → tasks_emit P s →
  w' = w ∨ ∃ ev, P ev ∧ w' = (exec w ev).2.
Proof.
  inversion 1; subst; auto. intros [_ Hr]. right. exists ev. split; [|done].
  eapply Forall_lookup_1 in Hr; [|done]. by inversion Hr.
Qed.

(** An invariant of the world that the calls of the tasks preserve holds
    all along every run. *)
Theorem pool_invariant P (I : world → Prop) s w s' w' :
  (∀ w ev, I w → P ev → I (exec w ev).2) →
  rtc pool_step (s, w) (s', w') → tasks_emit P s → I w → I w' ∧ tasks_emit P s'.
Proof.
  intros Hstep Hrun. remember (s, w) as x eqn:Hx. remember (s', w') as y eqn:Hy.
  revert s w Hx. induction Hrun as [x|x [s1 w1] y Hxy _ IH]; intros s w -> Hs Hw.
  { by injection Hy as -> ->. }
  apply (IH Hy s1 w1 eq_refl); [by eapply pool_step_emits|].
  by destruct (pool_step_world P _ _ _ _ Hxy Hs) as [->|(ev & ? & ->)]; [|apply Hstep].
Qed.

Lemma tasks_emit_weaken (P Q : event → Prop) s :
  (∀ ev, P ev → Q ev) → tasks_emit P s → tasks_emit Q s.
Proof.
  intros HPQ [Hq Hr]. split; (eapply Forall_impl; [done|]); intros p; by apply emits_weaken.
Qed.

(** An invariant of the pool that every step preserves holds all along
    every run. *)
Lemma pool_state_invariant (J : pool → Prop) s w s' w' :
  (∀ s w s' w', pool_step (s, w) (s', w') → J s → J s') →
  rtc pool_step (s, w) (s', w') → J s → J s'.
Proof.
  intros Hstep Hrun. remember (s, w) as x eqn:Hx. remember (s', w') as y eqn:Hy.
  revert s w Hx. induction Hrun as [x|x [s1 w1] y Hxy _ IH]; intros s w -> Hs.
  { by injection Hy as -> ->. }
  apply (IH Hy s1 w1 eq_refl). by eapply Hstep.
Qed.

(** ** The exceptions of the tasks *)

(** What [main] raises again is the exception of a task that ended. *)
Lemma first_exception_elem results e :
  first_exception results = Raise e → Raise e ∈ results.
Proof.
  induction results as [|[a|e'] results IH]; simpl; [done| |].
  - intros. constructor. by apply IH.
  - intros [= <-]. constructor.
Qed.

Lemma pool_step_raises P s w s' w' :
  pool_step (s, w) (s', w') → tasks_raise P s → tasks_raise P s'.
Proof.
  unfold tasks_raise.
  inversion 1 as [t q r d w0 Hfree|i ev k q r d w0 Hi|i a q r d w0 Hi|i e q r d w0 Hi];
    subst; simpl; intros (Hq & Hr & Hd).
  - apply Forall_cons in Hq as [Ht Hq]. split_and!; [done| |done].
    apply Forall_app. by split; [|apply Forall_singleton].
  - split_and!; [done| |done]. apply Forall_insert; [done|].
    eapply Forall_lookup_1 in Hr; [|done]. inversion Hr as [| |ev' k' Hk]; simplify_eq.
    apply Hk, exec_reply.
  - split_and!; [done|by apply Forall_delete|].
    apply Forall_app. split; [done|]. by apply Forall_singleton.
  - split_and!; [done|by apply Forall_delete|].
    apply Forall_app. split; [done|]. apply Forall_singleton. intros e' [= <-].
    eapply Forall_lookup_1 in Hr; [|done]. by inversion Hr.
Qed.

(** Tasks that raise only exceptions of [P] when they run alone end with
    such exceptions only when they run together, whatever the
    interleaving. *)
Theorem pool_raises P s w s' w' e :
  rtc pool_step (s, w) (s', w') → tasks_raise P s →
  first_exception (finished s') = Raise e → P e.
Proof.
  intros Hrun Hs He. apply first_exception_elem in He.
  apply (pool_state_invariant (tasks_raise P) _ _ _ _ (pool_step_raises P)) in Hrun as Hs';
    [|done].
  destruct Hs' as (_ & _ & Hd). by eapply (proj1 (Forall_forall _ _) Hd).
Qed.

(** ** Every run ends *)

Lemma shrink_inv r' r :
  shrink r' r →
  ∃ i, (∃ ev k a, r !! i = Some (Vis ev k) ∧ r' = <[i := k a]> r) ∨
       (∃ p, r !! i = Some p ∧ ended p ∧ r' = delete i r).
Proof. destruct 1; eauto 10. Qed.

(** The tasks behind an ended task, and behind a task whose every
    continuation is fine, shrink for a finite time only. *)
Lemma shrink_cons_ended p r : ended p → Acc shrink r → Acc shrink (p :: r).
Proof.
  intros Hp Hr. induction Hr as [r Hr IHr]. constructor. intros r' Hs.
  apply shrink_inv in Hs as [[|i] [(ev & k & a & Hi & ->)|(p' & Hi & Hend & ->)]];
    simpl in *.
  - injection Hi as ->. done.
  - by constructor.
  - apply IHr. by apply (shrink_call i ev k a).
  - apply IHr. by apply (shrink_end i p').
Qed.

Lemma shrink_cons_Vis ev k r :
  (∀ a r, Acc shrink r → Acc shrink (k a :: r)) → Acc shrink r →
  Acc shrink (Vis ev k :: r).
Proof.
  intros Hk Hr. induction Hr as [r Hr IHr]. constructor. intros r' Hs.
  apply shrink_inv in Hs as [[|i] [(ev' & k' & a & Hi & ->)|(p' & Hi & Hend & ->)]];
    simpl in *.
  - injection Hi as _ <-. apply Hk. by constructor.
  - by injection Hi as <-.
  - apply IHr. by apply (shrink_call i ev' k' a).
  - apply IHr. by apply (shrink_end i p').
Qed.

Lemma shrink_cons p r : Acc shrink r → Acc shrink (p :: r).
Proof.
  revert r. induction p as [a|e|ev k IHp]; intros r Hr;
    [by apply shrink_cons_ended..|by apply shrink_cons_Vis].
Qed.

Lemma shrink_wf r : Acc shrink r.
Proof.
  induction r as [|p r IH]; [|by apply shrink_cons].
  constructor. intros r' Hs.
  by apply shrink_inv in Hs as [i [(ev & k & a & Hi & ->)|(p' & Hi & Hend & ->)]].
Qed.

(** No schedule goes on for ever: the tasks are finite in number and each
    makes finitely many calls, whatever it is answered. *)
Theorem pool_terminates s w : Acc (flip pool_step) (s, w).
Proof.
  destruct s as [q r d]. revert r d w. induction q as [|t q IHq]; intros r;
    induction (shrink_wf r) as [r _ IHr]; intros d w; constructor;
    intros [s' w'] Hstep; inversion Hstep as [| i ev k | i a | i e]; subst;
    first [apply IHq
          |apply IHr; by apply (shrink_call i ev k)
          |apply IHr; by eapply (shrink_end i)].
Qed.

(** ** One worker *)

(** A task alone on a worker runs as [run] says. *)
Lemma pool_runs_task p q d w :
  rtc pool_step (Pool q [p] d, w) (Pool q [] (d ++ [(run p w).1]), (run p w).2).
Proof.
  revert w. induction p as [a|e|ev k IH]; intros w.
  - apply rtc_once, (step_return 0 a). done.
  - apply rtc_once, (step_raise 0 e). done.
  - rewrite run_Vis. eapply rtc_l; [by apply (step_call 0 ev k)|apply IH].
Qed.

(** The tasks can run one after the other, in the order of submission. *)
Lemma pool_sequential_from tasks d w :
  (0 < workers)%nat →
  rtc pool_step (Pool tasks [] d, w)
    (Pool [] [] (d ++ (run_all tasks w).1), (run_all tasks w).2).
Proof.
  intros Hw. revert d w. induction tasks as [|t tasks IH]; intros d w; simpl.
  { by rewrite app_nil_r. }
  destruct (run t w) as [r w1] eqn:Ht. specialize (IH (d ++ [r]) w1).
  destruct (run_all tasks w1) as [rs w2]. simpl in *.
  eapply rtc_l; [by apply step_start|]. etrans; [apply pool_runs_task|].
  rewrite Ht. simpl. by rewrite <-app_assoc in IH.
Qed.
End pool.
