(* ===== verification/Orchestrator.v ===== *)
(** * Orchestrator: one target, and the scan of all of them

    [load_file] (src/TomcatScan.py, lines 50-64), [detect_and_check]
    (554-577) and [main] (581-617).  [main] is modelled from the value
    [load_config] returned: what it does before the pool is a program
    ([prepare]), and the pool runs the tasks as [Threads] says.  The paths
    and the pool settings [main] reads are converted where they are read
    ([as_str], [as_int]); [detect_and_check] passes the two settings of the
    sweep on as the configuration holds them.  [read] says what [main] has
    when it reaches the pool: the settings of the configuration and the
    three lists as [load_file] returned them, one after the other.

    The theorems are about all the scans together: the output file under
    every interleaving ([sink]), the files no scan touches, the workers of
    the pool [main] opens, and the exceptions that can end [main]. *)

From stdpp Require Import gmap.
From S2P Require Import Prelude PyStr Url Pool Config Effects Logic Scenario Deploy Brute Cve Threads.

(** ** Definitions *)

(** *** [load_file] *)

(** The text a file opened in text mode gives: [\r\n] and [\r] read as
    [\n]. *)
Fixpoint universal_newlines (s : string) : string :=
  match s with
  | "" => ""
  | String c r =>
      if decide (c = "013"%char) then
        String "010" (match r with
                      | String d r' =>
                          if decide (d = "010"%char) then universal_newlines r'
                          else universal_newlines r
                      | "" => ""
                      end)
      else String c (universal_newlines r)
  end.

(** [file.readlines()], each line without its newline: the pieces between
    the newlines, the last one dropped when it is empty. *)
Definition readlines (text : string) : list string :=
  let pieces := split nl (universal_newlines text) in
  if decide (final pieces = "") then removelast pieces else pieces.

(** [load_file(file_path)]: the stripped lines of the file, the empty list
    when there is no such file. *)
Definition load_file (file_path : string) : prog (list string) :=
  present ← isfile file_path;
  if negb present then mret []
  else
    f ← file_read file_path;
    match f with
    | TextFile text => mret (strip whitespace <$> readlines text)
    | ZipArchive _ => Throw UnicodeError
    end.

(** *** One target *)

(** The line of an exploited flaw. *)
Definition exploit_line (target_host vuln_type exploit_url : string) : string :=
  target_host +:+ " - " +:+ vuln_type +:+ " Exploited: " +:+ exploit_url +:+ nl.

Definition detect_and_check (url : string) (usernames passwords : list string)
    (output_file : string) (config : yaml) `{Soup} : prog () :=
  '(success, vuln_type, exploit_url) ← check_cve_2017_12615_and_cnvd_2020_10487 url config;
  (if success : bool
   then file_append output_file
          (exploit_line (target_host url) (str_opt vuln_type) (str_opt exploit_url))
   else mret ());;
  max_retries ← lift_result (getitem3 config "retry" "check_weak_password" "max_retries");
  retry_delay ← lift_result (getitem3 config "retry" "check_weak_password" "retry_delay");
  check_weak_password url usernames passwords output_file max_retries retry_delay config;;
  mret ().

(** *** All targets *)

(** What [main] has when it opens the pool: the number of workers and the
    tasks it submits, one for each URL in the order of the file. *)
Record plan : Type := Plan {
  workers : Z;
  tasks : list (prog ());
}.

(** [main] up to the pool; [None] is the [return] on a configuration that
    does not validate. *)
Definition prepare (config : yaml) `{Soup} : prog (option plan) :=
  valid ← lift_result (validate_config config);
  if negb valid then mret None
  else
    url_file ← lift_result (getitem2 config "files" "url_file" ≫= as_str);
    urls ← load_file url_file;
    user_file ← lift_result (getitem2 config "files" "user_file" ≫= as_str);
    usernames ← load_file user_file;
    passwd_file ← lift_result (getitem2 config "files" "passwd_file" ≫= as_str);
    passwords ← load_file passwd_file;
    output_file ← lift_result (getitem2 config "files" "output_file" ≫= as_str);
    max_workers_limit ←
      lift_result (getitem2 config "thread_pool" "max_workers_limit" ≫= as_int);
    min_workers ← lift_result (getitem2 config "thread_pool" "min_workers" ≫= as_int);
    combination_per_thread ←
      lift_result (thread_pool ← getitem config "thread_pool";
                   get thread_pool "combination_per_thread" (YInt 200) ≫= as_int);
    let count := combination_count urls usernames passwords in
    workers ← lift_result
      (adjust_thread_pool_size count max_workers_limit min_workers combination_per_thread);
    if decide (workers ≤ 0) then Throw ValueError
    else mret (Some {| workers := workers;
                       tasks := (λ url, detect_and_check url usernames passwords
                                          output_file config) <$> urls |}).

(** [main config w r w']: from the world [w], [main] on the configuration
    [config] can end in [r] and leave the world [w']. *)
Inductive main `{Env} `{Soup} (config : yaml) (w : world) : result () → world → Prop :=
  | main_stops e w1 :
      run (prepare config) w = (Raise e, w1) → main config w (Raise e) w1
  | main_invalid w1 :
      run (prepare config) w = (Ok None, w1) → main config w (Ok ()) w1
  | main_scans p w1 s w' :
      run (prepare config) w = (Ok (Some p), w1) →
      rtc (pool_step (Z.to_nat (workers p))) (submitted (tasks p), w1) (s, w') →
      drained s = true →
      main config w (first_exception (finished s)) w'.

(** What [main] has read when it reaches the pool: the three lists, one
    after the other, and the settings of the pool. *)
Record inputs : Type := Inputs {
  url_file : string; user_file : string; passwd_file : string; output_file : string;
  max_workers_limit : Z; min_workers : Z; combination_per_thread : Z;
  urls : list string; usernames : list string; passwords : list string;
}.

(** [read config w i w1]: the configuration holds the settings of [i], and
    from [w] the three files read one after the other give its lists and
    leave [w1]. *)
Definition read `{Env} (config : yaml) (w : world) (i : inputs) (w1 : world) : Prop :=
  getitem2 config "files" "url_file" = Ok (YStr (url_file i)) ∧
  getitem2 config "files" "user_file" = Ok (YStr (user_file i)) ∧
  getitem2 config "files" "passwd_file" = Ok (YStr (passwd_file i)) ∧
  getitem2 config "files" "output_file" = Ok (YStr (output_file i)) ∧
  getitem2 config "thread_pool" "max_workers_limit" = Ok (YInt (max_workers_limit i)) ∧
  getitem2 config "thread_pool" "min_workers" = Ok (YInt (min_workers i)) ∧
  (thread_pool ← getitem config "thread_pool";
   get thread_pool "combination_per_thread" (YInt 200)) = Ok (YInt (combination_per_thread i)) ∧
  ∃ w2 w3, run (load_file (url_file i)) w = (Ok (urls i), w2) ∧
           run (load_file (user_file i)) w2 = (Ok (usernames i), w3) ∧
           run (load_file (passwd_file i)) w3 = (Ok (passwords i), w1).

(** *** The output file *)

(** The calls that leave the lines of [out] alone: everything but a write,
    an archive or a removal at that path. *)
Definition sink_safe (out : string) (ev : event) : Prop :=
  match ev with
  | FileWrite path _ | ZipCreate path | ZipAdd path _ _ | Remove path => path ≠ out
  | FileAppend path line => path = out → whole_line line
  | _ => True
  end.

(** The line an entry of the history added to [out]. *)
Definition appended_by (out : string) (en : entry) : option string :=
  match en with
  | (FileAppend path line, Ok _) => if decide (path = out) then Some line else None
  | _ => None
  end.

(** The lines the history added to [out], first line first. *)
Definition appended (out : string) (t : list entry) : list string :=
  reverse (omap (appended_by out) t).

(** The text of a list of lines. *)
Definition text_of_lines (lines : list string) : string := foldr String.append "" lines.

(** [out] holds the lines the history added to it, in the order of their
    calls, and nothing else; each of them is a whole line. *)
Definition sink (out : string) (w : world) : Prop :=
  (∀ members, fs w !! out ≠ Some (ZipArchive members)) ∧
  text_of (fs w !! out) = text_of_lines (appended out (trace w)) ∧
  Forall whole_line (appended out (trace w)).

(** The output file is no name the scanner generates. *)
Definition reserved (out : string) : Prop :=
  ¬ generated ".war" out ∧ ¬ generated ".jsp" out.

(** What can end [main]: a key the configuration lacks, a setting of the
    wrong type, a refusal of the operating system, a negative delay or a
    pool without workers, an undecodable list, a pool size that cannot be
    computed. *)
Definition fatal (e : exn) : Prop :=
  e = KeyError ∨ e = TypeError ∨ e = OSError ∨ e = ValueError ∨ e = UnicodeError ∨
  e = ZeroDivisionError.

(** ** [load_file] *)

Section load_file.
Context `{Env}.
Implicit Types (w : world) (path : string).

(** A missing file is an empty list, not an error. *)
Lemma load_file_missing path w :
  fs w !! path = None → (run (load_file path) w).1 = Ok [].
Proof.
  intros Hp. unfold load_file. rewrite run_bind, run_isfile. cbv zeta.
  rewrite bool_decide_eq_false_2; [done|]. rewrite Hp. by intros [? ?].
Qed.

(** A file that can be read gives its lines, stripped. *)
Lemma load_file_text path text w :
  fs w !! path = Some (TextFile text) →
  env_denied (trace (logged w (IsFile path) (Ok (ABool true)))) (FileRead path) = false →
  (run (load_file path) w).1 = Ok (strip whitespace <$> readlines text).
Proof.
  intros Hp Hd. unfold load_file. rewrite run_bind, run_isfile. cbv zeta.
  rewrite bool_decide_eq_true_2 by (by rewrite Hp). cbv beta iota. simpl negb. cbv iota.
  rewrite run_bind, run_file_read by done. simpl. by rewrite Hp.
Qed.

(** A text without carriage returns reads as it is. *)
Lemma universal_newlines_id s : in_chars "013" s = false → universal_newlines s = s.
Proof.
  induction s as [|c s IH]; simpl; [done|]. case_decide; [done|]. intros Hs.
  rewrite decide_False by done. by rewrite IH.
Qed.

Lemma text_of_lines_cons l ls : text_of_lines (l :: ls) = l +:+ text_of_lines ls.
Proof. done. Qed.

Lemma in_chars_lines c ls :
  c ≠ "010"%char → Forall (λ l, in_chars c l = false) ls →
  in_chars c (text_of_lines ((λ l, l +:+ nl) <$> ls)) = false.
Proof.
  intros Hc. induction 1 as [|l ls Hl _ IH]; [done|].
  rewrite fmap_cons, text_of_lines_cons, !in_chars_app, Hl, IH. simpl.
  by rewrite decide_False.
Qed.

Lemma split_lines ls :
  Forall (λ l, in_chars "010" l = false) ls →
  split nl (text_of_lines ((λ l, l +:+ nl) <$> ls)) = ls ++ [""].
Proof.
  induction 1 as [|l ls Hl _ IH]; [done|].
  rewrite fmap_cons, text_of_lines_cons, sapp_assoc. unfold nl at 1 2.
  rewrite split_prefix by done. simpl. f_equal. apply IH.
Qed.

(** The lines of a text written one line after the other are these lines. *)
Lemma readlines_lines ls :
  Forall (λ l, in_chars "010" l = false) ls → Forall (λ l, in_chars "013" l = false) ls →
  readlines (text_of_lines ((λ l, l +:+ nl) <$> ls)) = ls.
Proof.
  intros Hnl Hcr. unfold readlines.
  rewrite universal_newlines_id by (by apply in_chars_lines).
  rewrite split_lines by done. unfold final. rewrite last_last.
  rewrite decide_True by done. apply removelast_last.
Qed.

(** C29. Reading back a list that was written one entry a line gives the list,
    when no entry holds a line break or starts or ends with white space. *)
Theorem load_file_lines path ls w :
  fs w !! path = Some (TextFile (text_of_lines ((λ l, l +:+ nl) <$> ls))) →
  env_denied (trace (logged w (IsFile path) (Ok (ABool true)))) (FileRead path) = false →
  Forall (λ l, in_chars "010" l = false ∧ in_chars "013" l = false ∧ strip whitespace l = l)
    ls →
  (run (load_file path) w).1 = Ok ls.
Proof.
  intros Hp Hd Hls. rewrite (load_file_text _ _ _ Hp Hd), readlines_lines.
  - f_equal. rewrite <-(list_fmap_id ls) at 2. apply Forall_fmap_ext.
    eapply Forall_impl; [done|]. by intros l (_ & _ & ->).
  - eapply Forall_impl; [done|]. by intros l (? & ? & ?).
  - eapply Forall_impl; [done|]. by intros l (? & ? & ?).
Qed.

Lemma raises_only_load_file path :
  raises_only (λ e, e = OSError ∨ e = UnicodeError) (load_file path).
Proof. unfold load_file. solve_raises. Qed.

Lemma load_file_emits (P : event → Prop) path :
  P (IsFile path) → P (FileRead path) → emits P (load_file path).
Proof. intros. unfold load_file. solve_emits. Qed.
End load_file.

(** ** The lines of the output file *)

Section sink.
Context `{Env}.
Implicit Types (w : world) (out : string) (ev : event).

Lemma text_of_lines_app l1 l2 :
  text_of_lines (l1 ++ l2) = text_of_lines l1 +:+ text_of_lines l2.
Proof.
  induction l1 as [|x l1 IH]; simpl; [done|].
  by rewrite IH, sapp_assoc.
Qed.

Lemma appended_cons out en t :
  appended out (en :: t) = appended out t ++ option_list (appended_by out en).
Proof.
  unfold appended. simpl. destruct (appended_by out en); simpl;
    [by rewrite reverse_cons|by rewrite app_nil_r].
Qed.

(** A call that is no append to [out] adds no line. *)
Lemma appended_by_other out ev r :
  (∀ line, ev ≠ FileAppend out line) → appended_by out (ev, r) = None.
Proof.
  intros Hev. destruct ev; simpl; try done. destruct r; [|done].
  case_decide; [|done]. subst. by destruct (Hev line).
Qed.

(** One call keeps the output file in step with the history. *)
Lemma sink_exec out w ev : sink out w → sink_safe out ev → sink out (exec w ev).2.
Proof.
  intros (Hzip & Htext & Hlines) Hsafe. unfold sink. rewrite exec_trace, appended_cons.
  destruct (decide (touches out ev)) as [Ht|Ht].
  - destruct ev; simpl in Ht, Hsafe; try done. subst path. unfold exec. simpl.
    destruct (env_denied _ _); simpl.
    + by rewrite app_nil_r.
    + rewrite decide_True, lookup_insert_eq by done. split_and!; [done| |]; simpl.
      * rewrite text_of_lines_app, <-Htext. unfold text_of_lines. simpl.
        by rewrite sapp_nil_r.
      * apply Forall_app. split; [done|]. apply Forall_singleton. by apply Hsafe.
  - rewrite exec_fs_lookup by done. rewrite appended_by_other, app_nil_r; [done|].
    intros line ->. by apply Ht.
Qed.

(** What the scanner can do is safe for an output file of a reserved
    name. *)
Lemma footprint_sink_safe out ev : reserved out → footprint out ev → sink_safe out ev.
Proof.
  intros [Hwar Hjsp]. destruct ev; simpl; try done; intros Hg ->; tauto.
Qed.

(** The scanner writes to the output file and to generated names only. *)
Lemma footprint_touches out path ev :
  path ≠ out → reserved path → footprint out ev → ¬ touches path ev.
Proof.
  intros Hout [Hwar Hjsp]. destruct ev; simpl; try done; intros Hg Hp; subst; tauto.
Qed.

Lemma run_sink {A} out (p : prog A) w :
  emits (sink_safe out) p → sink out w → sink out (run p w).2.
Proof. intros. eapply (run_invariant _ (sink out)); eauto using sink_exec. Qed.
End sink.

(** ** One target *)

Section target.
Context `{Soup}.
Implicit Types (url out : string) (us ps : list string) (config : yaml).

(** The scan of a target writes to no file but the output file, where it
    appends whole lines, and touches no other file than the page and the
    archive of names it generated. *)
Lemma exploit_line_whole host vuln evidence : whole_line (exploit_line host vuln evidence).
Proof. unfold exploit_line. do 4 apply whole_line_app. apply whole_line_nl. Qed.

Lemma detect_and_check_footprint url us ps out config :
  emits (footprint out) (detect_and_check url us ps out config).
Proof.
  unfold detect_and_check. solve_emits;
    first [by apply probe_emits|apply check_weak_password_footprint
          |by split; [|apply exploit_line_whole]].
Qed.
End target.

(** ** All targets *)

Section scan.
Context `{Env} `{Soup}.
Implicit Types (w : world) (out : string) (config : yaml) (s : pool).

Lemma raises_only_detect url us ps out config :
  raises_only (escapes config) (detect_and_check url us ps out config).
Proof.
  unfold detect_and_check. solve_raises; try (by unfold escapes; auto).
  - eapply raises_only_weaken; [|apply raises_only_probe]. unfold escapes. naive_solver.
  - intros ?%getitem3_raises. unfold escapes. naive_solver.
  - intros ?%getitem3_raises. unfold escapes. naive_solver.
  - apply raises_only_check_weak_password.
Qed.

(** C17. A transport error never leaves the scan of a target.  What does, and
    ends the task, is a [KeyError] or a [TypeError] of the configuration, an
    [OSError] of a file, the [ValueError] of a negative delay and, when the
    [files] section is no dictionary, the [AttributeError] of its [get]. *)
Theorem detect_raises url us ps out config :
  raises_only (escapes config) (detect_and_check url us ps out config).
Proof. apply raises_only_detect. Qed.

(** What [main] does before the pool raises nothing else. *)
Lemma path_setting_raises config a b e :
  getitem2 config a b ≫= as_str = Raise e → e = KeyError ∨ e = TypeError.
Proof.
  destruct (getitem2 config a b) eqn:E; simpl;
    [intros ->%as_str_raises; auto|intros [= <-]; eauto using getitem2_raises].
Qed.

Lemma size_setting_raises config a b e :
  getitem2 config a b ≫= as_int = Raise e → e = KeyError ∨ e = TypeError.
Proof.
  destruct (getitem2 config a b) eqn:E; simpl;
    [intros ->%as_int_raises%limit_error_TypeError; auto
    |intros [= <-]; eauto using getitem2_raises].
Qed.

(** [config['thread_pool']] was indexed before its [get] is called: it is a
    dictionary there, and [get] raises nothing. *)
Lemma per_thread_raises config lo e :
  getitem2 config "thread_pool" "min_workers" ≫= as_int = Ok lo →
  (thread_pool ← getitem config "thread_pool";
   get thread_pool "combination_per_thread" (YInt 200) ≫= as_int) = Raise e →
  e = TypeError.
Proof.
  unfold getitem2. destruct (getitem config "thread_pool") as [tp|e'] eqn:E; [|done]. simpl.
  destruct (getitem tp "min_workers") as [v|] eqn:G; [|done].
  apply getitem_Ok_map in G as (m & -> & _). simpl.
  by intros _ ?%as_int_raises%limit_error_TypeError.
Qed.

Lemma raises_only_prepare config : raises_only fatal (prepare config).
Proof.
  unfold prepare, fatal. solve_raises.
  all: try (eapply raises_only_weaken; [|apply raises_only_load_file]; naive_solver).
  all: try (intros ?%path_setting_raises; naive_solver).
  all: try (intros ?%size_setting_raises; naive_solver).
  - intros ?%validate_config_raises. naive_solver.
  - intros He. right. left. eauto using per_thread_raises.
  - intros ?%adjust_raises. naive_solver.
Qed.

(** The settings a conversion accepted. *)
Lemma as_str_Ok (r : result yaml) (path : string) :
  r ≫= as_str = Ok path → r = Ok (YStr path).
Proof. destruct r as [[]|]; naive_solver. Qed.

Lemma as_int_Ok (r : result yaml) (z : Z) : r ≫= as_int = Ok z → r = Ok (YInt z).
Proof. destruct r as [[]|]; naive_solver. Qed.

(** A key that is there is the key [get] finds. *)
Lemma per_thread_setting config v :
  getitem2 config "thread_pool" "combination_per_thread" = Ok v →
  (thread_pool ← getitem config "thread_pool";
   get thread_pool "combination_per_thread" (YInt 200) ≫= as_int) = as_int v.
Proof.
  unfold getitem2. destruct (getitem config "thread_pool") as [tp|]; [|done]. simpl.
  intros (m & -> & Hm)%getitem_Ok_map. simpl. by rewrite Hm.
Qed.

(** The tasks of a plan are the scans of the URLs of the file, in its
    order, with the lists and the output file of the configuration; its
    workers are what [adjust_thread_pool_size] gives for these lists. *)
Lemma prepare_plan config w p w1 :
  run (prepare config) w = (Ok (Some p), w1) →
  ∃ i, read config w i w1 ∧
    tasks p = (λ url, detect_and_check url (usernames i) (passwords i) (output_file i) config)
                <$> urls i ∧
    adjust_thread_pool_size (combination_count (urls i) (usernames i) (passwords i))
      (max_workers_limit i) (min_workers i) (combination_per_thread i) = Ok (workers p) ∧
    0 < workers p.
Proof.
  unfold prepare. intros Hrun.
  apply lift_result_Ok_inv in Hrun as ([] & _ & Hrun); [|done]. simpl in Hrun.
  apply lift_result_Ok_inv in Hrun as (url_file & ?%as_str_Ok & Hrun).
  apply run_bind_Ok_inv in Hrun as (urls & w2 & ? & Hrun).
  apply lift_result_Ok_inv in Hrun as (user_file & ?%as_str_Ok & Hrun).
  apply run_bind_Ok_inv in Hrun as (us & w3 & ? & Hrun).
  apply lift_result_Ok_inv in Hrun as (passwd_file & ?%as_str_Ok & Hrun).
  apply run_bind_Ok_inv in Hrun as (ps & w4 & ? & Hrun).
  apply lift_result_Ok_inv in Hrun as (out & ?%as_str_Ok & Hrun).
  apply lift_result_Ok_inv in Hrun as (hi & ?%as_int_Ok & Hrun).
  apply lift_result_Ok_inv in Hrun as (lo & ?%as_int_Ok & Hrun).
  apply lift_result_Ok_inv in Hrun as (k & Hk & Hrun). cbv zeta in Hrun.
  rewrite <-result_bind_assoc in Hk. apply as_int_Ok in Hk.
  apply lift_result_Ok_inv in Hrun as (n & ? & Hrun).
  case_decide; [done|]. injection Hrun as <- <-.
  exists (Inputs url_file user_file passwd_file out hi lo k urls us ps).
  unfold read. simpl. split_and!; [done..|eauto|done|done|lia].
Qed.

(** The [files] section of a configuration [main] went on with is a
    dictionary. *)
Lemma read_files config w i w1 : read config w i w1 → ¬ attribute_error config AttributeError.
Proof.
  intros (Hu & _). unfold getitem2 in Hu. intros [_ Hm].
  destruct (getitem config "files") as [d|]; [|done]. simpl in Hu.
  apply getitem_Ok_map in Hu as (m & -> & _). by eapply Hm.
Qed.

(** What [main] does before the pool reads files and writes none. *)
Lemma prepare_emits config : emits (λ ev, is_file_op ev = false ∨ ∃ p, ev = FileRead p)
                               (prepare config).
Proof.
  unfold prepare. solve_emits; try (apply load_file_emits; eauto). all: eauto.
Qed.

(** The scans [main] submits stay within the footprint of a scan. *)
Lemma tasks_footprint out urls us ps config :
  tasks_emit (footprint out)
    (submitted ((λ url, detect_and_check url us ps out config) <$> urls)).
Proof.
  split; [|done]. apply Forall_fmap, Forall_forall. intros url _.
  exact (detect_and_check_footprint url us ps out config).
Qed.

Lemma tasks_escape out urls us ps config :
  tasks_raise (escapes config) (submitted ((λ url, detect_and_check url us ps out config) <$> urls)).
Proof.
  split_and!; [|done..]. apply Forall_fmap, Forall_forall. intros url _.
  exact (raises_only_detect url us ps out config).
Qed.

(** Tasks within the footprint keep the output file in step with the
    history, and leave the other files of reserved names alone. *)
Lemma pool_sink out n s w s' w' :
  reserved out → tasks_emit (footprint out) s → sink out w →
  rtc (pool_step n) (s, w) (s', w') → sink out w'.
Proof.
  intros Hout Hs Hw Hrun.
  eapply (pool_invariant n (sink_safe out) (sink out)); [|done| |done].
  - intros. by apply sink_exec.
  - eapply tasks_emit_weaken; [|done]. intros ev. by apply footprint_sink_safe.
Qed.

Lemma pool_keeps_files out path n s w s' w' :
  path ≠ out → reserved path → tasks_emit (footprint out) s →
  rtc (pool_step n) (s, w) (s', w') → fs w' !! path = fs w !! path.
Proof.
  intros Hpath Hres Hs Hrun.
  eapply (pool_invariant n (λ ev, ¬ touches path ev) (λ w', fs w' !! path = fs w !! path));
    [|done| |done].
  - intros w1 ev <- Hev. by apply exec_fs_lookup.
  - eapply tasks_emit_weaken; [|done]. intros ev. by apply footprint_touches.
Qed.

(** C5. Whatever the interleaving of the scans of the targets, the output
    file holds the texts that were appended to it, in the order of the
    calls, and each of them is a whole line: no scan writes to it
    otherwise, and none removes it. *)
Theorem scan_sink out urls us ps config n w s w' :
  reserved out → sink out w →
  rtc (pool_step n) (submitted ((λ url, detect_and_check url us ps out config) <$> urls), w)
      (s, w') →
  sink out w'.
Proof. intros. eapply pool_sink; eauto using tasks_footprint. Qed.

(** C15. No scan changes a file other than the output file and the pages and
    archives of generated names, whatever the interleaving: the three lists
    are read and never written. *)
Theorem scan_keeps_files out path urls us ps config n w s w' :
  path ≠ out → reserved path →
  rtc (pool_step n) (submitted ((λ url, detect_and_check url us ps out config) <$> urls), w)
      (s, w') →
  fs w' !! path = fs w !! path.
Proof. intros. eapply pool_keeps_files; eauto using tasks_footprint. Qed.

(** C14. [main] leaves the output file of the configuration in step with the
    history, however it ends. *)
Theorem main_sink config out w r w' :
  getitem2 config "files" "output_file" ≫= as_str = Ok out → reserved out →
  sink out w → main config w r w' → sink out w'.
Proof.
  intros Hout Hres Hw. assert (∀ r1 w1, run (prepare config) w = (r1, w1) → sink out w1)
    as Hprepare.
  { intros r1 w1 Hrun. change w1 with (r1, w1).2. rewrite <-Hrun.
    apply run_sink; [|done]. eapply emits_weaken; [|apply prepare_emits].
    intros ev [Hev|[p ->]]; [by destruct ev|done]. }
  inversion 1 as [e w1 Hrun| w1 Hrun|p w1 s w2 Hrun Hpool]; subst; [by eauto..|].
  destruct (prepare_plan _ _ _ _ Hrun) as (i & (_ & _ & _ & Hout' & _) & Htasks & _).
  apply as_str_Ok in Hout. rewrite Hout in Hout'. injection Hout' as ->.
  rewrite Htasks in Hpool.
  eapply pool_sink; [done|apply tasks_footprint|by eapply Hprepare|done].
Qed.

(** No run of a pool has more tasks under way than it has workers, and
    none loses a task: when nothing is left to run, there is one result for
    each task, whether it returned or raised. *)
Lemma pool_bound n tasks w s w' :
  rtc (pool_step n) (submitted tasks, w) (s, w') →
  (length (running s) ≤ n)%nat ∧ population s = length tasks ∧
  (drained s = true → length (finished s) = length tasks).
Proof.
  intros Hrun.
  apply (pool_state_invariant n
    (λ s, (length (running s) ≤ n)%nat ∧ population s = length tasks) _ _ _ _) in Hrun.
  - destruct Hrun as [Hb Hp]. split_and!; [done..|]. unfold drained, population in *.
    intros [?%bool_decide_eq_true ?%bool_decide_eq_true]%andb_true_iff. lia.
  - intros s1 w1 s2 w2 Hstep [Hb Hp]. split; [by eapply pool_step_bound|].
    by erewrite pool_step_population.
  - unfold population. simpl. lia.
Qed.

(** C25. The pool of [main].  When [main] reaches the pool, its workers are what
    [adjust_thread_pool_size] gives for the product of the lengths of the
    three lists as [load_file] read them, with the three settings of the
    configuration; there is at least one.  However the pool runs from
    there, no more scans are under way than that, and when nothing is left
    to run there is one result for each line of the URL file. *)
Theorem main_workers config w p w1 s w' :
  run (prepare config) w = (Ok (Some p), w1) →
  rtc (pool_step (Z.to_nat (workers p))) (submitted (tasks p), w1) (s, w') →
  ∃ i, read config w i w1 ∧
    adjust_thread_pool_size (combination_count (urls i) (usernames i) (passwords i))
      (max_workers_limit i) (min_workers i) (combination_per_thread i) = Ok (workers p) ∧
    0 < workers p ∧
    Z.of_nat (length (running s)) ≤ workers p ∧
    (drained s = true → length (finished s) = length (urls i)).
Proof.
  intros (i & Hi & Htasks & Hw & Hpos)%prepare_plan (Hb & _ & Hd)%pool_bound.
  exists i. rewrite Htasks, length_fmap in Hd. split_and!; [done..|lia|done].
Qed.

(** C16. Whatever the interleaving of the scans, [main] ends with no exception
    but those of [fatal]: a transport error to a target, and an error of the
    AJP exchange, never end the scan.  [AttributeError] is not among them:
    [main] indexed the [files] section before it submitted the scans, so it
    is a dictionary when they call its [get]. *)
Theorem main_raises config w e w' : main config w (Raise e) w' → fatal e.
Proof.
  inversion 1 as [e' w1 Hrun|w1 Hrun|p w1 s w2 Hrun Hpool Hd He]; subst.
  { eapply raises_only_run; [apply raises_only_prepare|]. by rewrite Hrun. }
  destruct (prepare_plan _ _ _ _ Hrun) as (i & Hi%read_files & Htasks & _).
  rewrite Htasks in Hpool.
  assert (escapes config e) as He' by (by eapply pool_raises; [|apply tasks_escape|]).
  unfold fatal, escapes in *. destruct He' as [?|[?|[?|[?|[-> ?]]]]]; [tauto..|].
  destruct Hi. by split.
Qed.

(** C30. A configuration that does not validate ends [main] before any call:
    nothing is read, and nothing is scanned. *)
Theorem main_invalid_config config w r w' :
  validate_config config = Ok false → main config w r w' ↔ r = Ok () ∧ w' = w.
Proof.
  intros Hv. assert (run (prepare config) w = (Ok None, w)) as Hrun.
  { unfold prepare. by rewrite run_lift_bind, Hv. }
  split; [|intros [-> ->]; by apply main_invalid].
  inversion 1 as [e w1 Hp|w1 Hp|p w1 s w2 Hp]; rewrite Hrun in Hp; by simplify_eq.
Qed.
End scan.

(** ** Concrete runs *)

(** A path with neither suffix is no generated name. *)
Lemma reserved_endswith out :
  endswith out ".war" = false → endswith out ".jsp" = false → reserved out.
Proof. intros Hw Hj. split; intros [s ->]; by rewrite endswith_app in *. Qed.

(** The three lists on disk: two targets, one user name, one password. *)
Definition sample_lists : world :=
  {| fs := {[ "urls.txt" := TextFile ("http://10.0.0.2:8080" +:+ nl +:+
                                      "http://10.0.0.3:8080" +:+ nl);
              "user.txt" := TextFile ("tomcat" +:+ nl);
              "passwd.txt" := TextFile ("tomcat" +:+ nl) ]};
     trace := [] |}.

(** Servers that accept [tomcat:tomcat]. *)
Definition sample_env : Env := scenario up (tomcat "tomcat" "tomcat") permissive.

(** The scans [main] submits for these lists. *)
Definition sample_targets : list (prog ()) :=
  (λ url, @detect_and_check url ["tomcat"] ["tomcat"] "success.txt" sample_config soup_named)
    <$> ["http://10.0.0.2:8080"; "http://10.0.0.3:8080"].

(** The schedule that lets the running scans take turns. *)
Definition in_turns (n : nat) : list nat := seq 0 n.

(** The schedule that lets the first scan make [n] calls, then the second
    scan run to its end, then the first. *)
Definition overtaken (n : nat) : list nat :=
  [0; 0]%nat ++ replicate n 0%nat ++ replicate 100 1%nat ++ replicate 100 0%nat.

(** [main] on the sample configuration and these lists, the two scans
    taking turns. *)
Lemma main_in_turns :
  let w1 := (@run sample_env _ (@prepare sample_config soup_named) sample_lists).2 in
  let sw := @run_pool sample_env 2 (in_turns 200) (submitted sample_targets) w1 in
  @main sample_env soup_named sample_config sample_lists (first_exception (finished sw.1)) sw.2.
Proof.
  intros w1 sw. apply (main_scans _ _ (Plan 2 sample_targets) w1 sw.1 sw.2).
  - reflexivity.
  - rewrite <-surjective_pairing. apply run_pool_steps.
  - by vm_compute.
Qed.

Lemma scan_sink_witness :
  sink "success.txt"
    (@run_pool sample_env 2 (in_turns 200) (submitted sample_targets) initial).2.
Proof.
  set (sw := @run_pool sample_env 2 (in_turns 200) (submitted sample_targets) initial).
  apply (@scan_sink sample_env soup_named "success.txt"
           ["http://10.0.0.2:8080"; "http://10.0.0.3:8080"] ["tomcat"] ["tomcat"]
           sample_config 2%nat initial sw.1 sw.2).
  - by apply reserved_endswith.
  - by split_and!.
  - rewrite <-surjective_pairing. apply run_pool_steps.
Defined.

Lemma scan_keeps_files_witness :
  let w1 := (@run sample_env _ (@prepare sample_config soup_named) sample_lists).2 in
  fs (@run_pool sample_env 2 (in_turns 200) (submitted sample_targets) w1).2 !! "urls.txt"
  = fs w1 !! "urls.txt".
Proof.
  intros w1.
  set (sw := @run_pool sample_env 2 (in_turns 200) (submitted sample_targets) w1).
  apply (@scan_keeps_files sample_env soup_named "success.txt" "urls.txt"
           ["http://10.0.0.2:8080"; "http://10.0.0.3:8080"] ["tomcat"] ["tomcat"]
           sample_config 2%nat w1 sw.1 sw.2).
  - done.
  - by apply reserved_endswith.
  - rewrite <-surjective_pairing. apply run_pool_steps.
Defined.

Lemma main_sink_witness :
  let w1 := (@run sample_env _ (@prepare sample_config soup_named) sample_lists).2 in
  sink "success.txt"
    (@run_pool sample_env 2 (in_turns 200) (submitted sample_targets) w1).2.
Proof.
  intros w1. eapply (@main_sink sample_env soup_named sample_config "success.txt" sample_lists).
  - reflexivity.
  - by apply reserved_endswith.
  - by split_and!.
  - apply main_in_turns.
Defined.

Lemma main_workers_witness :
  let w1 := (@run sample_env _ (@prepare sample_config soup_named) sample_lists).2 in
  let sw := @run_pool sample_env 2 (overtaken 28) (submitted sample_targets) w1 in
  ∃ i, @read sample_env sample_config sample_lists i w1 ∧
    adjust_thread_pool_size (combination_count (urls i) (usernames i) (passwords i))
      (max_workers_limit i) (min_workers i) (combination_per_thread i) = Ok 2 ∧
    0 < 2 ∧
    Z.of_nat (length (running sw.1)) ≤ 2 ∧
    (drained sw.1 = true → length (finished sw.1) = length (urls i)).
Proof.
  intros w1 sw.
  apply (@main_workers sample_env soup_named sample_config sample_lists
           (Plan 2 sample_targets) w1 sw.1 sw.2).
  - reflexivity.
  - rewrite <-surjective_pairing. apply run_pool_steps.
Defined.

Lemma main_invalid_config_witness :
  @main sample_env soup_named (YMap ∅) sample_lists (Ok ()) sample_lists.
Proof. by apply (@main_invalid_config sample_env soup_named (YMap ∅)). Defined.

(** The two scans taking turns: both end, and the output file holds their
    four lines in the order of the calls, the lines of one target between
    the lines of the other. *)
Example scan_in_turns :
  let w1 := (@run sample_env _ (@prepare sample_config soup_named) sample_lists).2 in
  let sw := @run_pool sample_env 2 (in_turns 200) (submitted sample_targets) w1 in
  drained sw.1 = true ∧ finished sw.1 = [Ok (); Ok ()] ∧
  fs sw.2 !! "success.txt" = Some (TextFile
    ("http://10.0.0.2:8080/manager/html tomcat:tomcat" +:+ nl +:+
     "http://10.0.0.3:8080/manager/html tomcat:tomcat" +:+ nl +:+
     "http://10.0.0.2:8080 tomcat:tomcat - Webshell: http://10.0.0.2:8080/EGIKMO/QSUWY0.jsp"
     +:+ nl +:+
     "http://10.0.0.3:8080 tomcat:tomcat - Webshell: http://10.0.0.3:8080/FHJLNP/RTVXZ1.jsp"
     +:+ nl)).
Proof. vm_compute. by repeat split. Qed.

(** Two scans that draw the same names share one archive.  One after the
    other they both deploy it; when the second overtakes the first between
    its packaging and its upload, the second removes the archive, the first
    finds none, and its [OSError] ends [main]. *)
Example scan_name_collision :
  let E := with_random 0 sample_env in
  let one := @run_pool E 1 (in_turns 200) (submitted sample_targets) initial in
  let two := @run_pool E 2 (overtaken 28) (submitted sample_targets) initial in
  (drained one.1 = true ∧ first_exception (finished one.1) = Ok ()) ∧
  (drained two.1 = true ∧ finished two.1 = [Ok (); Raise OSError] ∧
   first_exception (finished two.1) = Raise OSError ∧
   fs two.2 !! "success.txt" = Some (TextFile
     ("http://10.0.0.2:8080/manager/html tomcat:tomcat" +:+ nl +:+
      "http://10.0.0.3:8080/manager/html tomcat:tomcat" +:+ nl +:+
      "http://10.0.0.3:8080 tomcat:tomcat - Webshell: http://10.0.0.3:8080/aaaaaa/aaaaaa.jsp"
      +:+ nl))).
Proof. vm_compute. by repeat split. Qed.

(** A blank line of a list is an entry of its own: the empty string is
    scanned as a target, and tried as a user name or a password. *)
Example load_file_blank_line :
  let w := {| fs := {[ "urls.txt" := TextFile ("http://a" +:+ nl +:+ nl +:+ " http://b " +:+
                                               String "013" nl) ]};
              trace := [] |} in
  (@run sample_env _ (load_file "urls.txt") w).1 = Ok ["http://a"; ""; "http://b"] ∧
  (@run sample_env _ (load_file "user.txt") w).1 = Ok [].
Proof. by vm_compute. Qed.

(** The sample configuration with no minimum of workers. *)
Definition no_minimum : yaml :=
  match sample_config with
  | YMap m => YMap (<["thread_pool" := YMap {[ "max_workers_limit" := YInt 10;
                                               "min_workers" := YInt 0;
                                               "combination_per_thread" := YInt 200 ]}]> m)
  | v => v
  end.

(** With no target and no minimum the pool is asked for no worker, and
    [ThreadPoolExecutor] raises [ValueError]. *)
Example prepare_no_workers :
  (@run sample_env _ (@prepare no_minimum soup_named) initial).1 = Raise ValueError.
Proof. by vm_compute. Qed.

(** [main] on the same lists when every draw is the same and the second
    scan overtakes the first. *)
Lemma main_overtaken :
  let E := with_random 0 sample_env in
  let w1 := (@run E _ (@prepare sample_config soup_named) sample_lists).2 in
  let sw := @run_pool E 2 (overtaken 28) (submitted sample_targets) w1 in
  @main E soup_named sample_config sample_lists (first_exception (finished sw.1)) sw.2.
Proof.
  intros E w1 sw. apply (main_scans _ _ (Plan 2 sample_targets) w1 sw.1 sw.2).
  - reflexivity.
  - rewrite <-surjective_pairing. apply run_pool_steps.
  - by vm_compute.
Qed.

Lemma main_raises_witness : fatal OSError.
Proof.
  pose (E := with_random 0 sample_env).
  pose (w1 := (@run E _ (@prepare sample_config soup_named) sample_lists).2).
  pose (sw := @run_pool E 2 (overtaken 28) (submitted sample_targets) w1).
  apply (@main_raises E soup_named sample_config sample_lists OSError sw.2).
  change (Raise OSError) with (first_exception (finished sw.1)). apply main_overtaken.
Defined.

Lemma load_file_lines_witness :
  (@run sample_env _ (load_file "urls.txt") sample_lists).1
  = Ok ["http://10.0.0.2:8080"; "http://10.0.0.3:8080"].
Proof.
  apply (@load_file_lines sample_env "urls.txt"
           ["http://10.0.0.2:8080"; "http://10.0.0.3:8080"] sample_lists); [done..|].
  repeat (constructor; [by vm_compute|]). constructor.
Defined.
